(** * dnf.module.repo_module_dict: module spec resolution and state changes

    A shallow embedding of [RepoModuleDict] (dnf/module/repo_module_dict.py):
    the read path [find_module_version] over the registry of
    [RepoModule]s, and the batch operations [enable], [disable], [reset],
    [install], [upgrade] and [remove] over libdnf's module container.

    Python values are modelled as follows.
    - [None]-able arguments are [option]s; a truth test ([if x:], [if not x:])
      is written out with [str_truthy], [int_truthy] and the like.
    - A [dict] is a [gmap] where only lookups matter (the registry, the
      persisted module data) and an association list in insertion order
      where the code iterates over it ([moduleDict], [install_dict]).
    - A [set] is a duplicate-free list; iterating over [set(xs)] visits the
      distinct elements of [xs] in one fixed order (Python leaves the order
      open).
    - An exception is a value of [exception]; code that can raise returns a
      [result]. *)

From Stdlib Require Import Ascii.
From stdpp Require Import base option list strings gmap pretty sorting.

Local Open Scope string_scope.
Local Open Scope list_scope.
Local Open Scope Z_scope.

(** ** Exceptions and results *)

Inductive exception :=
| KeyError
| NoStreamSpecifiedException (name : string)
| EnableMultipleStreamsException (name : string)
| AssertionError
| AttributeError
| ModuleMarkingError (no_match_specs error_specs : list string).

Inductive result (A : Type) :=
| Ok (a : A)
| Raise (e : exception).
Arguments Ok {A} a.
Arguments Raise {A} e.

Definition rbind {A B} (r : result A) (k : A -> result B) : result B :=
  match r with
  | Ok a => k a
  | Raise e => Raise e
  end.

Notation "x <-- r ;; k" := (rbind r (fun x => k))
  (at level 100, r at next level, right associativity).

(** [d[k]] on a dict: the value, or [KeyError]. *)
Definition getitem {K V} `{Countable K} (d : gmap K V) (k : K) : result V :=
  match d !! k with
  | Some v => Ok v
  | None => Raise KeyError
  end.

(** Truth value of a [str] or [None]. *)
Definition str_truthy (s : option string) : bool :=
  match s with
  | Some s => negb (String.eqb s "")
  | None => false
  end.

(** Truth value of an [int] or [None]. *)
Definition int_truthy (v : option Z) : bool :=
  match v with
  | Some z => negb (z =? 0)
  | None => false
  end.

(** ** The registry: RepoModule, RepoModuleStream, RepoModuleVersion *)

Record RepoModuleVersion := {
  rmv_name : string;
  rmv_stream : string;
  rmv_version : Z;
}.

(** Modelled from the spec: [RepoModuleStream] (dnf.module.repo_module_stream
    is not among the sources). A stream holds its versions keyed by version
    number, and "latest = max version". A stream is created when its first
    version is added, so it is never empty: the record keeps one version
    apart. *)
Record RepoModuleStream := {
  stream_head : RepoModuleVersion;
  stream_tail : list RepoModuleVersion;
}.

Definition stream_values (s : RepoModuleStream) : list RepoModuleVersion :=
  stream_head s :: stream_tail s.

(** [repo_module_stream[version]] *)
Definition stream_getitem (s : RepoModuleStream) (version : Z)
  : result RepoModuleVersion :=
  match List.find (fun v => rmv_version v =? version) (stream_values s) with
  | Some v => Ok v
  | None => Raise KeyError
  end.

(** [repo_module_stream.latest()] *)
Definition latest (s : RepoModuleStream) : RepoModuleVersion :=
  fold_left (fun best v => if rmv_version best <? rmv_version v then v else best)
            (stream_tail s) (stream_head s).

(** [repo_module.conf]: the persisted configuration. The code compares
    [conf.state._get()] with the string ["enabled"]. *)
Record ModuleConf := {
  conf_state : option string;
  conf_stream : option string;
  conf_profiles : list string;
}.

(** Modelled from the spec: [repo_module.defaults] (its class is not among the
    sources); [peek_default_stream()] is "the catalog's declared default
    stream for this module", absent when there is none. *)
Record ModuleDefaults := {
  peek_default_stream : option string;
}.

Record RepoModule := {
  conf : ModuleConf;
  defaults : ModuleDefaults;
  streams : gmap string RepoModuleStream;
}.

(** Modelled from the spec: [dnf.util.first_not_none] (dnf/util.py is not among
    the sources). The spec has the precedence as "first non-empty wins"; going
    by its name the helper skips [None] and nothing else, and gives [None]
    when nothing is left. The two readings differ on an empty string only, and
    the code tests the result for truth right after the call. *)
Fixpoint first_not_none {A} (items : list (option A)) : option A :=
  match items with
  | [] => None
  | Some a :: _ => Some a
  | None :: rest => first_not_none rest
  end.


(** ** libdnf: module packages, profiles and the module container

    The container ([self.base._moduleContainer]) and the objects it hands out
    belong to libdnf. They are modelled at the interface the spec gives them:
    a catalog of module versions plus the persisted per-module data. *)

Module ModuleProfile.
Record t := {
  getName : string;
  getContent : list string;
}.
End ModuleProfile.

Module ModulePackage.
Record t := {
  getId : nat;
  getName : string;
  getStream : string;
  getVersion : Z;
  getContext : string;
  getArch : string;
  profiles : list ModuleProfile.t;
  getArtifacts : list string;
}.

(** Modelled from the spec: [getProfiles(name)]; the profiles of a module
    version are a "mapping profile-name → set of package-names" and a profile
    is looked up by its name. *)
Definition getProfiles (m : t) (name : string) : list ModuleProfile.t :=
  filter (fun p => ModuleProfile.getName p = name) (profiles m).
End ModulePackage.

Inductive ModuleState :=
| STATE_DEFAULT
| STATE_ENABLED
| STATE_DISABLED
| STATE_UNKNOWN.

Global Instance ModuleState_eq_dec : EqDecision ModuleState.
Proof. solve_decision. Defined.

Module ModulePackageContainer.

(** [active] is the view of the active versions that the last re-filtering
    left; [pass_enabled] holds the names whose stream was enabled by a call
    of [enable] in the batch that is under way. No operation of
    [RepoModuleDict] clears it: a batch ends where the container is saved,
    outside this module. *)
Record t := {
  modules : list ModulePackage.t;
  active : list nat;
  states : gmap string ModuleState;
  enabled_streams : gmap string string;
  default_streams : gmap string string;
  default_profiles : gmap (string * string) (list string);
  installed_profiles : gmap string (list string);
  pass_enabled : list string;
}.

Definition set_active (c : t) (ids : list nat) : t :=
  {| modules := modules c; active := ids; states := states c;
     enabled_streams := enabled_streams c; default_streams := default_streams c;
     default_profiles := default_profiles c;
     installed_profiles := installed_profiles c;
     pass_enabled := pass_enabled c |}.

Definition set_states (c : t) (f : gmap string ModuleState -> gmap string ModuleState) : t :=
  {| modules := modules c; active := active c; states := f (states c);
     enabled_streams := enabled_streams c; default_streams := default_streams c;
     default_profiles := default_profiles c;
     installed_profiles := installed_profiles c;
     pass_enabled := pass_enabled c |}.

Definition set_enabled_streams (c : t) (f : gmap string string -> gmap string string) : t :=
  {| modules := modules c; active := active c; states := states c;
     enabled_streams := f (enabled_streams c); default_streams := default_streams c;
     default_profiles := default_profiles c;
     installed_profiles := installed_profiles c;
     pass_enabled := pass_enabled c |}.

Definition set_installed_profiles (c : t)
    (f : gmap string (list string) -> gmap string (list string)) : t :=
  {| modules := modules c; active := active c; states := states c;
     enabled_streams := enabled_streams c; default_streams := default_streams c;
     default_profiles := default_profiles c;
     installed_profiles := f (installed_profiles c);
     pass_enabled := pass_enabled c |}.

Definition set_pass_enabled (c : t) (f : list string -> list string) : t :=
  {| modules := modules c; active := active c; states := states c;
     enabled_streams := enabled_streams c; default_streams := default_streams c;
     default_profiles := default_profiles c;
     installed_profiles := installed_profiles c;
     pass_enabled := f (pass_enabled c) |}.

(** Modelled from the spec: a module that was never touched is in state
    [DEFAULT]. *)
Definition getModuleState (c : t) (name : string) : ModuleState :=
  default STATE_DEFAULT (states c !! name).

(** Modelled from the spec: the persisted enabled stream, empty when unset. *)
Definition getEnabledStream (c : t) (name : string) : string :=
  default "" (enabled_streams c !! name).

(** Modelled from the spec: [getDefaultStream(name) -> stream|empty]. *)
Definition getDefaultStream (c : t) (name : string) : string :=
  default "" (default_streams c !! name).

(** Modelled from the spec: [getDefaultProfiles(name, stream) -> set<string>]. *)
Definition getDefaultProfiles (c : t) (name stream : string) : list string :=
  default [] (default_profiles c !! (name, stream)).

(** Modelled from the spec: [getInstalledProfiles(name) -> set<string>]. *)
Definition getInstalledProfiles (c : t) (name : string) : list string :=
  default [] (installed_profiles c !! name).

(** Modelled from the spec: [isActive(versionId) -> bool]. An active version
    is one "the catalog currently considers eligible for installation given
    enabled streams and platform constraints": the view is computed when the
    sack is re-filtered ([filter_modules] below) and is read here. *)
Definition isModuleActive (c : t) (id : nat) : bool :=
  bool_decide (id ∈ active c).

(** Modelled from the spec: the failure of [enable(name, stream)], "a
    different stream is already ENABLED for that module and the caller is
    trying to enable a second stream in the same batch operation". *)
Definition enable_conflict (c : t) (name stream : string) : bool :=
  bool_decide (name ∈ pass_enabled c)
  && bool_decide (getModuleState c name = STATE_ENABLED)
  && negb (String.eqb (getEnabledStream c name) stream).

(** Modelled from the spec: [enable(name, stream)] fails with
    [EnableMultipleStreamsException] on such a conflict and changes nothing
    then; otherwise it records [ENABLED] with that stream. *)
Definition enable (c : t) (name stream : string) : result t :=
  if enable_conflict c name stream
  then Raise (EnableMultipleStreamsException name)
  else Ok (set_pass_enabled
             (set_enabled_streams (set_states c <[name := STATE_ENABLED]>)
                <[name := stream]>)
             (fun names => name :: names)).

(** Modelled from the spec: [disable(name)] "unconditionally sets state to
    DISABLED, regardless of prior state; clears no persisted profile data". *)
Definition disable (c : t) (name : string) : t :=
  set_states c <[name := STATE_DISABLED]>.

(** Modelled from the spec: [reset(name)] "sets state to UNKNOWN; does not
    remove installed-profile bookkeeping". *)
Definition reset (c : t) (name : string) : t :=
  set_states c <[name := STATE_UNKNOWN]>.

(** Modelled from the spec: [install(module, profile)] records an install
    marker for the profile on the module's name ("idempotent installed-state
    bookkeeping"). *)
Definition install (c : t) (m : ModulePackage.t) (profile : string) : t :=
  set_installed_profiles c (fun ip =>
    let old := default [] (ip !! ModulePackage.getName m) in
    if bool_decide (profile ∈ old) then ip
    else <[ModulePackage.getName m := old ++ [profile]]> ip).

(** Modelled from the spec: [uninstall(module, profile)] clears the profile
    from the installed-profile record. *)
Definition uninstall (c : t) (m : ModulePackage.t) (profile : string) : t :=
  set_installed_profiles c (fun ip =>
    let old := default [] (ip !! ModulePackage.getName m) in
    if bool_decide (profile ∈ old)
    then <[ModulePackage.getName m := filter (fun p => p ≠ profile) old]> ip
    else ip).

(** A filter of [query]: "an absent filter matches any value"; the code
    passes the empty string for an absent one. *)
Definition filter_matches (wanted value : string) : bool :=
  String.eqb wanted "" || String.eqb wanted value.

(** Modelled from the spec:
    [query(name, stream, version, context, arch) -> set<ModuleVersion>],
    "filters are conjunctive; side-effect-free; returns an empty set, never
    raises, on no match". *)
Definition query (c : t) (name stream version context arch : string)
  : list ModulePackage.t :=
  List.filter (fun m =>
      filter_matches name (ModulePackage.getName m)
      && filter_matches stream (ModulePackage.getStream m)
      && filter_matches version (pretty (ModulePackage.getVersion m))
      && filter_matches context (ModulePackage.getContext m)
      && filter_matches arch (ModulePackage.getArch m))
    (modules c).

(** Modelled from the spec: [getInstalledPkgNames() -> set<string>], the
    package names "still required by any other installed/kept module": the
    content of every catalog version's profiles that are recorded as
    installed for its module. *)
Definition getInstalledPkgNames (c : t) : list string :=
  remove_dups
    (m ← modules c;
     p ← getInstalledProfiles c (ModulePackage.getName m);
     profile ← ModulePackage.getProfiles m p;
     ModuleProfile.getContent profile).

End ModulePackageContainer.

(** ** hawkey: parsed module specs, the sack and the goal *)

Record NSVCAP := {
  nsvcap_name : option string;
  nsvcap_stream : option string;
  nsvcap_version : option Z;
  nsvcap_context : option string;
  nsvcap_arch : option string;
  nsvcap_profile : option string;
}.

Record Package := {
  pkg_name : string;
  pkg_nevra : string;
  pkg_installed : bool;
}.

(** The sack is the list of the packages it knows. *)
Definition Sack := list Package.

(** [sack.query().filterm(nevra_strict=artefacts).apply()] *)
Definition query_nevra_strict (sack : Sack) (artefacts : list string) : list Package :=
  List.filter (fun p => bool_decide (pkg_nevra p ∈ artefacts)) sack.

(** [query.filter(name=pkg_name)] *)
Definition query_filter_name (q : list Package) (name : string) : list Package :=
  List.filter (fun p => String.eqb (pkg_name p) name) q.

(** [sack.query().installed().filterm(name=names)] *)
Definition query_installed_names (sack : Sack) (names : list string) : list Package :=
  List.filter (fun p => pkg_installed p && bool_decide (pkg_name p ∈ names)) sack.

Inductive GoalRequest :=
| GoalInstall (select : list Package) (optional : bool)
| RemoveIfUnneeded (query : list Package).

Record Repo := {
  repo_id : string;
  repo_enabled : bool;
  module_hotfixes : bool;
}.

(** [self.base]: what the operations read and change. *)
Record Base := {
  _moduleContainer : ModulePackageContainer.t;
  sack : Sack;
  repos : list Repo;
  group_members : list string;
  requests : list GoalRequest;
}.

Definition with_container (b : Base) (c : ModulePackageContainer.t) : Base :=
  {| _moduleContainer := c; sack := sack b; repos := repos b;
     group_members := group_members b; requests := requests b |}.

Definition with_sack (b : Base) (s : Sack) : Base :=
  {| _moduleContainer := _moduleContainer b; sack := s; repos := repos b;
     group_members := group_members b; requests := requests b |}.

Definition add_group_member (b : Base) (name : string) : Base :=
  {| _moduleContainer := _moduleContainer b; sack := sack b; repos := repos b;
     group_members := list_union (group_members b) [name];
     requests := requests b |}.

Definition add_request (b : Base) (r : GoalRequest) : Base :=
  {| _moduleContainer := _moduleContainer b; sack := sack b; repos := repos b;
     group_members := group_members b; requests := requests b ++ [r] |}.

(** ** Python containers *)

(** [set(xs)]: the distinct elements of [xs]. *)
Definition set_of_list (xs : list string) : list string := remove_dups xs.

(** [d.setdefault(k, init)] followed by an in-place change [f] of the value:
    the entry keeps its place, a new key goes to the end. *)
Fixpoint dict_setdefault_update {V} (k : string) (init : V) (f : V -> V)
    (d : list (string * V)) : list (string * V) :=
  match d with
  | [] => [(k, f init)]
  | (k', v) :: rest =>
      if decide (k' = k) then (k', f v) :: rest
      else (k', v) :: dict_setdefault_update k init f rest
  end.

Definition dict_keys {V} (d : list (string * V)) : list string := d.*1.

(** [del d[k]] *)
Definition dict_del {V} (k : string) (d : list (string * V)) : list (string * V) :=
  filter (fun kv => kv.1 ≠ k) d.

Definition str_le (a b : string) : Prop := String.leb a b = true.

Global Instance str_le_dec : RelDecision str_le.
Proof. intros a b. unfold str_le. apply _. Defined.

(** [sorted(keys)] *)
Definition sorted (keys : list string) : list string := merge_sort str_le keys.

(** [s.add(x)] and [s.update(xs)] on a set. *)
Definition set_add (s : list string) (x : string) : list string :=
  if bool_decide (x ∈ s) then s else s ++ [x].

Definition set_update (s xs : list string) : list string :=
  fold_left set_add xs s.

(** A [for] loop whose body may raise: the state reached so far is kept, the
    exception ends the loop. *)
Fixpoint for_loop {S X} (body : S -> X -> S * option exception)
    (xs : list X) (s : S) : S * option exception :=
  match xs with
  | [] => (s, None)
  | x :: rest =>
      match body s x with
      | (s', None) => for_loop body rest s'
      | (s', Some e) => (s', Some e)
      end
  end.

(** ** RepoModuleDict *)

Abbreviation StreamDict := (list (string * list ModulePackage.t)).
Abbreviation ModuleDict := (list (string * StreamDict)).

(** What [_resolve_specs_enable_update_sack] returns. *)
Record ResolvedSpecs := {
  no_match_specs : list string;
  error_spec : list string;
  module_dicts : list (string * (NSVCAP * ModuleDict));
}.

(** The accumulators of the first loop of [install]. *)
Record InstallAcc := {
  ia_container : ModulePackageContainer.t;
  ia_error_specs : list string;
  ia_install_dict : list (string * list string);
  ia_install_set_artefacts : list string;
}.

Module RepoModuleDict.

Definition use_enabled_stream (repo_module : RepoModule) : option string :=
  if decide (conf_state (conf repo_module) = Some "enabled")
  then conf_stream (conf repo_module)
  else None.

Definition use_default_stream (repo_module : RepoModule) : option string :=
  peek_default_stream (defaults repo_module).

(** The stream [find_module_version] settles on, before its truth test. *)
Definition resolved_stream (repo_module : RepoModule) (stream : option string)
  : option string :=
  first_not_none [stream;
                  use_enabled_stream repo_module;
                  use_default_stream repo_module].

(** The body of the [try] block of [find_module_version]. *)
Definition find_module_version_try (self : gmap string RepoModule)
    (name : string) (stream : option string) (version : option Z)
  : result RepoModuleVersion :=
  repo_module <-- getitem self name ;;
  let stream := resolved_stream repo_module stream in
  if negb (str_truthy stream) then Raise (NoStreamSpecifiedException name)
  else
    repo_module_stream <-- getitem (streams repo_module) (default "" stream) ;;
    if int_truthy version
    then stream_getitem repo_module_stream (default 0 version)
    else Ok (latest repo_module_stream).

(** [find_module_version]: [except KeyError: return None]; any other
    exception propagates. [context] and [arch] are accepted and unused. *)
Definition find_module_version (self : gmap string RepoModule)
    (name : string) (stream : option string) (version : option Z)
    (context arch : option string)
  : result (option RepoModuleVersion) :=
  match find_module_version_try self name stream version with
  | Ok repo_module_version => Ok (Some repo_module_version)
  | Raise KeyError => Ok None
  | Raise e => Raise e
  end.


Section Operations.

Import ModulePackageContainer.

(** [hawkey.Subject(spec).nsvcap_possibilities()]: the parser of module specs
    is hawkey's. *)
Variable nsvcap_possibilities : string -> list NSVCAP.

(** [sack.filter_modules(container, hot_fix_repos, installroot, platform,
    update_only)]: the re-filtering is libdnf's. From the sack and the
    container as they are it gives the re-filtered sack and the ids of the
    versions that are active from then on; the last argument tells the two
    call sites apart. *)
Variable filter_modules :
  Sack -> ModulePackageContainer.t -> list string -> bool -> Sack * list nat.

(** The query of one pass of the loop of [_get_modules]. *)
Definition _get_modules_query (c : ModulePackageContainer.t) (nsvcap : NSVCAP)
  : list ModulePackage.t :=
  let name := default "" (nsvcap_name nsvcap) in
  let stream := default "" (nsvcap_stream nsvcap) in
  let context := default "" (nsvcap_context nsvcap) in
  let arch := default "" (nsvcap_arch nsvcap) in
  let version :=
    if int_truthy (nsvcap_version nsvcap)
       && negb (default 0 (nsvcap_version nsvcap) =? -1)
    then pretty (default 0 (nsvcap_version nsvcap))
    else "" in
  query c name stream version context arch.

Fixpoint _get_modules_loop (c : ModulePackageContainer.t)
    (possibilities : list NSVCAP) : option (list ModulePackage.t * NSVCAP) :=
  match possibilities with
  | [] => None
  | nsvcap :: rest =>
      match _get_modules_query c nsvcap with
      | [] => _get_modules_loop c rest
      | modules => Some (modules, nsvcap)
      end
  end.

(** [_get_modules]: [Some (modules, nsvcap)] with [modules] not empty, or
    [None] for the source's [((), None)]. *)
Definition _get_modules (c : ModulePackageContainer.t) (module_spec : string)
  : option (list ModulePackage.t * NSVCAP) :=
  _get_modules_loop c (nsvcap_possibilities module_spec).

Definition _get_latest (module_list : list ModulePackage.t)
  : option ModulePackage.t :=
  match module_list with
  | [] => None
  | first :: rest =>
      Some (fold_left
              (fun latest module =>
                 if ModulePackage.getVersion latest <? ModulePackage.getVersion module
                 then module else latest)
              rest first)
  end.

(** The first loop of [_create_module_dict_and_enable]. *)
Definition group_modules (module_list : list ModulePackage.t) : ModuleDict :=
  fold_left
    (fun moduleDict module =>
       dict_setdefault_update (ModulePackage.getName module) []
         (dict_setdefault_update (ModulePackage.getStream module) []
            (fun l => l ++ [module]))
         moduleDict)
    module_list [].

(** [self.base._moduleContainer.enable(moduleName, key)] as a step of a loop:
    a failure ends the loop and leaves the container as it is. *)
Definition enable_step (moduleName : string) (c : ModulePackageContainer.t)
    (key : string) : ModulePackageContainer.t * option exception :=
  match ModulePackageContainer.enable c moduleName key with
  | Ok c' => (c', None)
  | Raise e => (c, Some e)
  end.

(** One pass of [for key in sorted(streamDict.keys())]. *)
Definition keep_stream_step (enable : bool) (moduleName stream : string)
    (acc : ModulePackageContainer.t * StreamDict) (key : string)
  : (ModulePackageContainer.t * StreamDict) * option exception :=
  if decide (key = stream)
  then
    if enable
    then ((enable_step moduleName acc.1 key).1, acc.2,
          (enable_step moduleName acc.1 key).2)
    else (acc, None)
  else ((acc.1, dict_del key acc.2), None).

(** The stream the multi-stream branch keeps. *)
Definition winning_stream (c : ModulePackageContainer.t) (moduleName : string)
  : string :=
  if decide (getModuleState c moduleName = STATE_ENABLED)
  then getEnabledStream c moduleName
  else getDefaultStream c moduleName.

(** The body of [for moduleName, streamDict in moduleDict.items()]. *)
Definition resolve_stream_dict (enable : bool) (c : ModulePackageContainer.t)
    (moduleName : string) (streamDict : StreamDict)
  : ModulePackageContainer.t * result StreamDict :=
  let moduleState := getModuleState c moduleName in
  let branch :=
    if (1 <? length streamDict)%nat then
      if bool_decide (moduleState ≠ STATE_DEFAULT)
         && bool_decide (moduleState ≠ STATE_ENABLED)
      then (c, Raise (EnableMultipleStreamsException moduleName))
      else
        let stream := winning_stream c moduleName in
        if bool_decide (stream ∉ dict_keys streamDict)
        then (c, Raise (EnableMultipleStreamsException moduleName))
        else
          match for_loop (keep_stream_step enable moduleName stream)
                         (sorted (dict_keys streamDict)) (c, streamDict) with
          | (r, None) => (r.1, Ok r.2)
          | (r, Some e) => (r.1, Raise e)
          end
    else if enable then
      match for_loop (enable_step moduleName) (dict_keys streamDict) c with
      | (c, None) => (c, Ok streamDict)
      | (c, Some e) => (c, Raise e)
      end
    else (c, Ok streamDict) in
  match branch with
  | (c, Ok streamDict) =>
      if (length streamDict =? 1)%nat then (c, Ok streamDict)
      else (c, Raise AssertionError)
  | (c, Raise e) => (c, Raise e)
  end.

Fixpoint resolve_module_dict (enable : bool) (c : ModulePackageContainer.t)
    (moduleDict : ModuleDict) : ModulePackageContainer.t * result ModuleDict :=
  match moduleDict with
  | [] => (c, Ok [])
  | (moduleName, streamDict) :: rest =>
      match resolve_stream_dict enable c moduleName streamDict with
      | (c, Ok streamDict) =>
          match resolve_module_dict enable c rest with
          | (c, Ok rest) => (c, Ok ((moduleName, streamDict) :: rest))
          | (c, Raise e) => (c, Raise e)
          end
      | (c, Raise e) => (c, Raise e)
      end
  end.

Definition _create_module_dict_and_enable (c : ModulePackageContainer.t)
    (module_list : list ModulePackage.t) (enable : bool)
  : ModulePackageContainer.t * result ModuleDict :=
  resolve_module_dict enable c (group_modules module_list).

(** The body of [for spec in set(module_specs)] in
    [_resolve_specs_enable_update_sack]; [except (RuntimeError,
    EnableMultipleStreamsException)] lets any other exception through. *)
Definition resolve_spec (st : ModulePackageContainer.t * ResolvedSpecs)
    (spec : string)
  : (ModulePackageContainer.t * ResolvedSpecs) * option exception :=
  let rs := st.2 in
  match _get_modules st.1 spec with
  | None =>
      ((st.1, {| no_match_specs := no_match_specs rs ++ [spec];
                 error_spec := error_spec rs;
                 module_dicts := module_dicts rs |}), None)
  | Some (module_list, nsvcap) =>
      match _create_module_dict_and_enable st.1 module_list true with
      | (c, Ok module_dict) =>
          ((c, {| no_match_specs := no_match_specs rs;
                  error_spec := error_spec rs;
                  module_dicts :=
                    dict_setdefault_update spec (nsvcap, module_dict)
                      (fun _ => (nsvcap, module_dict)) (module_dicts rs) |}),
           None)
      | (c, Raise (EnableMultipleStreamsException _)) =>
          ((c, {| no_match_specs := no_match_specs rs;
                  error_spec := error_spec rs ++ [spec];
                  module_dicts := module_dicts rs |}), None)
      | (c, Raise e) => ((c, rs), Some e)
      end
  end.

Definition hot_fix_repos (b : Base) : list string :=
  map repo_id (List.filter (fun i => repo_enabled i && module_hotfixes i) (repos b)).

(** The call of [self.base.sack.filter_modules] on the container of the
    base: the sack is replaced and the container gets its new view of the
    active versions. *)
Definition call_filter_modules (b : Base) (update_only : bool) : Base :=
  let r := filter_modules (sack b) (_moduleContainer b) (hot_fix_repos b)
                          update_only in
  with_sack (with_container b (set_active (_moduleContainer b) r.2)) r.1.

Definition _resolve_specs_enable_update_sack (b : Base)
    (module_specs : list string) : Base * result ResolvedSpecs :=
  match for_loop resolve_spec (set_of_list module_specs)
          (_moduleContainer b,
           {| no_match_specs := []; error_spec := []; module_dicts := [] |}) with
  | ((c, rs), None) => (call_filter_modules (with_container b c) false, Ok rs)
  | ((c, _), Some e) => (with_container b c, Raise e)
  end.

(** [enable]: the loop over [module_dicts] only logs. *)
Definition enable (b : Base) (module_specs : list string) : Base * result unit :=
  match _resolve_specs_enable_update_sack b module_specs with
  | (b, Ok rs) =>
      match no_match_specs rs with
      | [] => (b, Ok tt)
      | _ => (b, Raise (ModuleMarkingError (no_match_specs rs) []))
      end
  | (b, Raise e) => (b, Raise e)
  end.

(** The body of [for spec in set(module_specs)] in
    [_modules_reset_or_disable]. *)
Definition reset_or_disable_spec (to_state : ModuleState)
    (st : ModulePackageContainer.t * list string) (spec : string)
  : ModulePackageContainer.t * list string :=
  match _get_modules st.1 spec with
  | None => (st.1, st.2 ++ [spec])
  | Some (module_list, nsvcap) =>
      let module_names := set_of_list (map ModulePackage.getName module_list) in
      (fold_left
         (fun c name =>
            let c := if decide (to_state = STATE_UNKNOWN)
                     then ModulePackageContainer.reset c name else c in
            if decide (to_state = STATE_DISABLED)
            then ModulePackageContainer.disable c name else c)
         module_names st.1,
       st.2)
  end.

Definition _modules_reset_or_disable (b : Base) (module_specs : list string)
    (to_state : ModuleState) : Base * list string :=
  let r := fold_left (reset_or_disable_spec to_state)
                     (set_of_list module_specs) (_moduleContainer b, []) in
  (call_filter_modules (with_container b r.1) true, r.2).

Definition disable (b : Base) (module_specs : list string) : Base * result unit :=
  let r := _modules_reset_or_disable b module_specs STATE_DISABLED in
  match r.2 with
  | [] => (r.1, Ok tt)
  | no_match_specs => (r.1, Raise (ModuleMarkingError no_match_specs []))
  end.

Definition reset (b : Base) (module_specs : list string) : Base * result unit :=
  let r := _modules_reset_or_disable b module_specs STATE_UNKNOWN in
  (r.1, Ok tt).

(** The loop [for profile in profiles] of [install], then the loop that
    collects the artefacts. *)
Definition install_profiles (spec : string) (latest_module : ModulePackage.t)
    (install_module_list : list ModulePackage.t)
    (profiles : list ModuleProfile.t) (acc : InstallAcc) : InstallAcc :=
  let acc :=
    fold_left
      (fun acc profile =>
         {| ia_container :=
              ModulePackageContainer.install (ia_container acc) latest_module
                (ModuleProfile.getName profile);
            ia_error_specs := ia_error_specs acc;
            ia_install_dict :=
              fold_left
                (fun install_dict pkg_name =>
                   dict_setdefault_update pkg_name [] (fun s => set_add s spec)
                     install_dict)
                (ModuleProfile.getContent profile) (ia_install_dict acc);
            ia_install_set_artefacts := ia_install_set_artefacts acc |})
      profiles acc in
  {| ia_container := ia_container acc;
     ia_error_specs := ia_error_specs acc;
     ia_install_dict := ia_install_dict acc;
     ia_install_set_artefacts :=
       fold_left (fun s module => set_update s (ModulePackage.getArtifacts module))
                 install_module_list (ia_install_set_artefacts acc) |}.

Definition append_error_spec (acc : InstallAcc) (spec : string) : InstallAcc :=
  {| ia_container := ia_container acc;
     ia_error_specs := ia_error_specs acc ++ [spec];
     ia_install_dict := ia_install_dict acc;
     ia_install_set_artefacts := ia_install_set_artefacts acc |}.

Definition with_ia_container (acc : InstallAcc) (c : ModulePackageContainer.t)
  : InstallAcc :=
  {| ia_container := c;
     ia_error_specs := ia_error_specs acc;
     ia_install_dict := ia_install_dict acc;
     ia_install_set_artefacts := ia_install_set_artefacts acc |}.

(** One pass of [for profile in set(profiles_strings)] in [install].
    [fallback] is the test [profiles_strings == ['default']]: the container
    hands out the declared default profiles as a set ([getDefaultProfiles(name,
    stream) -> set<string>]), which is never equal to a list, so the test
    holds exactly when [profiles_strings] is the list the code has put in
    their place. *)
Definition default_profile_step (latest_module : ModulePackage.t)
    (fallback : bool)
    (st : ModulePackageContainer.t * list ModuleProfile.t) (profile : string)
  : ModulePackageContainer.t * list ModuleProfile.t :=
  let module_profiles := ModulePackage.getProfiles latest_module profile in
  let c :=
    match module_profiles with
    | [] =>
        if fallback
        then ModulePackageContainer.install st.1 latest_module "default"
        else st.1
    | _ => st.1
    end in
  (c, st.2 ++ module_profiles).

(** The body of [for stream, module_list in streamdict.items()] in
    [install]. *)
Definition install_stream (spec : string) (nsvcap : NSVCAP) (name : string)
    (acc : InstallAcc) (entry : string * list ModulePackage.t)
  : InstallAcc * option exception :=
  let stream := entry.1 in
  let install_module_list :=
    List.filter (fun x => isModuleActive (ia_container acc) (ModulePackage.getId x))
                entry.2 in
  match install_module_list with
  | [] => (append_error_spec acc spec, None)
  | _ =>
      match _get_latest install_module_list with
      | None => (acc, Some AttributeError)
      | Some latest_module =>
          if str_truthy (nsvcap_profile nsvcap) then
            match ModulePackage.getProfiles latest_module
                    (default "" (nsvcap_profile nsvcap)) with
            | [] => (append_error_spec acc spec, None)
            | profiles =>
                (install_profiles spec latest_module install_module_list profiles acc,
                 None)
            end
          else
            let declared := getDefaultProfiles (ia_container acc) name stream in
            let fallback := match declared with [] => true | _ => false end in
            let profiles_strings := if fallback then ["default"] else declared in
            let r := fold_left (default_profile_step latest_module fallback)
                               (set_of_list profiles_strings)
                               (ia_container acc, []) in
            (install_profiles spec latest_module install_module_list r.2
               (with_ia_container acc r.1),
             None)
      end
  end.

(** The body of [for spec, (nsvcap, moduledict) in module_dicts.items()]. *)
Definition install_spec (acc : InstallAcc)
    (entry : string * (NSVCAP * ModuleDict)) : InstallAcc * option exception :=
  for_loop
    (fun acc (name_streamdict : string * StreamDict) =>
       for_loop (install_stream entry.1 entry.2.1 name_streamdict.1)
                name_streamdict.2 acc)
    entry.2.2 acc.

(** The body of [for pkg_name, set_specs in install_dict.items()]. *)
Definition install_package (strict : bool) (install_base_query : list Package)
    (st : Base * list string) (entry : string * list string)
  : Base * list string :=
  match query_filter_name install_base_query entry.1 with
  | [] => (st.1, st.2 ++ entry.2)
  | query =>
      (add_request (add_group_member st.1 entry.1) (GoalInstall query (negb strict)),
       st.2)
  end.

Definition install (b : Base) (module_specs : list string) (strict : bool)
  : Base * result unit :=
  match _resolve_specs_enable_update_sack b module_specs with
  | (b, Raise e) => (b, Raise e)
  | (b, Ok rs) =>
      match for_loop install_spec (module_dicts rs)
              {| ia_container := _moduleContainer b;
                 ia_error_specs := error_spec rs;
                 ia_install_dict := [];
                 ia_install_set_artefacts := [] |} with
      | (acc, Some e) => (with_container b (ia_container acc), Raise e)
      | (acc, None) =>
          let b := with_container b (ia_container acc) in
          let install_base_query :=
            query_nevra_strict (sack b) (ia_install_set_artefacts acc) in
          let r := fold_left (install_package strict install_base_query)
                             (ia_install_dict acc) (b, ia_error_specs acc) in
          match no_match_specs rs, r.2 with
          | [], [] => (r.1, Ok tt)
          | _, _ => (r.1, Raise (ModuleMarkingError (no_match_specs rs) r.2))
          end
      end
  end.

(** One pass of [for profile in profiles_set] in
    [_get_package_name_set_and_remove_profiles]. *)
Definition remove_requested_profile_step (remove : bool)
    (latest_module : ModulePackage.t) (installed_profiles_strings : list string)
    (st : ModulePackageContainer.t * list string) (profile : ModuleProfile.t)
  : ModulePackageContainer.t * list string :=
  if bool_decide (ModuleProfile.getName profile ∈ installed_profiles_strings)
  then ((if remove
         then ModulePackageContainer.uninstall st.1 latest_module
                (ModuleProfile.getName profile)
         else st.1),
        set_update st.2 (ModuleProfile.getContent profile))
  else st.

(** One pass of [for profile_string in installed_profiles_strings]. *)
Definition remove_installed_profile_step (remove : bool)
    (latest_module : ModulePackage.t)
    (st : ModulePackageContainer.t * list string) (profile_string : string)
  : ModulePackageContainer.t * list string :=
  ((if remove
    then ModulePackageContainer.uninstall st.1 latest_module profile_string
    else st.1),
   fold_left (fun s profile => set_update s (ModuleProfile.getContent profile))
             (ModulePackage.getProfiles latest_module profile_string) st.2).

Definition _get_package_name_set_and_remove_profiles
    (c : ModulePackageContainer.t) (module_list : list ModulePackage.t)
    (nsvcap : NSVCAP) (remove : bool)
  : ModulePackageContainer.t * result (list string) :=
  match _get_latest module_list with
  | None => (c, Raise AttributeError)
  | Some latest_module =>
      let installed_profiles_strings :=
        set_of_list (getInstalledProfiles c (ModulePackage.getName latest_module)) in
      match installed_profiles_strings with
      | [] => (c, Ok [])
      | _ =>
          if str_truthy (nsvcap_profile nsvcap) then
            match ModulePackage.getProfiles latest_module
                    (default "" (nsvcap_profile nsvcap)) with
            | [] => (c, Ok [])
            | profiles_set =>
                let r := fold_left
                           (remove_requested_profile_step remove latest_module
                              installed_profiles_strings)
                           profiles_set (c, []) in
                (r.1, Ok r.2)
            end
          else
            let r := fold_left (remove_installed_profile_step remove latest_module)
                               installed_profiles_strings (c, []) in
            (r.1, Ok r.2)
      end
  end.

(** The two inner loops of [remove]: [remove_packages_names] is a list that
    is extended by each stream group. *)
Definition remove_stream (nsvcap : NSVCAP)
    (st : ModulePackageContainer.t * list string)
    (entry : string * list ModulePackage.t)
  : (ModulePackageContainer.t * list string) * option exception :=
  match _get_package_name_set_and_remove_profiles st.1 entry.2 nsvcap true with
  | (c, Ok names) => ((c, st.2 ++ names), None)
  | (c, Raise e) => ((c, st.2), Some e)
  end.

(** The body of [for spec in set(module_specs)] in [remove]; the state is the
    container, [no_match_specs] and [remove_package_set]. *)
Definition remove_spec
    (st : ModulePackageContainer.t * (list string * list string)) (spec : string)
  : (ModulePackageContainer.t * (list string * list string)) * option exception :=
  match _get_modules st.1 spec with
  | None => ((st.1, (st.2.1 ++ [spec], st.2.2)), None)
  | Some (module_list, nsvcap) =>
      match _create_module_dict_and_enable st.1 module_list false with
      | (c, Raise e) => ((c, st.2), Some e)
      | (c, Ok module_dict) =>
          match for_loop
                  (fun st (name_streamdict : string * StreamDict) =>
                     for_loop (remove_stream nsvcap) name_streamdict.2 st)
                  module_dict (c, []) with
          | ((c, _), Some e) => ((c, st.2), Some e)
          | ((c, remove_packages_names), None) =>
              ((c, (st.2.1, set_update st.2.2 remove_packages_names)), None)
          end
      end
  end.

(** [remove]: [remove_package_set.difference(keep_pkg_names)] builds a new
    set and its value is dropped; [remove_package_set] itself goes on to the
    query. *)
Definition remove (b : Base) (module_specs : list string)
  : Base * result (list string) :=
  match for_loop remove_spec (set_of_list module_specs)
          (_moduleContainer b, ([], [])) with
  | ((c, _), Some e) => (with_container b c, Raise e)
  | ((c, (no_match_specs, remove_package_set)), None) =>
      let b := with_container b c in
      let b :=
        match remove_package_set with
        | [] => b
        | _ =>
            let keep_pkg_names := getInstalledPkgNames (_moduleContainer b) in
            let _ := list_difference remove_package_set keep_pkg_names in
            match remove_package_set with
            | [] => b
            | _ =>
                match query_installed_names (sack b) remove_package_set with
                | [] => b
                | query => add_request b (RemoveIfUnneeded query)
                end
            end
        end in
      (b, Ok no_match_specs)
  end.

(** One pass of the second [for profile in profiles_set] of [upgrade]. *)
Definition upgrade_requested_profile_step (installed_profiles_strings : list string)
    (upgrade_package_set : list string) (profile : ModuleProfile.t) : list string :=
  if bool_decide (ModuleProfile.getName profile ∈ installed_profiles_strings)
  then set_update upgrade_package_set (ModuleProfile.getContent profile)
  else upgrade_package_set.

(** One pass of the second [for profile_string in installed_profiles_strings]
    of [upgrade]. *)
Definition upgrade_installed_profile_step (latest_module : ModulePackage.t)
    (upgrade_package_set : list string) (profile_string : string) : list string :=
  fold_left (fun s profile => set_update s (ModuleProfile.getContent profile))
            (ModulePackage.getProfiles latest_module profile_string)
            upgrade_package_set.

(** The body of [for stream, module_list_from_dict in streamdict.items()] in
    [upgrade]: the call of the helper, then the same union written out once
    more. The state is the container and [upgrade_package_set]. *)
Definition upgrade_stream (nsvcap : NSVCAP)
    (st : ModulePackageContainer.t * list string)
    (entry : string * list ModulePackage.t)
  : (ModulePackageContainer.t * list string) * option exception :=
  match _get_package_name_set_and_remove_profiles st.1 entry.2 nsvcap false with
  | (c, Raise e) => ((c, st.2), Some e)
  | (c, Ok names) =>
      let upgrade_package_set := set_update st.2 names in
      match _get_latest entry.2 with
      | None => ((c, upgrade_package_set), Some AttributeError)
      | Some latest_module =>
          let installed_profiles_strings :=
            set_of_list (getInstalledProfiles c (ModulePackage.getName latest_module)) in
          match installed_profiles_strings with
          | [] => ((c, upgrade_package_set), None)
          | _ =>
              if str_truthy (nsvcap_profile nsvcap) then
                match ModulePackage.getProfiles latest_module
                        (default "" (nsvcap_profile nsvcap)) with
                | [] => ((c, upgrade_package_set), None)
                | profiles_set =>
                    ((c, fold_left
                           (upgrade_requested_profile_step installed_profiles_strings)
                           profiles_set upgrade_package_set), None)
                end
              else
                ((c, fold_left (upgrade_installed_profile_step latest_module)
                               installed_profiles_strings upgrade_package_set), None)
          end
      end
  end.

(** [sack.query().available().filterm(name=names)] *)
Definition query_available_names (sack : Sack) (names : list string) : list Package :=
  List.filter (fun p => negb (pkg_installed p) && bool_decide (pkg_name p ∈ names)) sack.

(** The body of [for spec in set(module_specs)] in [upgrade]; the state is
    the container, [no_match_specs] and the selections handed to
    [goal.upgrade], in order. *)
Definition upgrade_spec (sack : Sack)
    (st : ModulePackageContainer.t * (list string * list (list Package)))
    (spec : string)
  : (ModulePackageContainer.t * (list string * list (list Package)))
    * option exception :=
  match _get_modules st.1 spec with
  | None => ((st.1, (st.2.1 ++ [spec], st.2.2)), None)
  | Some (module_list, nsvcap) =>
      match List.filter (fun x => isModuleActive st.1 (ModulePackage.getId x))
                        module_list with
      | [] => (st, None)
      | update_module_list =>
          match _create_module_dict_and_enable st.1 update_module_list false with
          | (c, Raise e) => ((c, st.2), Some e)
          | (c, Ok module_dict) =>
              match for_loop
                      (fun st (name_streamdict : string * StreamDict) =>
                         for_loop (upgrade_stream nsvcap) name_streamdict.2 st)
                      module_dict (c, []) with
              | ((c, _), Some e) => ((c, st.2), Some e)
              | ((c, upgrade_package_set), None) =>
                  match query_available_names sack upgrade_package_set with
                  | [] => ((c, st.2), None)
                  | query => ((c, (st.2.1, st.2.2 ++ [query])), None)
                  end
              end
          end
      end
  end.

(** [upgrade]: the base, the selections handed to [goal.upgrade] and the
    returned [no_match_specs]. *)
Definition upgrade (b : Base) (module_specs : list string)
  : (Base * list (list Package)) * result (list string) :=
  match for_loop (upgrade_spec (sack b)) (set_of_list module_specs)
          (_moduleContainer b, ([], [])) with
  | ((c, (_, upgrades)), Some e) => ((with_container b c, upgrades), Raise e)
  | ((c, (no_match_specs, upgrades)), None) =>
      ((with_container b c, upgrades), Ok no_match_specs)
  end.

End Operations.

(** ** The modules directory *)

(** [s.lstrip("/")] *)
Fixpoint lstrip_slash (s : string) : string :=
  match s with
  | String c rest => if Ascii.eqb c "/"%char then lstrip_slash rest else s
  | EmptyString => s
  end.

(** [s.startswith("/")] and [s.endswith("/")] *)
Definition startswith_slash (s : string) : bool :=
  match s with
  | String c _ => Ascii.eqb c "/"%char
  | EmptyString => false
  end.

Fixpoint endswith_slash (s : string) : bool :=
  match s with
  | EmptyString => false
  | String c EmptyString => Ascii.eqb c "/"%char
  | String _ rest => endswith_slash rest
  end.

(** [os.path.join(a, b)] of a POSIX system: an absolute [b] replaces [a];
    otherwise [b] is appended, after a separator unless [a] is empty or ends
    with one. *)
Definition os_path_join (a b : string) : string :=
  if startswith_slash b then b
  else if String.eqb a "" || endswith_slash a then String.append a b
  else String.append a (String.append "/" b).

(** [get_modules_dir]: the path it returns, from [base.conf.installroot] and
    [base.conf.modulesdir]; [ensure_dir] creates the directory on the file
    system and does not change the path. *)
Definition get_modules_dir (installroot modulesdir : string) : string :=
  os_path_join installroot (lstrip_slash modulesdir).

End RepoModuleDict.

Import RepoModuleDict.

(** * Vocabulary of the properties and concrete catalogs *)

Definition module_v (name stream : string) (version : Z)
    (profiles : list ModuleProfile.t) (id : nat) : ModulePackage.t :=
  {| ModulePackage.getId := id; ModulePackage.getName := name;
     ModulePackage.getStream := stream; ModulePackage.getVersion := version;
     ModulePackage.getContext := "c0"; ModulePackage.getArch := "x86_64";
     ModulePackage.profiles := profiles;
     ModulePackage.getArtifacts := [] |}.

(** What a lookup in stream [s] of [repo_module] gives: the version asked for,
    or the latest one when [version] is falsy; [None] on a miss. *)
Definition version_from_stream (repo_module : RepoModule) (s : string)
    (version : option Z) : option RepoModuleVersion :=
  match streams repo_module !! s with
  | None => None
  | Some repo_module_stream =>
      if int_truthy version
      then List.find (fun v => rmv_version v =? default 0 version)
                     (stream_values repo_module_stream)
      else Some (latest repo_module_stream)
  end.

(** The precedence as the spec words it: the first candidate that is there
    and is not the empty string. *)
Fixpoint first_non_empty (candidates : list (option string)) : option string :=
  match candidates with
  | [] => None
  | Some s :: rest => if String.eqb s "" then first_non_empty rest else Some s
  | None :: rest => first_non_empty rest
  end.

(** The lookup once the stream [s] is settled on: an empty [s] ends it with
    [NoStreamSpecifiedException]. *)
Definition lookup_in_stream (name : string) (repo_module : RepoModule) (s : string)
    (version : option Z) : result (option RepoModuleVersion) :=
  if decide (s = "") then Raise (NoStreamSpecifiedException name)
  else Ok (version_from_stream repo_module s version).

Definition rmv (stream : string) (version : Z) : RepoModuleVersion :=
  {| rmv_name := "m"; rmv_stream := stream; rmv_version := version |}.

Definition stream_S : RepoModuleStream :=
  {| stream_head := rmv "S" 0; stream_tail := [rmv "S" 5] |}.

(** A module ["m"]: stream ["S"] holds versions 0 and 5, stream ["D"] holds
    version 7. *)
Definition module_m (state stream default_stream : option string) : RepoModule :=
  {| conf := {| conf_state := state; conf_stream := stream;
                conf_profiles := [] |};
     defaults := {| peek_default_stream := default_stream |};
     streams :=
       {[ "S" := stream_S;
          "D" := {| stream_head := rmv "D" 7; stream_tail := [] |} ]} |}.

Definition registry_m (state stream default_stream : option string)
  : gmap string RepoModule :=
  {[ "m" := module_m state stream default_stream ]}.

(** The multi-stream conflict: the persisted state is neither [DEFAULT] nor
    [ENABLED], or the winning stream is not among the matched streams. *)
Definition stream_conflict (c : ModulePackageContainer.t) (moduleName : string)
    (streamDict : StreamDict) : Prop :=
  (ModulePackageContainer.getModuleState c moduleName ≠ STATE_DEFAULT
   ∧ ModulePackageContainer.getModuleState c moduleName ≠ STATE_ENABLED)
  ∨ winning_stream c moduleName ∉ dict_keys streamDict.

(** [c'] differs from [c] at most in what is recorded for names outside
    [names]: their state, their enabled stream and whether they were enabled
    in this pass. *)
Definition agree_on (names : list string) (c c' : ModulePackageContainer.t) : Prop :=
  ModulePackageContainer.default_streams c' = ModulePackageContainer.default_streams c
  ∧ ∀ n, n ∈ names ->
      ModulePackageContainer.states c' !! n = ModulePackageContainer.states c !! n
      ∧ ModulePackageContainer.enabled_streams c' !! n
        = ModulePackageContainer.enabled_streams c !! n
      ∧ (n ∈ ModulePackageContainer.pass_enabled c'
         <-> n ∈ ModulePackageContainer.pass_enabled c).

(** A well-formed stream dict: at least one stream, no stream twice. *)
Definition stream_dict_wf (streamDict : StreamDict) : Prop :=
  streamDict ≠ [] ∧ NoDup (dict_keys streamDict).

(** How a group of the module dict comes out of the loop: one stream group of
    the original ones, the winning one when there were several. *)
Definition resolved_group (c : ModulePackageContainer.t)
    (kv kv' : string * StreamDict) : Prop :=
  kv'.1 = kv.1
  ∧ ∃ stream group,
      kv'.2 = [(stream, group)]
      ∧ (stream, group) ∈ kv.2
      ∧ ((1 < length kv.2)%nat -> stream = winning_stream c kv.1).

(** The loop [for name in module_names] with [to_state == STATE_DISABLED]. *)
Definition disable_names (c : ModulePackageContainer.t) (names : list string)
  : ModulePackageContainer.t :=
  fold_left
    (fun c name =>
       let c := if decide (STATE_DISABLED = STATE_UNKNOWN)
                then ModulePackageContainer.reset c name else c in
       if decide (STATE_DISABLED = STATE_DISABLED)
       then ModulePackageContainer.disable c name else c)
    names c.

(** A parser that reads a spec as a bare module name. *)
Definition name_only (spec : string) : list NSVCAP :=
  [{| nsvcap_name := Some spec; nsvcap_stream := None; nsvcap_version := None;
      nsvcap_context := None; nsvcap_arch := None; nsvcap_profile := None |}].

(** A re-filtering that leaves the sack and the active versions as they
    are. *)
Definition keep_sack (s : Sack) (c : ModulePackageContainer.t) (_ : list string)
    (_ : bool) : Sack * list nat := (s, ModulePackageContainer.active c).

(** A re-filtering that leaves the sack as it is and makes active the
    versions of the stream that is enabled for their module. *)
Definition activate_enabled (s : Sack) (c : ModulePackageContainer.t)
    (_ : list string) (_ : bool) : Sack * list nat :=
  (s,
   map ModulePackage.getId
     (filter (fun m =>
                ModulePackageContainer.getModuleState c (ModulePackage.getName m)
                = STATE_ENABLED
                ∧ ModulePackageContainer.getEnabledStream c (ModulePackage.getName m)
                  = ModulePackage.getStream m)
             (ModulePackageContainer.modules c))).

Definition profile (name : string) (content : list string) : ModuleProfile.t :=
  {| ModuleProfile.getName := name; ModuleProfile.getContent := content |}.

Definition container_of (modules : list ModulePackage.t)
    (states : gmap string ModuleState)
    (default_streams : gmap string string)
    (installed_profiles : gmap string (list string)) : ModulePackageContainer.t :=
  {| ModulePackageContainer.modules := modules;
     ModulePackageContainer.active := map ModulePackage.getId modules;
     ModulePackageContainer.states := states;
     ModulePackageContainer.enabled_streams := ∅;
     ModulePackageContainer.default_streams := default_streams;
     ModulePackageContainer.default_profiles := ∅;
     ModulePackageContainer.installed_profiles := installed_profiles;
     ModulePackageContainer.pass_enabled := [] |}.

Definition base_of (c : ModulePackageContainer.t) (s : Sack) : Base :=
  {| _moduleContainer := c; sack := s; repos := []; group_members := [];
     requests := [] |}.

Definition installed_pkg (name : string) : Package :=
  {| pkg_name := name; pkg_nevra := name ++ "-1-1.x86_64"; pkg_installed := true |}.

(** Two installed modules that share the package ["npm"]. *)
Definition base_shared : Base :=
  base_of
    (container_of
       [module_v "nodejs" "10" 1 [profile "default" ["nodejs"; "npm"]] 0;
        module_v "tools" "1" 1 [profile "default" ["npm"]] 1]
       ∅ ∅
       {[ "nodejs" := ["default"]; "tools" := ["default"] ]})
    [installed_pkg "nodejs"; installed_pkg "npm"].

(** Module ["m"] with versions in streams ["a"] and ["b"], in the given state
    and with the given default streams. *)
Definition base_two_streams (state : ModuleState) (default_streams : gmap string string)
  : Base :=
  base_of
    (container_of
       [module_v "m" "a" 1 [profile "default" ["pa"]] 0;
        module_v "m" "b" 1 [profile "default" ["pb"]] 1]
       {[ "m" := state ]} default_streams ∅)
    [].

(** [c'] has the catalog data of [c] and at least its install markers. *)
Definition grows (c c' : ModulePackageContainer.t) : Prop :=
  ModulePackageContainer.active c' = ModulePackageContainer.active c
  ∧ ModulePackageContainer.default_profiles c'
    = ModulePackageContainer.default_profiles c
  ∧ ∀ n p, p ∈ ModulePackageContainer.getInstalledProfiles c n ->
           p ∈ ModulePackageContainer.getInstalledProfiles c' n.

(** [grows] on a state that holds the container. *)
Definition grows_on {A} (container : A -> ModulePackageContainer.t) (a a' : A) : Prop :=
  grows (container a) (container a').

Definition m_s_1 : ModulePackage.t :=
  module_v "m" "s" 1 [profile "minimal" ["pkg-min"]] 0.

Definition m_s_2 : ModulePackage.t :=
  module_v "m" "s" 2 [profile "minimal" ["pkg-min"]; profile "server" ["pkg-srv"]] 1.

(** Module ["m"] with one stream, no declared default profiles and no profile
    called ["default"]; profile ["minimal"] is installed. *)
Definition base_one_stream : Base :=
  base_of (container_of [m_s_1; m_s_2] ∅ ∅ {[ "m" := ["minimal"] ]}) [].

Definition nsvcap_m_server : NSVCAP :=
  {| nsvcap_name := Some "m"; nsvcap_stream := None; nsvcap_version := None;
     nsvcap_context := None; nsvcap_arch := None; nsvcap_profile := Some "server" |}.

Definition m_a : ModulePackage.t := module_v "m" "a" 1 [profile "default" ["pa"]] 0.

Definition m_b : ModulePackage.t := module_v "m" "b" 1 [profile "default" ["pb"]] 1.

(** Whether a spec matches anything in the catalog. *)
Definition matches_catalog (np : string -> list NSVCAP)
    (c : ModulePackageContainer.t) (spec : string) : bool :=
  match _get_modules np c spec with
  | Some _ => true
  | None => false
  end.

(** The names of the modules that the specs match. *)
Definition matched_names (np : string -> list NSVCAP)
    (c : ModulePackageContainer.t) (specs : list string) : list string :=
  specs ≫= fun spec =>
    match _get_modules np c spec with
    | Some (module_list, _) => map ModulePackage.getName module_list
    | None => []
    end.

(** A relation between containers, on a state that holds one. *)
Definition on_container {A} (R : relation ModulePackageContainer.t)
    (container : A -> ModulePackageContainer.t) : relation A :=
  fun a a' => R (container a) (container a').

(** [c'] has field [f] as [c] has it. *)
Definition keeps {A} (f : ModulePackageContainer.t -> A)
  : relation ModulePackageContainer.t :=
  fun c c' => f c' = f c.

(** A name that is enabled in [c] by a call of this pass is so in [c'], on
    the same stream. *)
Definition enabled_kept : relation ModulePackageContainer.t :=
  fun c c' =>
    ∀ n, n ∈ ModulePackageContainer.pass_enabled c ->
         ModulePackageContainer.getModuleState c n = STATE_ENABLED ->
         n ∈ ModulePackageContainer.pass_enabled c'
         ∧ ModulePackageContainer.getModuleState c' n = STATE_ENABLED
         ∧ ModulePackageContainer.getEnabledStream c' n
           = ModulePackageContainer.getEnabledStream c n.

(** [c'] has the catalog of [c] and keeps enabled what [c] has enabled. *)
Definition catalog_and_enabled_kept : relation ModulePackageContainer.t :=
  fun c c' => keeps ModulePackageContainer.modules c c' ∧ enabled_kept c c'.

(** The loop [for name in module_names] of [_modules_reset_or_disable]. *)
Definition reset_or_disable_names (to_state : ModuleState)
    (c : ModulePackageContainer.t) (names : list string) : ModulePackageContainer.t :=
  fold_left
    (fun c name =>
       let c := if decide (to_state = STATE_UNKNOWN)
                then ModulePackageContainer.reset c name else c in
       if decide (to_state = STATE_DISABLED)
       then ModulePackageContainer.disable c name else c)
    names c.

(** What [upgrade] hands to [goal.upgrade]: selections that are not empty,
    of packages of the sack that are not installed. *)
Definition upgrade_selections_ok (sack : Sack) (upgrades : list (list Package)) : Prop :=
  Forall (fun query =>
            query ≠ [] ∧ Forall (fun p => pkg_installed p = false ∧ p ∈ sack) query)
         upgrades.

(** From [a] to [a'] the container grows and no error spec is dropped. *)
Definition install_acc_le (a a' : InstallAcc) : Prop :=
  grows (ia_container a) (ia_container a')
  ∧ ∀ s, s ∈ ia_error_specs a -> s ∈ ia_error_specs a'.

(** [m] is a version of the catalog that one of the specs matches. *)
Definition matched_module (np : string -> list NSVCAP)
    (c : ModulePackageContainer.t) (specs : list string) (m : ModulePackage.t)
  : Prop :=
  m ∈ ModulePackageContainer.modules c
  ∧ ∃ spec module_list nsvcap,
      spec ∈ specs
      ∧ _get_modules np c spec = Some (module_list, nsvcap)
      ∧ m ∈ module_list.

(** A parser that reads a spec as a module name and asks for profile [p]. *)
Definition name_with_profile (p : string) (spec : string) : list NSVCAP :=
  [{| nsvcap_name := Some spec; nsvcap_stream := None; nsvcap_version := None;
      nsvcap_context := None; nsvcap_arch := None; nsvcap_profile := Some p |}].

Definition nsvcap_m : NSVCAP :=
  {| nsvcap_name := Some "m"; nsvcap_stream := None; nsvcap_version := None;
     nsvcap_context := None; nsvcap_arch := None; nsvcap_profile := None |}.

(** The base with no version active yet. *)
Definition inactive (b : Base) : Base :=
  with_container b (ModulePackageContainer.set_active (_moduleContainer b) []).

(** A parser that reads a spec as a stream name, of whatever module. *)
Definition by_stream (spec : string) : list NSVCAP :=
  [{| nsvcap_name := None; nsvcap_stream := Some spec; nsvcap_version := None;
      nsvcap_context := None; nsvcap_arch := None; nsvcap_profile := None |}].

Definition t_b : ModulePackage.t := module_v "t" "b" 1 [profile "default" ["pt"]] 2.

(** A parser that reads a spec as a stream of module ["m"]. *)
Definition stream_of_m (spec : string) : list NSVCAP :=
  [{| nsvcap_name := Some "m"; nsvcap_stream := Some spec; nsvcap_version := None;
      nsvcap_context := None; nsvcap_arch := None; nsvcap_profile := None |}].

(** Module ["m"] with streams ["a"] and ["b"] and module ["t"] with stream
    ["b"], nothing enabled. *)
Definition base_m_t : Base := base_of (container_of [m_a; m_b; t_b] ∅ ∅ ∅) [].

(** * Properties *)

(** ** [_get_latest] *)

Lemma latest_fold_spec (rest : list ModulePackage.t) (first : ModulePackage.t) :
  let r := fold_left
             (fun latest module =>
                if ModulePackage.getVersion latest <? ModulePackage.getVersion module
                then module else latest)
             rest first in
  r ∈ first :: rest
  ∧ ModulePackage.getVersion first ≤ ModulePackage.getVersion r
  ∧ Forall (fun m => ModulePackage.getVersion m ≤ ModulePackage.getVersion r) rest.
Proof.
  revert first. induction rest as [|m rest IH]; intros first; simpl.
  - split; [left | split; [lia | constructor]].
  - destruct (Z.ltb_spec (ModulePackage.getVersion first) (ModulePackage.getVersion m))
      as [Hlt | Hge].
    + destruct (IH m) as (Hin & Hle & Hall). split; [|split].
      * right. exact Hin.
      * lia.
      * constructor; [exact Hle | exact Hall].
    + destruct (IH first) as (Hin & Hle & Hall). split; [|split].
      * apply elem_of_cons in Hin as [-> | Hin]; [left | right; right; exact Hin].
      * exact Hle.
      * constructor; [lia | exact Hall].
Qed.

Lemma _get_latest_None (l : list ModulePackage.t) :
  _get_latest l = None <-> l = [].
Proof. destruct l; simpl; split; congruence. Qed.

Lemma _get_latest_elem (l : list ModulePackage.t) (m : ModulePackage.t) :
  _get_latest l = Some m -> m ∈ l.
Proof.
  destruct l as [|first rest]; simpl; [congruence|].
  intros [= <-]. apply (latest_fold_spec rest first).
Qed.

(** C9: on a non-empty list [_get_latest] returns an element of the list whose
    version is the greatest version in the list; on the empty list it returns
    [None]. *)
Theorem _get_latest_max :
  _get_latest [] = None
  ∧ ∀ (first : ModulePackage.t) (rest : list ModulePackage.t),
      ∃ latest_module,
        _get_latest (first :: rest) = Some latest_module
        ∧ latest_module ∈ first :: rest
        ∧ Forall (fun m => ModulePackage.getVersion m
                           ≤ ModulePackage.getVersion latest_module)
                 (first :: rest).
Proof.
  split; [reflexivity|]. intros first rest.
  destruct (latest_fold_spec rest first) as (Hin & Hle & Hall).
  eexists. split; [reflexivity|]. split; [exact Hin|].
  constructor; [exact Hle | exact Hall].
Qed.

Example _get_latest_1_3_2 :
  ModulePackage.getVersion
    <$> _get_latest [module_v "m" "s" 1 [] 0; module_v "m" "s" 3 [] 1;
                     module_v "m" "s" 2 [] 2]
  = Some 3.
Proof. reflexivity. Qed.

(** ** [find_module_version] *)

Lemma str_truthy_Some (s : string) : s ≠ "" -> str_truthy (Some s) = true.
Proof.
  intros Hs. simpl. destruct (String.eqb_spec s ""); [contradiction | reflexivity].
Qed.

Lemma find_module_version_known self name m stream version context arch s :
  self !! name = Some m ->
  resolved_stream m stream = Some s ->
  s ≠ "" ->
  find_module_version self name stream version context arch
  = Ok (version_from_stream m s version).
Proof.
  intros Hm Hs Hne.
  unfold find_module_version, find_module_version_try, getitem, version_from_stream.
  rewrite Hm. cbn [rbind]. rewrite Hs, (str_truthy_Some s Hne).
  cbn [negb from_option id]. destruct (streams m !! s) as [st|]; cbn [rbind]; [|reflexivity].
  destruct (int_truthy version); [|reflexivity].
  unfold stream_getitem. destruct (List.find _ _); reflexivity.
Qed.

Lemma find_module_version_no_stream self name m stream version context arch :
  self !! name = Some m ->
  str_truthy (resolved_stream m stream) = false ->
  find_module_version self name stream version context arch
  = Raise (NoStreamSpecifiedException name).
Proof.
  intros Hm Hs.
  unfold find_module_version, find_module_version_try, getitem.
  rewrite Hm. cbn [rbind]. rewrite Hs. reflexivity.
Qed.

Lemma find_module_version_unknown self name stream version context arch :
  self !! name = None ->
  find_module_version self name stream version context arch = Ok None.
Proof.
  intros Hm. unfold find_module_version, find_module_version_try, getitem.
  rewrite Hm. reflexivity.
Qed.

(** C3, as stated, fails: a known module for which no stream can be resolved
    makes [find_module_version] raise [NoStreamSpecifiedException] instead of
    returning [None]. *)
Lemma find_module_version_miss_raises :
  find_module_version (registry_m None None None) "m" None None None None
  = Raise (NoStreamSpecifiedException "m")
  ∧ find_module_version (registry_m None None None) "m" None None None None
    ≠ Ok None.
Proof. split; [vm_compute; reflexivity | vm_compute; discriminate]. Qed.

(** C3, amended: [find_module_version] returns [None] when the module name is
    unknown, when the resolved stream is not a stream of the module and when
    the version asked for is not in the resolved stream; when no stream can be
    resolved it raises [NoStreamSpecifiedException], and it raises nothing
    else. *)
Theorem find_module_version_misses self name stream version context arch :
  (self !! name = None ->
   find_module_version self name stream version context arch = Ok None)
  ∧ (∀ m s, self !! name = Some m -> resolved_stream m stream = Some s ->
       s ≠ "" -> streams m !! s = None ->
       find_module_version self name stream version context arch = Ok None)
  ∧ (∀ m s st v, self !! name = Some m -> resolved_stream m stream = Some s ->
       s ≠ "" -> streams m !! s = Some st -> version = Some v -> v ≠ 0 ->
       Forall (fun x => rmv_version x ≠ v) (stream_values st) ->
       find_module_version self name stream version context arch = Ok None)
  ∧ (∀ m, self !! name = Some m ->
       str_truthy (resolved_stream m stream) = false ->
       find_module_version self name stream version context arch
       = Raise (NoStreamSpecifiedException name))
  ∧ (∀ e, find_module_version self name stream version context arch = Raise e ->
       e = NoStreamSpecifiedException name
       ∧ ∃ m, self !! name = Some m
              ∧ str_truthy (resolved_stream m stream) = false).
Proof.
  split; [apply find_module_version_unknown|].
  split.
  { intros m s Hm Hs Hne Hst.
    rewrite (find_module_version_known _ _ _ _ _ _ _ _ Hm Hs Hne).
    unfold version_from_stream. rewrite Hst. reflexivity. }
  split.
  { intros m s st v Hm Hs Hne Hst -> Hv Hall.
    rewrite (find_module_version_known _ _ _ _ _ _ _ _ Hm Hs Hne).
    unfold version_from_stream. rewrite Hst. unfold int_truthy.
    destruct (Z.eqb_spec v 0); [contradiction|]. cbn [negb from_option id].
    destruct (List.find _ _) as [x|] eqn:Hfind; [|reflexivity].
    apply find_some in Hfind as [Hin Heq].
    rewrite Forall_forall in Hall. apply list_elem_of_In in Hin.
    apply Hall in Hin. apply Z.eqb_eq in Heq. contradiction. }
  split; [intros m; apply find_module_version_no_stream|].
  intros e He.
  destruct (self !! name) as [m|] eqn:Hm.
  - destruct (str_truthy (resolved_stream m stream)) eqn:Ht.
    + destruct (resolved_stream m stream) as [s|] eqn:Hs; [|discriminate].
      assert (s ≠ "") as Hne.
      { intros ->. discriminate. }
      rewrite (find_module_version_known _ _ _ _ _ _ _ _ Hm Hs Hne) in He.
      discriminate.
    + rewrite (find_module_version_no_stream _ _ _ _ _ _ _ Hm Ht) in He.
      injection He as <-. split; [reflexivity|]. exists m. split; [reflexivity|exact Ht].
  - rewrite (find_module_version_unknown _ _ _ _ _ _ Hm) in He. discriminate.
Qed.

Lemma first_not_none_non_empty (candidates : list (option string)) :
  Forall (fun c => c ≠ Some "") candidates ->
  first_not_none candidates = first_non_empty candidates.
Proof.
  induction 1 as [|c candidates Hc _ IH]; [reflexivity|].
  destruct c as [s|]; simpl; [|exact IH].
  destruct (String.eqb_spec s ""); [subst; contradiction | reflexivity].
Qed.

Lemma first_non_empty_truthy (candidates : list (option string)) (s : string) :
  first_non_empty candidates = Some s -> s ≠ "".
Proof.
  induction candidates as [|c candidates IH]; simpl; [discriminate|].
  destruct c as [s'|]; [|exact IH].
  destruct (String.eqb_spec s' ""); [exact IH|]. congruence.
Qed.

Lemma first_non_empty_None (candidates : list (option string)) :
  first_non_empty candidates = None ->
  str_truthy (first_not_none candidates) = false.
Proof.
  induction candidates as [|c candidates IH]; simpl; [reflexivity|].
  destruct c as [s'|]; [|exact IH].
  destruct (String.eqb_spec s' "") as [->|]; [reflexivity | discriminate].
Qed.

Lemma find_module_version_resolved self name m stream version context arch s :
  self !! name = Some m ->
  resolved_stream m stream = Some s ->
  find_module_version self name stream version context arch
  = lookup_in_stream name m s version.
Proof.
  intros Hm Hs. unfold lookup_in_stream. destruct (decide (s = "")) as [->|Hne].
  - apply (find_module_version_no_stream _ _ m); [exact Hm|]. rewrite Hs. reflexivity.
  - apply find_module_version_known; assumption.
Qed.

(** C4, as stated, fails: an explicit stream that is the empty string is not
    skipped. With the state enabled on stream ["S"], "first non-empty wins"
    gives ["S"]; [find_module_version] raises
    [NoStreamSpecifiedException]. *)
Lemma find_module_version_empty_stream_not_skipped :
  first_non_empty [Some ""; Some "S"; Some "D"] = Some "S"
  ∧ find_module_version (registry_m (Some "enabled") (Some "S") (Some "D"))
      "m" (Some "") None None None
    = Raise (NoStreamSpecifiedException "m")
  ∧ find_module_version (registry_m (Some "enabled") (Some "S") (Some "D"))
      "m" (Some "") None None None
    ≠ Ok (version_from_stream (module_m (Some "enabled") (Some "S") (Some "D"))
            "S" None).
Proof.
  split; [reflexivity|]. split; [vm_compute; reflexivity | vm_compute; discriminate].
Qed.

(** C4, amended: for a known module the stream is taken by strict precedence,
    the first candidate that is given: the explicit stream; else the
    persisted stream, when the persisted state is enabled; else the declared
    default stream. A candidate that is given as the empty string is not
    skipped: the lookup then raises [NoStreamSpecifiedException], as it does
    when no candidate is given. When neither the explicit nor the persisted
    stream is the empty string, this is the first non-empty candidate; with
    the state enabled, persisted stream [S] and no explicit stream, the
    result is the lookup in stream [S], whatever the default stream is. *)
Theorem find_module_version_stream_precedence
    self name m stream version context arch :
  self !! name = Some m ->
  (∀ s, stream = Some s ->
     find_module_version self name stream version context arch
     = lookup_in_stream name m s version)
  ∧ (∀ S, stream = None -> conf_state (conf m) = Some "enabled" ->
       conf_stream (conf m) = Some S ->
       find_module_version self name stream version context arch
       = lookup_in_stream name m S version)
  ∧ (stream = None ->
     conf_state (conf m) ≠ Some "enabled" ∨ conf_stream (conf m) = None ->
     find_module_version self name stream version context arch
     = match peek_default_stream (defaults m) with
       | Some d => lookup_in_stream name m d version
       | None => Raise (NoStreamSpecifiedException name)
       end)
  ∧ (stream ≠ Some "" ->
     (conf_state (conf m) = Some "enabled" -> conf_stream (conf m) ≠ Some "") ->
     find_module_version self name stream version context arch
     = match first_non_empty
               [stream;
                if decide (conf_state (conf m) = Some "enabled")
                then conf_stream (conf m) else None;
                peek_default_stream (defaults m)] with
       | Some s => Ok (version_from_stream m s version)
       | None => Raise (NoStreamSpecifiedException name)
       end).
Proof.
  intros Hm. split; [|split; [|split]].
  - intros s ->. apply find_module_version_resolved; [exact Hm | reflexivity].
  - intros S -> Hstate Hconf. apply find_module_version_resolved; [exact Hm|].
    unfold resolved_stream, use_enabled_stream. simpl.
    rewrite decide_True by exact Hstate. rewrite Hconf. reflexivity.
  - intros -> Hpersisted.
    assert (use_enabled_stream m = None) as Hnone.
    { unfold use_enabled_stream. destruct (decide _) as [Hs|_]; [|reflexivity].
      destruct Hpersisted as [?|?]; [contradiction | assumption]. }
    destruct (peek_default_stream (defaults m)) as [d|] eqn:Hd.
    + apply find_module_version_resolved; [exact Hm|].
      unfold resolved_stream, use_default_stream. simpl. rewrite Hnone, Hd. reflexivity.
    + apply (find_module_version_no_stream _ _ m); [exact Hm|].
      unfold resolved_stream, use_default_stream. simpl. rewrite Hnone, Hd. reflexivity.
  - intros Hstream Henabled.
    assert (use_enabled_stream m ≠ Some "") as Henabled'.
    { unfold use_enabled_stream. destruct (decide _) as [Hs|_]; [auto | discriminate]. }
    change (if decide (conf_state (conf m) = Some "enabled")
            then conf_stream (conf m) else None) with (use_enabled_stream m).
    change (peek_default_stream (defaults m)) with (use_default_stream m).
    destruct (first_non_empty [stream; use_enabled_stream m; use_default_stream m])
      as [s|] eqn:Hfirst.
    + assert (resolved_stream m stream = Some s) as Hres.
      { unfold resolved_stream. simpl in Hfirst |- *.
        destruct stream as [x|].
        - destruct (String.eqb_spec x ""); [subst; contradiction | exact Hfirst].
        - destruct (use_enabled_stream m) as [y|].
          + destruct (String.eqb_spec y ""); [subst; contradiction | exact Hfirst].
          + destruct (use_default_stream m) as [z|]; [|discriminate].
            destruct (String.eqb_spec z ""); [discriminate | exact Hfirst]. }
      apply find_module_version_known; [exact Hm | exact Hres |].
      eapply first_non_empty_truthy, Hfirst.
    + apply (find_module_version_no_stream _ _ m); [exact Hm|].
      apply first_non_empty_None, Hfirst.
Qed.

(** With the state enabled on stream ["S"] and default stream ["D"], the
    latest version of ["S"] is found. *)
Lemma find_module_version_stream_precedence_witness :
  find_module_version (registry_m (Some "enabled") (Some "S") (Some "D"))
    "m" None None None None
  = Ok (Some (rmv "S" 5)).
Proof.
  destruct (find_module_version_stream_precedence
              (registry_m (Some "enabled") (Some "S") (Some "D")) "m"
              (module_m (Some "enabled") (Some "S") (Some "D"))
              None None None None)
    as (_ & H & _).
  - reflexivity.
  - rewrite (H "S" eq_refl eq_refl eq_refl). vm_compute. reflexivity.
Defined.

(** Version 0 and no version take the same path. *)
Lemma find_module_version_zero_as_none self name stream context arch :
  find_module_version self name stream (Some 0) context arch
  = find_module_version self name stream None context arch.
Proof. reflexivity. Qed.

(** C10: a version argument of 0 is falsy and is treated like no version: the
    latest version of the resolved stream is returned, also when the stream
    holds a version 0. *)
Theorem find_module_version_version_zero
    self name m stream s st context arch :
  self !! name = Some m ->
  resolved_stream m stream = Some s ->
  s ≠ "" ->
  streams m !! s = Some st ->
  find_module_version self name stream (Some 0) context arch = Ok (Some (latest st))
  ∧ find_module_version self name stream (Some 0) context arch
    = find_module_version self name stream None context arch.
Proof.
  intros Hm Hs Hne Hst.
  rewrite !(find_module_version_known _ _ _ _ _ _ _ _ Hm Hs Hne).
  unfold version_from_stream. rewrite Hst. split; reflexivity.
Qed.

(** Stream ["S"] holds versions 0 and 5: asking for version 0 gives version 5. *)
Lemma find_module_version_version_zero_witness :
  find_module_version (registry_m None None None) "m" (Some "S") (Some 0) None None
  = Ok (Some (rmv "S" 5))
  ∧ rmv "S" 0 ∈ stream_values stream_S.
Proof.
  split; [|left].
  destruct (find_module_version_version_zero
              (registry_m None None None) "m" (module_m None None None)
              (Some "S") "S" stream_S None None) as [H _].
  - reflexivity.
  - reflexivity.
  - discriminate.
  - reflexivity.
  - rewrite H. reflexivity.
Defined.

(** ** [_get_package_name_set_and_remove_profiles] *)

Lemma remove_requested_profile_fold_skip remove latest_module installed profiles st :
  Forall (fun p => ModuleProfile.getName p ∉ installed) profiles ->
  fold_left (remove_requested_profile_step remove latest_module installed) profiles st
  = st.
Proof.
  intros H. revert st. induction H as [|p profiles Hp _ IH]; intros st; [reflexivity|].
  simpl. unfold remove_requested_profile_step at 2.
  rewrite bool_decide_eq_false_2 by exact Hp. apply IH.
Qed.

(** C7: when a specific profile is asked for and it is not in the installed
    profile record of the module, the package name set is empty and the
    container, with its installed profile record, is unchanged. *)
Theorem remove_profiles_not_installed c module_list nsvcap remove latest_module p :
  _get_latest module_list = Some latest_module ->
  nsvcap_profile nsvcap = Some p ->
  p ≠ "" ->
  p ∉ ModulePackageContainer.getInstalledProfiles c
        (ModulePackage.getName latest_module) ->
  _get_package_name_set_and_remove_profiles c module_list nsvcap remove
  = (c, Ok []).
Proof.
  intros Hlatest Hprofile Hne Hnot.
  unfold _get_package_name_set_and_remove_profiles. rewrite Hlatest.
  destruct (set_of_list _) as [|i installed] eqn:Hinstalled; [reflexivity|].
  rewrite Hprofile, (str_truthy_Some p Hne). cbn [from_option id].
  destruct (ModulePackage.getProfiles latest_module p) as [|q profiles] eqn:Hprofiles;
    [reflexivity|].
  rewrite remove_requested_profile_fold_skip; [reflexivity|].
  apply Forall_forall. intros x Hx. rewrite <- Hprofiles in Hx.
  unfold ModulePackage.getProfiles in Hx. apply list_elem_of_filter in Hx as [-> _].
  rewrite <- Hinstalled. unfold set_of_list. rewrite elem_of_remove_dups. exact Hnot.
Qed.

(** ** [_create_module_dict_and_enable] *)

Section Dict.
Context {V : Type}.
Implicit Types (d : list (string * V)) (k : string).

Lemma dict_setdefault_update_keys k init f d :
  dict_keys (dict_setdefault_update k init f d)
  = if decide (k ∈ dict_keys d) then dict_keys d else dict_keys d ++ [k].
Proof.
  unfold dict_keys. induction d as [|[k' v] d IH]; cbn [dict_setdefault_update].
  - rewrite decide_False by apply not_elem_of_nil. reflexivity.
  - destruct (decide (k' = k)) as [->|Hne]; cbn [fmap list_fmap fst].
    + rewrite decide_True by left. reflexivity.
    + rewrite IH. destruct (decide (k ∈ d.*1)) as [Hin|Hnin].
      * rewrite decide_True by (by right). reflexivity.
      * rewrite decide_False; [reflexivity|].
        intros [->|H]%elem_of_cons; contradiction.
Qed.

Lemma dict_setdefault_update_nonempty k init f d :
  dict_setdefault_update k init f d ≠ [].
Proof. destruct d as [|[k' v] d]; simpl; [|destruct (decide _)]; discriminate. Qed.

Lemma dict_setdefault_update_NoDup k init f d :
  NoDup (dict_keys d) -> NoDup (dict_keys (dict_setdefault_update k init f d)).
Proof.
  intros Hd. rewrite dict_setdefault_update_keys.
  destruct (decide _) as [_|Hnin]; [exact Hd|].
  apply NoDup_app. split; [exact Hd|]. split; [|apply NoDup_singleton].
  intros x Hx Hx'. apply list_elem_of_singleton in Hx' as ->. contradiction.
Qed.

Lemma dict_setdefault_update_Forall (Q : V -> Prop) k init f d :
  Q (f init) -> (∀ v, Q v -> Q (f v)) ->
  Forall (fun kv => Q kv.2) d ->
  Forall (fun kv => Q kv.2) (dict_setdefault_update k init f d).
Proof.
  intros Hinit Hf. induction 1 as [|[k' v] d Hv Hd IH]; simpl.
  - constructor; [exact Hinit | constructor].
  - destruct (decide _); constructor; simpl; auto.
Qed.

Lemma filter_key_singleton d k v :
  NoDup (dict_keys d) -> (k, v) ∈ d ->
  filter (fun kv => kv.1 = k) d = [(k, v)].
Proof.
  induction d as [|[k' v'] d IH]; intros Hnd Hin; [by apply elem_of_nil in Hin|].
  simpl in Hnd. apply NoDup_cons in Hnd as [Hk' Hnd].
  apply elem_of_cons in Hin as [[= <- <-]|Hin].
  - rewrite filter_cons_True by reflexivity. f_equal.
    apply elem_of_nil_inv. intros x Hx. apply list_elem_of_filter in Hx as [Hx1 Hx2].
    apply Hk'. rewrite <- Hx1. apply list_elem_of_fmap_2. exact Hx2.
  - rewrite filter_cons_False; [apply IH; assumption|].
    simpl. intros ->. apply Hk'.
    change k with ((k, v).1). apply list_elem_of_fmap_2. exact Hin.
Qed.

Lemma dict_lookup_unique d k v v' :
  NoDup (dict_keys d) -> (k, v) ∈ d -> (k, v') ∈ d -> v = v'.
Proof.
  induction d as [|[k0 v0] d IH]; intros Hnd Hv Hv'; [by apply elem_of_nil in Hv|].
  simpl in Hnd. apply NoDup_cons in Hnd as [Hk0 Hnd].
  assert (∀ w, (k0, w) ∈ d -> False) as Hfresh.
  { intros w Hw. apply Hk0. change k0 with ((k0, w).1).
    apply list_elem_of_fmap_2. exact Hw. }
  apply elem_of_cons in Hv as [Hv|Hv]; apply elem_of_cons in Hv' as [Hv'|Hv'].
  - congruence.
  - injection Hv as -> _. destruct (Hfresh _ Hv').
  - injection Hv' as -> _. destruct (Hfresh _ Hv).
  - apply IH; assumption.
Qed.

Lemma filter_ext_elem (P1 P2 : string * V -> Prop)
    `{∀ x, Decision (P1 x)} `{∀ x, Decision (P2 x)} d :
  (∀ x, x ∈ d -> P1 x <-> P2 x) -> filter P1 d = filter P2 d.
Proof.
  induction d as [|x d IH]; intros Hext; [reflexivity|].
  rewrite !filter_cons.
  assert (filter P1 d = filter P2 d) as ->.
  { apply IH. intros y Hy. apply Hext. by right. }
  destruct (decide (P1 x)) as [H1|H1], (decide (P2 x)) as [H2|H2];
    try reflexivity; exfalso; apply (Hext x) in H1 || apply H1, (Hext x), H2;
    try contradiction; left.
Qed.

End Dict.

Lemma group_modules_wf (module_list : list ModulePackage.t) :
  NoDup (dict_keys (group_modules module_list))
  ∧ Forall (fun kv => stream_dict_wf kv.2) (group_modules module_list).
Proof.
  unfold group_modules.
  assert (∀ (d : ModuleDict),
            NoDup (dict_keys d) ∧ Forall (fun kv => stream_dict_wf kv.2) d ->
            NoDup (dict_keys (fold_left
              (fun moduleDict module =>
                 dict_setdefault_update (ModulePackage.getName module) []
                   (dict_setdefault_update (ModulePackage.getStream module) []
                      (fun l => l ++ [module])) moduleDict) module_list d))
            ∧ Forall (fun kv => stream_dict_wf kv.2) (fold_left
              (fun moduleDict module =>
                 dict_setdefault_update (ModulePackage.getName module) []
                   (dict_setdefault_update (ModulePackage.getStream module) []
                      (fun l => l ++ [module])) moduleDict) module_list d)) as H.
  { induction module_list as [|m module_list IH]; intros d [Hnd Hwf]; [by split|].
    simpl. apply IH. split.
    - apply dict_setdefault_update_NoDup, Hnd.
    - apply (dict_setdefault_update_Forall stream_dict_wf); [| |exact Hwf].
      + split; [discriminate|]. simpl. apply NoDup_singleton.
      + intros v [_ Hv]. split.
        * apply dict_setdefault_update_nonempty.
        * apply dict_setdefault_update_NoDup, Hv. }
  apply H. split; [constructor | constructor].
Qed.

Section DictUpdate.
Context {V : Type}.
Implicit Types (d : list (string * V)) (k : string).

Lemma dict_setdefault_update_elem_inv k init f d k' v' :
  NoDup (dict_keys d) ->
  (k', v') ∈ dict_setdefault_update k init f d ->
  (k' ≠ k ∧ (k', v') ∈ d)
  ∨ (k' = k
     ∧ ((∃ v, (k, v) ∈ d ∧ v' = f v) ∨ ((k ∉ dict_keys d) ∧ v' = f init))).
Proof.
  induction d as [|[k0 v0] d IH]; intros Hnd Hin; cbn [dict_setdefault_update] in Hin.
  - apply list_elem_of_singleton in Hin as [= -> ->]. right. split; [reflexivity|].
    right. split; [apply not_elem_of_nil | reflexivity].
  - simpl in Hnd. apply NoDup_cons in Hnd as [Hk0 Hnd].
    destruct (decide (k0 = k)) as [->|Hne].
    + apply elem_of_cons in Hin as [[= -> ->]|Hin].
      * right. split; [reflexivity|]. left. exists v0. split; [left | reflexivity].
      * left. split; [|by right]. intros ->. apply Hk0.
        change k with ((k, v').1). apply list_elem_of_fmap_2. exact Hin.
    + apply elem_of_cons in Hin as [[= -> ->]|Hin].
      * left. split; [exact Hne | left].
      * destruct (IH Hnd Hin) as [[Hk' Hd]|[-> [(v & Hv & ->)|[Hfresh ->]]]].
        -- left. split; [exact Hk' | by right].
        -- right. split; [reflexivity|]. left. exists v. split; [by right | reflexivity].
        -- right. split; [reflexivity|]. right. split; [|reflexivity].
           simpl. intros [?|?]%elem_of_cons; [congruence | contradiction].
Qed.

Lemma dict_setdefault_update_elem_other k init f d k' v' :
  k' ≠ k -> (k', v') ∈ d -> (k', v') ∈ dict_setdefault_update k init f d.
Proof.
  intros Hne. induction d as [|[k0 v0] d IH]; intros Hin;
    [by apply elem_of_nil in Hin|].
  cbn [dict_setdefault_update].
  apply elem_of_cons in Hin as [[= <- <-]|Hin].
  - rewrite decide_False by exact Hne. left.
  - destruct (decide (k0 = k)); right; [exact Hin | apply IH, Hin].
Qed.

Lemma dict_setdefault_update_elem_updated k init f d v :
  NoDup (dict_keys d) -> (k, v) ∈ d -> (k, f v) ∈ dict_setdefault_update k init f d.
Proof.
  induction d as [|[k0 v0] d IH]; intros Hnd Hin; [by apply elem_of_nil in Hin|].
  simpl in Hnd. apply NoDup_cons in Hnd as [Hk0 Hnd].
  cbn [dict_setdefault_update].
  apply elem_of_cons in Hin as [[= <- <-]|Hin].
  - rewrite decide_True by reflexivity. left.
  - destruct (decide (k0 = k)) as [->|Hne].
    + exfalso. apply Hk0. change k with ((k, v).1).
      apply list_elem_of_fmap_2. exact Hin.
    + right. apply IH; assumption.
Qed.

Lemma dict_setdefault_update_elem_key k init f d :
  ∃ x, (k, f x) ∈ dict_setdefault_update k init f d.
Proof.
  induction d as [|[k0 v0] d IH]; cbn [dict_setdefault_update].
  - exists init. left.
  - destruct (decide (k0 = k)) as [->|Hne].
    + exists v0. left.
    + destruct IH as [x Hx]. exists x. by right.
Qed.

Lemma dict_key_elem d k v : (k, v) ∈ d -> k ∈ dict_keys d.
Proof. intros Hin. change k with ((k, v).1). apply list_elem_of_fmap_2. exact Hin. Qed.

End DictUpdate.

Lemma group_modules_snoc (module_list : list ModulePackage.t) (m : ModulePackage.t) :
  group_modules (module_list ++ [m])
  = dict_setdefault_update (ModulePackage.getName m) []
      (dict_setdefault_update (ModulePackage.getStream m) [] (fun l => l ++ [m]))
      (group_modules module_list).
Proof. unfold group_modules. rewrite fold_left_app. reflexivity. Qed.

Lemma group_modules_groups (module_list : list ModulePackage.t) :
  (∀ n sd s g,
     (n, sd) ∈ group_modules module_list -> (s, g) ∈ sd ->
     g ≠ []
     ∧ g = filter (fun m => ModulePackage.getName m = n ∧ ModulePackage.getStream m = s)
                  module_list)
  ∧ (∀ m, m ∈ module_list ->
       ∃ sd g, (ModulePackage.getName m, sd) ∈ group_modules module_list
               ∧ (ModulePackage.getStream m, g) ∈ sd ∧ m ∈ g).
Proof.
  induction module_list as [|m l IH] using rev_ind.
  - split.
    + intros n sd s g Hn. by apply elem_of_nil in Hn.
    + intros m Hm. by apply elem_of_nil in Hm.
  - destruct IH as [IHa IHb].
    destruct (group_modules_wf l) as [Hnodup Hwf].
    rewrite Forall_forall in Hwf.
    assert (∀ n s, (∀ sd, (n, sd) ∈ group_modules l -> s ∉ dict_keys sd) ->
              filter (fun x => ModulePackage.getName x = n
                               ∧ ModulePackage.getStream x = s) l = []) as Hempty.
    { intros n s Hfresh. apply elem_of_nil_inv. intros x Hx.
      apply list_elem_of_filter in Hx as [[<- <-] Hx].
      destruct (IHb x Hx) as (sd & g & Hsd & Hg & _).
      exact (Hfresh sd Hsd (dict_key_elem _ _ _ Hg)). }
    rewrite group_modules_snoc. split.
    + intros n sd' s g' Hn Hs. rewrite filter_app.
      apply dict_setdefault_update_elem_inv in Hn; [|exact Hnodup].
      destruct Hn as [[Hne Hn]|[-> [(sd & Hsd & ->)|[Hfresh ->]]]].
      * destruct (IHa n sd' s g' Hn Hs) as [Hg ->]. split; [exact Hg|].
        rewrite (filter_cons_False _ m) by (intros [? _]; congruence).
        rewrite filter_nil, app_nil_r. reflexivity.
      * destruct (Hwf _ Hsd) as [_ Hsdnodup]. cbn [snd] in Hsdnodup.
        apply dict_setdefault_update_elem_inv in Hs; [|exact Hsdnodup].
        destruct Hs as [[Hne Hs]|[-> [(g & Hg & ->)|[Hfresh ->]]]].
        -- destruct (IHa _ sd s g' Hsd Hs) as [Hg ->]. split; [exact Hg|].
           rewrite (filter_cons_False _ m) by (intros [_ ?]; congruence).
           rewrite filter_nil, app_nil_r. reflexivity.
        -- destruct (IHa _ sd _ g Hsd Hg) as [_ Heq].
           split; [intros H; by apply app_eq_nil in H as [_ ?]|].
           rewrite <- Heq, filter_cons_True by (split; reflexivity).
           rewrite filter_nil. reflexivity.
        -- split; [discriminate|]. rewrite Hempty.
           ++ rewrite filter_cons_True by (split; reflexivity). reflexivity.
           ++ intros sd2 Hsd2.
              rewrite (dict_lookup_unique _ _ _ _ Hnodup Hsd2 Hsd). exact Hfresh.
      * cbn [dict_setdefault_update] in Hs.
        apply list_elem_of_singleton in Hs as [= -> ->].
        split; [discriminate|]. rewrite Hempty.
        -- rewrite filter_cons_True by (split; reflexivity). reflexivity.
        -- intros sd2 Hsd2. exfalso. exact (Hfresh (dict_key_elem _ _ _ Hsd2)).
    + intros x [Hx|Hx%list_elem_of_singleton]%elem_of_app.
      * destruct (IHb x Hx) as (sd & g & Hsd & Hg & Hin).
        destruct (decide (ModulePackage.getName x = ModulePackage.getName m))
          as [Hname|Hname].
        -- rewrite Hname in *.
           eexists _. 
           pose proof (dict_setdefault_update_elem_updated
                         (ModulePackage.getName m) []
                         (dict_setdefault_update (ModulePackage.getStream m) []
                            (fun l0 => l0 ++ [m]))
                         _ sd Hnodup Hsd) as Hupd.
           destruct (Hwf _ Hsd) as [_ Hsdnodup]. cbn [snd] in Hsdnodup.
           destruct (decide (ModulePackage.getStream x = ModulePackage.getStream m))
             as [Hstream|Hstream].
           ++ rewrite Hstream in *. exists (g ++ [m]).
              split; [exact Hupd|]. split.
              ** apply (dict_setdefault_update_elem_updated _ _ (fun l0 => l0 ++ [m]));
                   assumption.
              ** apply elem_of_app. by left.
           ++ exists g. split; [exact Hupd|]. split; [|exact Hin].
              apply dict_setdefault_update_elem_other; assumption.
        -- exists sd, g. split; [|by split].
           apply dict_setdefault_update_elem_other; assumption.
      * subst x.
        destruct (dict_setdefault_update_elem_key (ModulePackage.getName m) []
                    (dict_setdefault_update (ModulePackage.getStream m) []
                       (fun l0 => l0 ++ [m]))
                    (group_modules l)) as [sd Hsd].
        destruct (dict_setdefault_update_elem_key (ModulePackage.getStream m) []
                    (fun l0 => l0 ++ [m]) sd) as [g Hg].
        eexists _, _. split; [exact Hsd|]. split; [exact Hg|].
        apply elem_of_app. right. left.
Qed.

(** ** Loops *)

Section Loops.
Context {S X : Type} (R : S -> S -> Prop) `{!Reflexive R} `{!Transitive R}.

Lemma fold_left_rel (f : S -> X -> S) xs s :
  (∀ s x, R s (f s x)) -> R s (fold_left f xs s).
Proof.
  intros Hf. revert s. induction xs as [|x xs IH]; intros s; [reflexivity|].
  simpl. etransitivity; [apply Hf | apply IH].
Qed.

Lemma for_loop_rel (body : S -> X -> S * option exception) xs s :
  (∀ s x, R s (body s x).1) -> R s (for_loop body xs s).1.
Proof.
  intros Hbody. revert s. induction xs as [|x xs IH]; intros s; [reflexivity|].
  simpl. specialize (Hbody s x). destruct (body s x) as [s' [e|]]; [exact Hbody|].
  etransitivity; [exact Hbody | apply IH].
Qed.

(** The same for a body that keeps [R] at the elements of the list. *)
Lemma for_loop_rel_elem (body : S -> X -> S * option exception) xs s :
  (∀ s x, x ∈ xs -> R s (body s x).1) -> R s (for_loop body xs s).1.
Proof.
  revert s. induction xs as [|x xs IH]; intros s Hbody; [reflexivity|].
  simpl. pose proof (Hbody s x (list_elem_of_here _ _)) as Hx.
  destruct (body s x) as [s' [e|]]; [exact Hx|].
  etransitivity; [exact Hx|]. apply IH. intros s0 y Hy. apply Hbody. by right.
Qed.

Lemma for_loop_no_raise (body : S -> X -> S * option exception) xs s :
  (∀ s x, (body s x).2 = None) -> (for_loop body xs s).2 = None.
Proof.
  intros Hbody. revert s. induction xs as [|x xs IH]; intros s; [reflexivity|].
  simpl. specialize (Hbody s x). destruct (body s x) as [s' [e|]]; [discriminate|].
  apply IH.
Qed.

(** A loop whose body never raises reaches each of its elements. *)
Lemma for_loop_reaches (body : S -> X -> S * option exception) xs s x :
  x ∈ xs ->
  (∀ s x, (body s x).2 = None) ->
  (∀ s x, R s (body s x).1) ->
  ∃ s1, R s s1 ∧ R (body s1 x).1 (for_loop body xs s).1.
Proof.
  intros Hx Hnone Hbody. revert s.
  induction xs as [|y xs IH]; intros s; [by apply elem_of_nil in Hx|].
  apply elem_of_cons in Hx as [<-|Hx].
  - exists s. split; [reflexivity|]. simpl.
    pose proof (Hnone s x) as Hn. destruct (body s x) as [s' [e|]]; [discriminate|].
    simpl. apply for_loop_rel, Hbody.
  - simpl. pose proof (Hnone s y) as Hn. pose proof (Hbody s y) as Hb.
    destruct (body s y) as [s' [e|]]; [discriminate|]. simpl in Hb.
    destruct (IH Hx s') as (s1 & Hs1 & Hrest). exists s1.
    split; [etransitivity; eassumption | exact Hrest].
Qed.

End Loops.

Section LoopInvariant.
Context {S X : Type} (I : S -> Prop).

(** A loop over elements at which the body keeps [I] and does not raise. *)
Lemma for_loop_invariant (body : S -> X -> S * option exception) xs : ∀ s,
  I s ->
  (∀ s x, x ∈ xs -> I s -> I (body s x).1 ∧ (body s x).2 = None) ->
  I (for_loop body xs s).1 ∧ (for_loop body xs s).2 = None.
Proof.
  induction xs as [|x xs IH]; intros s Hs Hbody; [by split|].
  cbn [for_loop]. destruct (Hbody s x) as [Hs' Hnone]; [left | exact Hs|].
  destruct (body s x) as [s' [e|]]; [discriminate|]. cbn [fst] in Hs'.
  apply IH; [exact Hs'|]. intros s0 y Hy. apply Hbody. by right.
Qed.

End LoopInvariant.

(** ** The container: [enable] *)

Lemma enable_conflict_true c name stream :
  ModulePackageContainer.enable_conflict c name stream = true
  <-> name ∈ ModulePackageContainer.pass_enabled c
      ∧ ModulePackageContainer.getModuleState c name = STATE_ENABLED
      ∧ ModulePackageContainer.getEnabledStream c name ≠ stream.
Proof.
  unfold ModulePackageContainer.enable_conflict.
  rewrite !andb_true_iff, !bool_decide_eq_true, negb_true_iff. split.
  - intros [[H1 H2] H3]. split; [exact H1|]. split; [exact H2|].
    apply String.eqb_neq. exact H3.
  - intros (H1 & H2 & H3). split; [by split|]. apply String.eqb_neq. exact H3.
Qed.

(** What a call of [enable] leaves behind. *)
Lemma enable_inv c name stream :
  match ModulePackageContainer.enable c name stream with
  | Ok c' =>
      ModulePackageContainer.enable_conflict c name stream = false
      ∧ ModulePackageContainer.modules c' = ModulePackageContainer.modules c
      ∧ ModulePackageContainer.active c' = ModulePackageContainer.active c
      ∧ ModulePackageContainer.default_streams c'
        = ModulePackageContainer.default_streams c
      ∧ ModulePackageContainer.default_profiles c'
        = ModulePackageContainer.default_profiles c
      ∧ ModulePackageContainer.installed_profiles c'
        = ModulePackageContainer.installed_profiles c
      ∧ ModulePackageContainer.states c'
        = <[name := STATE_ENABLED]> (ModulePackageContainer.states c)
      ∧ ModulePackageContainer.enabled_streams c'
        = <[name := stream]> (ModulePackageContainer.enabled_streams c)
      ∧ ModulePackageContainer.pass_enabled c'
        = name :: ModulePackageContainer.pass_enabled c
  | Raise e =>
      e = EnableMultipleStreamsException name
      ∧ ModulePackageContainer.enable_conflict c name stream = true
  end.
Proof.
  unfold ModulePackageContainer.enable.
  destruct (ModulePackageContainer.enable_conflict c name stream); repeat split.
Qed.

Lemma enable_Ok c name stream c' :
  ModulePackageContainer.enable c name stream = Ok c' ->
  ModulePackageContainer.enable_conflict c name stream = false
  ∧ ModulePackageContainer.modules c' = ModulePackageContainer.modules c
  ∧ ModulePackageContainer.active c' = ModulePackageContainer.active c
  ∧ ModulePackageContainer.default_streams c'
    = ModulePackageContainer.default_streams c
  ∧ ModulePackageContainer.default_profiles c'
    = ModulePackageContainer.default_profiles c
  ∧ ModulePackageContainer.installed_profiles c'
    = ModulePackageContainer.installed_profiles c
  ∧ ModulePackageContainer.states c'
    = <[name := STATE_ENABLED]> (ModulePackageContainer.states c)
  ∧ ModulePackageContainer.enabled_streams c'
    = <[name := stream]> (ModulePackageContainer.enabled_streams c)
  ∧ ModulePackageContainer.pass_enabled c'
    = name :: ModulePackageContainer.pass_enabled c.
Proof.
  intros H. pose proof (enable_inv c name stream) as Hinv. rewrite H in Hinv.
  exact Hinv.
Qed.

(** A call of [enable] that returns has recorded the stream, and a second
    call for the same stream goes through. *)
Lemma enable_recorded c name stream c' :
  ModulePackageContainer.enable c name stream = Ok c' ->
  ModulePackageContainer.getModuleState c' name = STATE_ENABLED
  ∧ ModulePackageContainer.getEnabledStream c' name = stream
  ∧ name ∈ ModulePackageContainer.pass_enabled c'
  ∧ ModulePackageContainer.enable_conflict c' name stream = false.
Proof.
  intros H. destruct (enable_Ok _ _ _ _ H) as (_ & _ & _ & _ & _ & _ & Hs & He & Hp).
  assert (ModulePackageContainer.getEnabledStream c' name = stream) as Hstream.
  { unfold ModulePackageContainer.getEnabledStream. rewrite He, lookup_insert_eq.
    reflexivity. }
  split; [|split; [exact Hstream|split]].
  - unfold ModulePackageContainer.getModuleState. rewrite Hs, lookup_insert_eq.
    reflexivity.
  - rewrite Hp. left.
  - unfold ModulePackageContainer.enable_conflict. rewrite Hstream, String.eqb_refl.
    apply andb_false_r.
Qed.

Lemma enable_step_spec moduleName c key :
  match (enable_step moduleName c key).2 with
  | None =>
      ModulePackageContainer.enable c moduleName key
      = Ok (enable_step moduleName c key).1
  | Some e =>
      e = EnableMultipleStreamsException moduleName
      ∧ (enable_step moduleName c key).1 = c
      ∧ ModulePackageContainer.enable_conflict c moduleName key = true
  end.
Proof.
  unfold enable_step. pose proof (enable_inv c moduleName key) as Hinv.
  destruct (ModulePackageContainer.enable c moduleName key) as [c'|e]; cbn [fst snd].
  - reflexivity.
  - destruct Hinv as [-> Hbad]. by repeat split.
Qed.

(** ** Relations between containers that the resolution keeps *)

Global Instance on_container_refl {A} R (container : A -> ModulePackageContainer.t)
  `{!Reflexive R} : Reflexive (on_container R container).
Proof. intros a. unfold on_container. reflexivity. Qed.

Global Instance on_container_trans {A} R (container : A -> ModulePackageContainer.t)
  `{!Transitive R} : Transitive (on_container R container).
Proof. intros a1 a2 a3. unfold on_container. apply transitivity. Qed.

Global Instance keeps_refl {A} (f : ModulePackageContainer.t -> A) : Reflexive (keeps f).
Proof. intros c. reflexivity. Qed.

Global Instance keeps_trans {A} (f : ModulePackageContainer.t -> A) :
  Transitive (keeps f).
Proof. intros c1 c2 c3 H1 H2. unfold keeps in *. congruence. Qed.

Section ContainerRel.
Context (R : relation ModulePackageContainer.t) `{!Reflexive R} `{!Transitive R}.
Context (P : string -> Prop).
Hypothesis R_enable : ∀ c name stream c',
  P name -> ModulePackageContainer.enable c name stream = Ok c' -> R c c'.

Lemma enable_step_rel moduleName c key :
  P moduleName -> R c (enable_step moduleName c key).1.
Proof.
  intros HP. unfold enable_step.
  destruct (ModulePackageContainer.enable c moduleName key) as [c'|e] eqn:H;
    cbn [fst]; [exact (R_enable _ _ _ _ HP H) | reflexivity].
Qed.

Lemma keep_stream_step_rel enable moduleName stream
    (acc : ModulePackageContainer.t * StreamDict) key :
  P moduleName -> R acc.1 (keep_stream_step enable moduleName stream acc key).1.1.
Proof.
  intros HP. unfold keep_stream_step. destruct (decide _); [|reflexivity].
  destruct enable; [apply enable_step_rel, HP | reflexivity].
Qed.

Lemma resolve_stream_dict_rel enable c moduleName (streamDict : StreamDict) :
  P moduleName -> R c (resolve_stream_dict enable c moduleName streamDict).1.
Proof.
  intros HP. unfold resolve_stream_dict.
  destruct (1 <? length streamDict)%nat.
  - destruct (bool_decide _ && bool_decide _); [reflexivity|].
    destruct (bool_decide _); [reflexivity|].
    pose proof (for_loop_rel (on_container R fst)
                  (keep_stream_step enable moduleName (winning_stream c moduleName))
                  (sorted (dict_keys streamDict)) (c, streamDict)
                  (fun s x => keep_stream_step_rel enable moduleName _ s x HP)) as H.
    destruct (for_loop _ _ _) as [r [e|]]; unfold on_container in H;
      cbn [fst snd] in H |- *; [exact H|].
    destruct (length r.2 =? 1)%nat; exact H.
  - destruct enable.
    + pose proof (for_loop_rel R (enable_step moduleName) (dict_keys streamDict) c
                    (fun s x => enable_step_rel moduleName s x HP)) as H.
      destruct (for_loop _ _ _) as [c' [e|]]; cbn [fst snd] in H |- *; [exact H|].
      destruct (length streamDict =? 1)%nat; exact H.
    + destruct (length streamDict =? 1)%nat; reflexivity.
Qed.

Lemma resolve_module_dict_rel enable (moduleDict : ModuleDict) : ∀ c,
  (∀ n, n ∈ dict_keys moduleDict -> P n) ->
  R c (resolve_module_dict enable c moduleDict).1.
Proof.
  induction moduleDict as [|[moduleName streamDict] moduleDict IH]; intros c HP;
    [reflexivity|].
  cbn [resolve_module_dict].
  pose proof (resolve_stream_dict_rel enable c moduleName streamDict
                (HP moduleName (list_elem_of_here _ _))) as Hstep.
  destruct (resolve_stream_dict enable c moduleName streamDict) as [c' [sd|e]];
    [|exact Hstep].
  assert (∀ n, n ∈ dict_keys moduleDict -> P n) as HP'.
  { intros n Hn. apply HP. by right. }
  specialize (IH c' HP'). cbn [fst] in Hstep.
  destruct (resolve_module_dict enable c' moduleDict) as [c'' [rest|e]];
    cbn [fst] in *; etransitivity; eassumption.
Qed.

Lemma resolve_spec_rel np (st : ModulePackageContainer.t * ResolvedSpecs) spec :
  (∀ n, P n) -> R st.1 (resolve_spec np st spec).1.1.
Proof.
  intros HP. unfold resolve_spec.
  destruct (_get_modules np st.1 spec) as [[module_list nsvcap]|]; [|reflexivity].
  unfold _create_module_dict_and_enable.
  pose proof (resolve_module_dict_rel true (group_modules module_list) st.1
                (fun n _ => HP n)) as H.
  destruct (resolve_module_dict true st.1 (group_modules module_list))
    as [c [d|[]]]; exact H.
Qed.

End ContainerRel.

Lemma enable_keeps {A} (f : ModulePackageContainer.t -> A) :
  (∀ c g, f (ModulePackageContainer.set_pass_enabled c g) = f c) ->
  (∀ c g, f (ModulePackageContainer.set_enabled_streams c g) = f c) ->
  (∀ c g, f (ModulePackageContainer.set_states c g) = f c) ->
  ∀ c name stream c',
    True -> ModulePackageContainer.enable c name stream = Ok c' -> keeps f c c'.
Proof.
  intros H1 H2 H3 c name stream c' _. unfold ModulePackageContainer.enable, keeps.
  destruct (ModulePackageContainer.enable_conflict c name stream); [discriminate|].
  intros [= <-]. rewrite H1, H2, H3. reflexivity.
Qed.

Lemma enable_keeps_modules c name stream c' :
  True -> ModulePackageContainer.enable c name stream = Ok c' ->
  keeps ModulePackageContainer.modules c c'.
Proof. apply enable_keeps; reflexivity. Qed.

Lemma enable_keeps_installed_profiles c name stream c' :
  True -> ModulePackageContainer.enable c name stream = Ok c' ->
  keeps ModulePackageContainer.installed_profiles c c'.
Proof. apply enable_keeps; reflexivity. Qed.

(** ** [_create_module_dict_and_enable] *)

Lemma agree_on_refl names c : agree_on names c c.
Proof. split; [reflexivity|]. intros; repeat split; auto. Qed.

Lemma agree_on_trans names c1 c2 c3 :
  agree_on names c1 c2 -> agree_on names c2 c3 -> agree_on names c1 c3.
Proof.
  intros [Hd1 H1] [Hd2 H2]. split; [congruence|].
  intros n Hn. destruct (H1 n Hn) as (? & ? & ?), (H2 n Hn) as (? & ? & ?).
  split; [congruence|]. split; [congruence|]. etransitivity; eassumption.
Qed.

Global Instance agree_on_reflexive names : Reflexive (agree_on names).
Proof. intros c. apply agree_on_refl. Qed.

Global Instance agree_on_transitive names : Transitive (agree_on names).
Proof. intros c1 c2 c3. apply agree_on_trans. Qed.

Lemma agree_on_weaken names names' c c' :
  (∀ n, n ∈ names' -> n ∈ names) -> agree_on names c c' -> agree_on names' c c'.
Proof. intros Hsub [Hd H]. split; [exact Hd|]. intros n Hn. apply H, Hsub, Hn. Qed.

Lemma agree_on_enable names c name stream c' :
  name ∉ names ->
  ModulePackageContainer.enable c name stream = Ok c' ->
  agree_on names c c'.
Proof.
  intros Hname H.
  destruct (enable_Ok _ _ _ _ H) as (_ & _ & _ & Hd & _ & _ & Hs & He & Hp).
  split; [exact Hd|]. intros n Hn.
  assert (name ≠ n) by congruence.
  rewrite Hs, He, Hp, !lookup_insert_ne by assumption.
  split; [reflexivity|]. split; [reflexivity|]. rewrite elem_of_cons.
  split; [intros [?|?]; [congruence | assumption] | by right].
Qed.

Lemma agree_on_state names c c' n :
  agree_on names c c' -> n ∈ names ->
  ModulePackageContainer.getModuleState c' n = ModulePackageContainer.getModuleState c n
  ∧ ModulePackageContainer.getEnabledStream c' n
    = ModulePackageContainer.getEnabledStream c n
  ∧ winning_stream c' n = winning_stream c n
  ∧ ∀ stream, ModulePackageContainer.enable_conflict c' n stream
              = ModulePackageContainer.enable_conflict c n stream.
Proof.
  intros [Hd H] Hn. destruct (H n Hn) as (Hs & He & Hp).
  assert (ModulePackageContainer.getModuleState c' n
          = ModulePackageContainer.getModuleState c n) as Hstate.
  { unfold ModulePackageContainer.getModuleState. rewrite Hs. reflexivity. }
  assert (ModulePackageContainer.getEnabledStream c' n
          = ModulePackageContainer.getEnabledStream c n) as Hstream.
  { unfold ModulePackageContainer.getEnabledStream. rewrite He. reflexivity. }
  split; [exact Hstate|]. split; [exact Hstream|]. split.
  - unfold winning_stream, ModulePackageContainer.getDefaultStream.
    rewrite Hstate, Hstream, Hd. reflexivity.
  - intros stream. unfold ModulePackageContainer.enable_conflict.
    rewrite Hstate, Hstream. f_equal. f_equal. apply bool_decide_ext. exact Hp.
Qed.

Lemma agree_on_conflict names c c' n sd :
  agree_on names c c' -> n ∈ names ->
  stream_conflict c' n sd <-> stream_conflict c n sd.
Proof.
  intros Hagree Hn. destruct (agree_on_state _ _ _ _ Hagree Hn) as (Hs & _ & Hw & _).
  unfold stream_conflict. rewrite Hs, Hw. reflexivity.
Qed.

Lemma filter_all {A} (P : A -> Prop) `{∀ x, Decision (P x)} (l : list A) :
  (∀ x, x ∈ l -> P x) -> filter P l = l.
Proof.
  induction l as [|x l IH]; intros Hall; [reflexivity|].
  rewrite filter_cons_True by (apply Hall; left). f_equal.
  apply IH. intros y Hy. apply Hall. by right.
Qed.

Lemma filter_keep_here stream keys (streamDict : StreamDict) :
  filter (fun kv => kv.1 = stream ∨ kv.1 ∉ keys) streamDict
  = filter (fun kv => kv.1 = stream ∨ kv.1 ∉ stream :: keys) streamDict.
Proof.
  apply filter_ext_elem. intros x _. split.
  - intros [Hx|Hx]; [by left|].
    destruct (decide (x.1 = stream)) as [Heq|Hneq]; [by left|].
    right. intros [?|?]%elem_of_cons; contradiction.
  - intros [Hx|Hx]; [by left|]. right. intros Hin. apply Hx. by right.
Qed.

Lemma filter_keep_del stream key keys (streamDict : StreamDict) :
  key ≠ stream ->
  filter (fun kv => kv.1 = stream ∨ kv.1 ∉ keys) (dict_del key streamDict)
  = filter (fun kv => kv.1 = stream ∨ kv.1 ∉ key :: keys) streamDict.
Proof.
  intros Hne. unfold dict_del. rewrite list_filter_filter.
  apply filter_ext_elem. intros x _. split.
  - intros [[Hx|Hx] Hkey]; [by left|].
    right. intros [?|?]%elem_of_cons; contradiction.
  - intros [Hx|Hx].
    + split; [by left | congruence].
    + split; [right; intros Hin; apply Hx; by right|].
      intros Heq. apply Hx. rewrite Heq. left.
Qed.

(** The loop over the sorted keys, started where enabling [stream] is no
    conflict: it does not raise, it keeps the group of [stream] and drops the
    other groups whose key it meets. *)
Lemma keep_stream_loop enable moduleName stream keys :
  ∀ c (streamDict : StreamDict),
    ModulePackageContainer.enable_conflict c moduleName stream = false ->
    ∃ c',
      for_loop (keep_stream_step enable moduleName stream) keys (c, streamDict)
      = ((c', filter (fun kv => kv.1 = stream ∨ kv.1 ∉ keys) streamDict), None)
      ∧ ModulePackageContainer.enable_conflict c' moduleName stream = false
      ∧ (enable = false -> c' = c)
      ∧ (enable = true ->
         stream ∈ keys
         ∨ (ModulePackageContainer.getModuleState c moduleName = STATE_ENABLED
            ∧ ModulePackageContainer.getEnabledStream c moduleName = stream
            ∧ moduleName ∈ ModulePackageContainer.pass_enabled c) ->
         ModulePackageContainer.getModuleState c' moduleName = STATE_ENABLED
         ∧ ModulePackageContainer.getEnabledStream c' moduleName = stream
         ∧ moduleName ∈ ModulePackageContainer.pass_enabled c').
Proof.
  induction keys as [|key keys IH]; intros c streamDict Hok.
  - exists c. split; [|split; [exact Hok|split; [reflexivity|]]].
    + cbn [for_loop]. f_equal. f_equal. symmetry. apply filter_all.
      intros x _. right. apply not_elem_of_nil.
    + intros _ [H|H]; [by apply elem_of_nil in H | exact H].
  - cbn [for_loop]. unfold keep_stream_step at 1. cbn [fst snd].
    destruct (decide (key = stream)) as [->|Hne].
    + destruct enable.
      * pose proof (enable_step_spec moduleName c stream) as Hstep.
        destruct (enable_step moduleName c stream) as [c1 [e|]]; cbn [fst snd] in *.
        { destruct Hstep as (_ & _ & Hbad). congruence. }
        destruct (enable_recorded _ _ _ _ Hstep) as (Hs1 & He1 & Hp1 & Hok1).
        destruct (IH c1 streamDict Hok1) as (c' & Heq & Hok' & _ & Hen).
        exists c'. rewrite Heq. split; [|split; [exact Hok'|split; [discriminate|]]].
        -- f_equal. f_equal. apply filter_keep_here.
        -- intros _ _. apply Hen; [reflexivity|]. right. by repeat split.
      * destruct (IH c streamDict Hok) as (c' & Heq & Hok' & Hsame & _).
        exists c'. rewrite Heq. split; [|split; [exact Hok'|split; [exact Hsame|]]].
        -- f_equal. f_equal. apply filter_keep_here.
        -- discriminate.
    + destruct (IH c (dict_del key streamDict) Hok) as (c' & Heq & Hok' & Hsame & Hen).
      exists c'. rewrite Heq. split; [|split; [exact Hok'|split; [exact Hsame|]]].
      * f_equal. f_equal. apply filter_keep_del, Hne.
      * intros He H. apply Hen; [exact He|].
        destruct H as [[?|H]%elem_of_cons|H]; [congruence | by left | by right].
Qed.

Lemma sorted_elem (keys : list string) (k : string) : k ∈ sorted keys <-> k ∈ keys.
Proof. unfold sorted. rewrite (merge_sort_Permutation str_le keys). reflexivity. Qed.

(** Enabling the winning stream is never a conflict of the container. *)
Lemma winning_stream_no_conflict c moduleName :
  ModulePackageContainer.enable_conflict c moduleName (winning_stream c moduleName)
  = false.
Proof.
  unfold ModulePackageContainer.enable_conflict, winning_stream.
  destruct (decide (ModulePackageContainer.getModuleState c moduleName = STATE_ENABLED))
    as [Hs|Hs].
  - rewrite String.eqb_refl. apply andb_false_r.
  - rewrite (bool_decide_eq_false_2 _ Hs), andb_false_r. reflexivity.
Qed.

(** What one pass of the loop over [moduleDict.items()] does. *)
Lemma resolve_stream_dict_spec enable c moduleName (streamDict : StreamDict) :
  stream_dict_wf streamDict ->
  ∃ c' r,
    resolve_stream_dict enable c moduleName streamDict = (c', r)
    ∧ (((1 < length streamDict)%nat
        ∧ stream_conflict c moduleName streamDict
        ∧ r = Raise (EnableMultipleStreamsException moduleName)
        ∧ c' = c)
       ∨ ((1 < length streamDict)%nat
          ∧ ¬ stream_conflict c moduleName streamDict
          ∧ (enable = false -> c' = c)
          ∧ (enable = true ->
             ModulePackageContainer.getModuleState c' moduleName = STATE_ENABLED
             ∧ ModulePackageContainer.getEnabledStream c' moduleName
               = winning_stream c moduleName
             ∧ moduleName ∈ ModulePackageContainer.pass_enabled c')
          ∧ ∃ group, (winning_stream c moduleName, group) ∈ streamDict
                     ∧ r = Ok [(winning_stream c moduleName, group)])
       ∨ (∃ stream group,
            streamDict = [(stream, group)]
            ∧ ((r = Ok streamDict
                ∧ (enable = false -> c' = c)
                ∧ (enable = true ->
                   ModulePackageContainer.enable c moduleName stream = Ok c'))
               ∨ (enable = true
                  ∧ r = Raise (EnableMultipleStreamsException moduleName)
                  ∧ c' = c
                  ∧ ModulePackageContainer.enable_conflict c moduleName stream
                    = true)))).
Proof.
  intros [Hnonempty Hnodup]. unfold resolve_stream_dict.
  destruct (Nat.ltb_spec 1 (length streamDict)) as [Hlen|Hlen].
  - destruct (bool_decide _ && bool_decide _) eqn:Hstate.
    + apply andb_true_iff in Hstate as [H1%bool_decide_eq_true H2%bool_decide_eq_true].
      eexists _, _. split; [reflexivity|].
      left. split; [exact Hlen|]. split; [left; by split | by split].
    + assert (¬ (ModulePackageContainer.getModuleState c moduleName ≠ STATE_DEFAULT
                 ∧ ModulePackageContainer.getModuleState c moduleName ≠ STATE_ENABLED))
        as Hok.
      { intros [H1 H2]. apply andb_false_iff in Hstate as [H|H];
          apply bool_decide_eq_false in H; contradiction. }
      destruct (bool_decide (winning_stream c moduleName ∉ dict_keys streamDict))
        eqn:Hwin.
      * apply bool_decide_eq_true in Hwin.
        eexists _, _. split; [reflexivity|].
        left. split; [exact Hlen|]. split; [by right | by split].
      * apply bool_decide_eq_false in Hwin.
        assert (winning_stream c moduleName ∈ dict_keys streamDict) as Hin.
        { destruct (decide (winning_stream c moduleName ∈ dict_keys streamDict));
            [assumption | contradiction]. }
        pose proof Hin as Hkey.
        apply list_elem_of_fmap in Hin as ([k group] & Hk & Hin). simpl in Hk. subst k.
        destruct (keep_stream_loop enable moduleName (winning_stream c moduleName)
                    (sorted (dict_keys streamDict)) c streamDict
                    (winning_stream_no_conflict c moduleName))
          as (c' & Heq & _ & Hsame & Hen).
        assert (filter (fun kv : string * list ModulePackage.t =>
                          kv.1 = winning_stream c moduleName
                          ∨ kv.1 ∉ sorted (dict_keys streamDict)) streamDict
                = [(winning_stream c moduleName, group)]) as Hfold.
        { rewrite <- (filter_key_singleton streamDict _ group Hnodup Hin).
          apply filter_ext_elem. intros x Hx. split; [|by left].
          intros [Heq'|Hnot]; [exact Heq'|]. exfalso. apply Hnot.
          apply sorted_elem. apply list_elem_of_fmap_2. exact Hx. }
        rewrite Heq, Hfold. cbn [fst snd length Nat.eqb].
        eexists _, _. split; [reflexivity|].
        right; left. split; [exact Hlen|]. split.
        { intros [Hbad|Hbad]; [apply Hok, Hbad | apply Hwin, Hbad]. }
        split; [exact Hsame|]. split.
        { intros He. apply Hen; [exact He|]. left. apply sorted_elem, Hkey. }
        exists group. split; [exact Hin | reflexivity].
  - destruct streamDict as [|[stream group] [|? ?]];
      [contradiction | | simpl in Hlen; lia].
    destruct enable.
    + cbn [dict_keys fmap list_fmap fst for_loop].
      pose proof (enable_step_spec moduleName c stream) as Hstep.
      destruct (enable_step moduleName c stream) as [c1 [e|]]; cbn [fst snd] in *.
      * destruct Hstep as (-> & -> & Hbad).
        eexists _, _. split; [reflexivity|]. right; right.
        exists stream, group. split; [reflexivity|]. right. by repeat split.
      * eexists _, _. split; [reflexivity|]. right; right.
        exists stream, group. split; [reflexivity|]. left.
        split; [reflexivity|]. split; [discriminate | intros _; exact Hstep].
    + cbn [length Nat.eqb]. eexists _, _. split; [reflexivity|]. right; right.
      exists stream, group. split; [reflexivity|]. left.
      split; [reflexivity|]. split; [reflexivity | discriminate].
Qed.

Lemma resolve_stream_dict_agree names enable c moduleName (streamDict : StreamDict) :
  moduleName ∉ names ->
  agree_on names c (resolve_stream_dict enable c moduleName streamDict).1.
Proof.
  intros Hname.
  apply (resolve_stream_dict_rel (agree_on names) (fun n => n ∉ names)); [|exact Hname].
  intros c0 name stream c' Hn. apply agree_on_enable, Hn.
Qed.

Lemma resolve_module_dict_agree names enable (moduleDict : ModuleDict) c :
  (∀ n, n ∈ dict_keys moduleDict -> n ∉ names) ->
  agree_on names c (resolve_module_dict enable c moduleDict).1.
Proof.
  intros Hnames.
  apply (resolve_module_dict_rel (agree_on names) (fun n => n ∉ names));
    [|exact Hnames].
  intros c0 name stream c' Hn. apply agree_on_enable, Hn.
Qed.

(** The loop over [moduleDict.items()], started at a container [c] that has
    for the names of the dict what [c0] has: the outcome in terms of [c0]. *)
Lemma resolve_module_dict_spec enable (moduleDict : ModuleDict) :
  ∀ c0 c,
    NoDup (dict_keys moduleDict) ->
    Forall (fun kv => stream_dict_wf kv.2) moduleDict ->
    agree_on (dict_keys moduleDict) c0 c ->
    match (resolve_module_dict enable c moduleDict).2 with
    | Ok moduleDict' =>
        Forall2 (resolved_group c0) moduleDict moduleDict'
        ∧ Forall (fun kv => (1 < length kv.2)%nat -> ¬ stream_conflict c0 kv.1 kv.2)
                 moduleDict
    | Raise e =>
        ∃ moduleName streamDict,
          e = EnableMultipleStreamsException moduleName
          ∧ (moduleName, streamDict) ∈ moduleDict
          ∧ (((1 < length streamDict)%nat
              ∧ stream_conflict c0 moduleName streamDict)
             ∨ (enable = true
                ∧ ∃ stream group,
                    streamDict = [(stream, group)]
                    ∧ ModulePackageContainer.enable_conflict c0 moduleName stream
                      = true
                    ∧ ModulePackageContainer.enable_conflict
                        (resolve_module_dict enable c moduleDict).1 moduleName stream
                      = true))
    end.
Proof.
  induction moduleDict as [|[moduleName streamDict] moduleDict IH];
    intros c0 c Hnodup Hwf Hagree.
  - simpl. split; constructor.
  - cbn [dict_keys fmap list_fmap fst] in Hnodup, Hagree.
    apply NoDup_cons in Hnodup as [Hname Hnodup].
    apply Forall_cons in Hwf as [Hsd Hwf]. cbn [snd] in Hsd.
    assert (moduleName ∈ moduleName :: moduleDict.*1) as Hhead by left.
    destruct (agree_on_state _ _ _ _ Hagree Hhead) as (_ & _ & Hwin & Hconflict).
    pose proof (agree_on_conflict _ _ _ _ streamDict Hagree Hhead) as Hconf.
    pose proof (resolve_stream_dict_agree (moduleDict.*1) enable c moduleName
                  streamDict Hname) as Hag'.
    destruct (resolve_stream_dict_spec enable c moduleName streamDict Hsd)
      as (c' & r & Heq & Hcases).
    rewrite Heq in Hag'. cbn [fst] in Hag'.
    assert (agree_on (dict_keys moduleDict) c0 c') as Hagree'.
    { eapply agree_on_trans; [|exact Hag'].
      eapply agree_on_weaken; [|exact Hagree]. intros n Hn. by right. }
    specialize (IH c0 c' Hnodup Hwf Hagree').
    pose proof (resolve_module_dict_agree [moduleName] enable moduleDict c') as Hkeep.
    cbn [resolve_module_dict]. rewrite Heq.
    destruct Hcases as [(Hlen & Hbad & -> & ->)
                       | [(Hlen & Hgood & _ & _ & group & Hin & ->)
                         | (stream & group & -> & [(-> & _)|(-> & -> & -> & Hbad)])]].
    + cbn [snd]. exists moduleName, streamDict.
      split; [reflexivity|]. split; [left|]. left.
      split; [exact Hlen | apply Hconf, Hbad].
    + destruct (resolve_module_dict enable c' moduleDict) as [c'' [rest|e]];
        cbn [fst snd] in IH |- *.
      * destruct IH as [Hall Hnone]. split.
        -- constructor; [|exact Hall]. split; [reflexivity|].
           exists (winning_stream c moduleName), group. cbn [fst snd].
           split; [reflexivity|]. split; [exact Hin|]. intros _. exact Hwin.
        -- constructor; [|exact Hnone]. cbn [fst snd]. intros _ Hbad.
           apply Hgood, Hconf, Hbad.
      * destruct IH as (n & sd & -> & Hin' & Hcase).
        exists n, sd. split; [reflexivity|]. split; [by right | exact Hcase].
    + destruct (resolve_module_dict enable c' moduleDict) as [c'' [rest|e]];
        cbn [fst snd] in IH |- *.
      * destruct IH as [Hall Hnone]. split.
        -- constructor; [|exact Hall]. split; [reflexivity|]. cbn [fst snd].
           exists stream, group. split; [reflexivity|]. split; [left|].
           simpl. lia.
        -- constructor; [|exact Hnone]. cbn [fst snd length]. lia.
      * destruct IH as (n & sd & -> & Hin' & Hcase).
        exists n, sd. split; [reflexivity|]. split; [by right | exact Hcase].
    + cbn [fst snd]. exists moduleName, [(stream, group)].
      split; [reflexivity|]. split; [left|]. right. split; [reflexivity|].
      exists stream, group. split; [reflexivity|].
      split; [rewrite <- Hconflict; exact Hbad | exact Hbad].
Qed.


Lemma Forall2_dict_keys {V W} (Q : string * V -> string * W -> Prop)
    (d : list (string * V)) (d' : list (string * W)) :
  (∀ kv kv', Q kv kv' -> kv'.1 = kv.1) ->
  Forall2 Q d d' -> dict_keys d' = dict_keys d.
Proof.
  intros HQ Hall. unfold dict_keys. induction Hall as [|kv kv' d d' H _ IH];
    [reflexivity|].
  cbn [fmap list_fmap]. f_equal; [exact (HQ _ _ H) | exact IH].
Qed.




(** ** [disable] *)

Lemma set_of_list_singleton (spec : string) : set_of_list [spec] = [spec].
Proof.
  unfold set_of_list. cbn [remove_dups].
  destruct (decide_rel elem_of spec []) as [H|_]; [|reflexivity].
  by apply elem_of_nil in H.
Qed.

Section Disable.

Variable nsvcap_possibilities : string -> list NSVCAP.
Variable filter_modules :
  Sack -> ModulePackageContainer.t -> list string -> bool -> Sack * list nat.

Lemma disable_names_spec names : ∀ c,
  ModulePackageContainer.modules (disable_names c names)
  = ModulePackageContainer.modules c
  ∧ ∀ n,
      (n ∈ names
       ∨ ModulePackageContainer.getModuleState c n = STATE_DISABLED) ->
      ModulePackageContainer.getModuleState (disable_names c names) n
      = STATE_DISABLED.
Proof.
  induction names as [|name names IH]; intros c.
  - split; [reflexivity|]. intros n [Hn|Hn]; [by apply elem_of_nil in Hn | exact Hn].
  - change (disable_names c (name :: names))
      with (disable_names (ModulePackageContainer.disable c name) names).
    destruct (IH (ModulePackageContainer.disable c name)) as [Hmodules Hstate].
    split; [rewrite Hmodules; reflexivity|].
    intros n Hn. apply Hstate.
    destruct (decide (n = name)) as [->|Hne].
    + right. unfold ModulePackageContainer.getModuleState. simpl.
      rewrite lookup_insert_eq. reflexivity.
    + destruct Hn as [[->|Hn]%elem_of_cons|Hn]; [contradiction | by left |].
      right. unfold ModulePackageContainer.getModuleState in *. simpl.
      rewrite lookup_insert_ne by congruence. exact Hn.
Qed.

Lemma _get_modules_same_catalog c c' spec :
  ModulePackageContainer.modules c' = ModulePackageContainer.modules c ->
  _get_modules nsvcap_possibilities c' spec = _get_modules nsvcap_possibilities c spec.
Proof.
  intros Hmodules. unfold _get_modules.
  induction (nsvcap_possibilities spec) as [|nsvcap rest IH]; [reflexivity|].
  cbn [_get_modules_loop]. unfold _get_modules_query, ModulePackageContainer.query.
  rewrite Hmodules, IH. reflexivity.
Qed.

Lemma disable_matched b spec module_list nsvcap :
  _get_modules nsvcap_possibilities (_moduleContainer b) spec
  = Some (module_list, nsvcap) ->
  (disable nsvcap_possibilities filter_modules b [spec]).2 = Ok tt
  ∧ ∃ ids,
      _moduleContainer (disable nsvcap_possibilities filter_modules b [spec]).1
      = ModulePackageContainer.set_active
          (disable_names (_moduleContainer b)
             (set_of_list (map ModulePackage.getName module_list))) ids.
Proof.
  intros Hget. unfold disable, _modules_reset_or_disable.
  rewrite set_of_list_singleton. cbn [fold_left fst snd].
  unfold reset_or_disable_spec. cbn [fst snd]. rewrite Hget. cbn [fst snd].
  split; [reflexivity|]. eexists. reflexivity.
Qed.

(** C8: when the spec matches the catalog, [disable([spec])] raises nothing
    and leaves every matched module name in state [DISABLED], whatever its
    state was before; a second [disable([spec])] right after it raises nothing
    either and the state is [DISABLED] again. *)
Theorem disable_idempotent b spec module_list nsvcap :
  _get_modules nsvcap_possibilities (_moduleContainer b) spec
  = Some (module_list, nsvcap) ->
  let first := disable nsvcap_possibilities filter_modules b [spec] in
  let second := disable nsvcap_possibilities filter_modules first.1 [spec] in
  first.2 = Ok tt
  ∧ second.2 = Ok tt
  ∧ ∀ m, m ∈ module_list ->
      ModulePackageContainer.getModuleState (_moduleContainer first.1)
        (ModulePackage.getName m) = STATE_DISABLED
      ∧ ModulePackageContainer.getModuleState (_moduleContainer second.1)
          (ModulePackage.getName m) = STATE_DISABLED.
Proof.
  intros Hget first second.
  destruct (disable_matched b spec module_list nsvcap Hget) as [Hok1 [ids1 Hc1]].
  fold first in Hok1, Hc1.
  destruct (disable_names_spec (set_of_list (map ModulePackage.getName module_list))
              (_moduleContainer b)) as [Hmodules1 Hstate1].
  assert (_get_modules nsvcap_possibilities (_moduleContainer first.1) spec
          = Some (module_list, nsvcap)) as Hget2.
  { rewrite <- Hget. apply _get_modules_same_catalog.
    rewrite Hc1. exact Hmodules1. }
  destruct (disable_matched first.1 spec module_list nsvcap Hget2) as [Hok2 [ids2 Hc2]].
  fold second in Hok2, Hc2.
  split; [exact Hok1|]. split; [exact Hok2|].
  intros m Hm.
  assert (ModulePackage.getName m
          ∈ set_of_list (map ModulePackage.getName module_list)) as Hname.
  { unfold set_of_list. apply elem_of_remove_dups.
    apply (list_elem_of_fmap_2 ModulePackage.getName). exact Hm. }
  split.
  - rewrite Hc1. apply Hstate1. by left.
  - rewrite Hc2.
    apply (disable_names_spec (set_of_list (map ModulePackage.getName module_list))).
    by left.
Qed.

End Disable.

(** ** [remove] *)

(** C1 fails on the code: the set difference with the kept package names is
    computed and dropped. Removing module ["nodejs"] asks for the removal of
    ["npm"], which the installed profile of module ["tools"] still needs. *)
Theorem remove_requests_kept_package :
  let r := remove name_only base_shared ["nodejs"] in
  r.2 = Ok []
  ∧ requests r.1 = [RemoveIfUnneeded [installed_pkg "nodejs"; installed_pkg "npm"]]
  ∧ ModulePackageContainer.getInstalledPkgNames (_moduleContainer r.1) = ["npm"]
  ∧ ModulePackageContainer.getInstalledProfiles (_moduleContainer r.1) "nodejs" = [].
Proof. vm_compute. repeat split; reflexivity. Qed.

(** ** The aggregate error of the batch operations *)

(** [reset] drops the list of unmatched specs and never raises. *)
Lemma reset_never_raises np fm b module_specs :
  (reset np fm b module_specs).2 = Ok tt.
Proof. reflexivity. Qed.

(** [enable] raises only for unmatched specs, and its error carries no error
    specs. *)
Lemma enable_raise_no_match np fm b module_specs rs b' :
  _resolve_specs_enable_update_sack np fm b module_specs = (b', Ok rs) ->
  (enable np fm b module_specs).2
  = match no_match_specs rs with
    | [] => Ok tt
    | _ => Raise (ModuleMarkingError (no_match_specs rs) [])
    end.
Proof.
  intros H. unfold enable. rewrite H. destruct (no_match_specs rs); reflexivity.
Qed.

(** C2 fails on the code. A spec that matches nothing makes [disable] raise
    and [reset] return normally; a spec whose two streams cannot be resolved
    is an error spec, which makes [install] raise and [enable] return
    normally. *)
Theorem enable_reset_drop_failures :
  (reset name_only keep_sack base_shared ["nonexistent"]).2 = Ok tt
  ∧ (disable name_only keep_sack base_shared ["nonexistent"]).2
    = Raise (ModuleMarkingError ["nonexistent"] [])
  ∧ (_resolve_specs_enable_update_sack name_only keep_sack
       (base_two_streams STATE_DISABLED ∅) ["m"]).2
    = Ok {| no_match_specs := []; error_spec := ["m"]; module_dicts := [] |}
  ∧ (enable name_only keep_sack (base_two_streams STATE_DISABLED ∅) ["m"]).2 = Ok tt
  ∧ (install name_only keep_sack (base_two_streams STATE_DISABLED ∅) ["m"] true).2
    = Raise (ModuleMarkingError [] ["m"]).
Proof. vm_compute. repeat split; reflexivity. Qed.

(** ** [install] *)

Global Instance grows_refl : Reflexive grows.
Proof. intros c. repeat split; auto. Qed.

Global Instance grows_trans : Transitive grows.
Proof.
  intros c1 c2 c3 (Ha & Hd & Hp) (Ha' & Hd' & Hp').
  split; [congruence|]. split; [congruence|]. auto.
Qed.

Lemma grows_install c m p : grows c (ModulePackageContainer.install c m p).
Proof.
  split; [reflexivity|]. split; [reflexivity|]. intros n q Hq.
  unfold ModulePackageContainer.install, ModulePackageContainer.getInstalledProfiles
    in *. simpl.
  destruct (bool_decide _); [exact Hq|].
  destruct (decide (ModulePackage.getName m = n)) as [->|Hne].
  - rewrite lookup_insert_eq. simpl. apply elem_of_app. by left.
  - rewrite lookup_insert_ne by exact Hne. exact Hq.
Qed.

Lemma install_records c m p :
  p ∈ ModulePackageContainer.getInstalledProfiles
        (ModulePackageContainer.install c m p) (ModulePackage.getName m).
Proof.
  unfold ModulePackageContainer.install, ModulePackageContainer.getInstalledProfiles.
  simpl. destruct (bool_decide _) eqn:Hin.
  - apply bool_decide_eq_true in Hin. exact Hin.
  - rewrite lookup_insert_eq. simpl. apply elem_of_app. right. left.
Qed.

Global Instance grows_on_refl {A} (container : A -> ModulePackageContainer.t) :
  Reflexive (grows_on container).
Proof. intros a. unfold grows_on. reflexivity. Qed.

Global Instance grows_on_trans {A} (container : A -> ModulePackageContainer.t) :
  Transitive (grows_on container).
Proof. intros a1 a2 a3. unfold grows_on. apply grows_trans. Qed.

(** A pass of the loop of [_resolve_specs_enable_update_sack] raises nothing:
    the conflicts of the resolution and of the container are caught. *)
Lemma resolve_spec_no_raise np (st : ModulePackageContainer.t * ResolvedSpecs) spec :
  (resolve_spec np st spec).2 = None.
Proof.
  unfold resolve_spec.
  destruct (_get_modules np st.1 spec) as [[module_list nsvcap]|]; [|reflexivity].
  unfold _create_module_dict_and_enable.
  destruct (group_modules_wf module_list) as [Hnodup Hwf].
  pose proof (resolve_module_dict_spec true (group_modules module_list) st.1 st.1
                Hnodup Hwf (agree_on_refl _ _)) as Hspec.
  destruct (resolve_module_dict true st.1 (group_modules module_list))
    as [c' [d|e']]; [reflexivity|].
  cbn [snd] in Hspec. destruct Hspec as (n & sd & -> & _). reflexivity.
Qed.

(** The resolution of the specs always returns. *)
Lemma _resolve_specs_enable_update_sack_returns np fm b module_specs :
  ∃ b' rs, _resolve_specs_enable_update_sack np fm b module_specs = (b', Ok rs).
Proof.
  unfold _resolve_specs_enable_update_sack.
  pose proof (for_loop_no_raise (resolve_spec np) (set_of_list module_specs)
                (_moduleContainer b,
                 {| no_match_specs := []; error_spec := []; module_dicts := [] |})
                (resolve_spec_no_raise np))
    as Hnone.
  destruct (for_loop _ _ _) as [[c rs] [e|]]; [discriminate|].
  eexists _, _. reflexivity.
Qed.

(** The resolution changes neither the catalog nor the install markers. *)
Lemma _resolve_specs_enable_update_sack_keeps np fm b module_specs :
  ModulePackageContainer.modules
    (_moduleContainer (_resolve_specs_enable_update_sack np fm b module_specs).1)
  = ModulePackageContainer.modules (_moduleContainer b)
  ∧ ModulePackageContainer.installed_profiles
      (_moduleContainer (_resolve_specs_enable_update_sack np fm b module_specs).1)
    = ModulePackageContainer.installed_profiles (_moduleContainer b).
Proof.
  unfold _resolve_specs_enable_update_sack.
  pose proof (for_loop_rel (on_container (keeps ModulePackageContainer.modules) fst)
                (resolve_spec np) (set_of_list module_specs)
                (_moduleContainer b,
                 {| no_match_specs := []; error_spec := []; module_dicts := [] |})
                (fun s x => resolve_spec_rel _ (fun _ => True) enable_keeps_modules
                              np s x (fun _ => I))) as Hm.
  pose proof (for_loop_rel
                (on_container (keeps ModulePackageContainer.installed_profiles) fst)
                (resolve_spec np) (set_of_list module_specs)
                (_moduleContainer b,
                 {| no_match_specs := []; error_spec := []; module_dicts := [] |})
                (fun s x => resolve_spec_rel _ (fun _ => True)
                              enable_keeps_installed_profiles np s x (fun _ => I)))
    as Hp.
  destruct (for_loop _ _ _) as [[c rs] [e|]]; split; assumption.
Qed.

Lemma install_profiles_grows spec latest_module install_module_list profiles acc :
  grows (ia_container acc)
    (ia_container (install_profiles spec latest_module install_module_list profiles acc)).
Proof.
  unfold install_profiles. cbn [ia_container].
  apply (fold_left_rel (grows_on ia_container)). intros s x.
  unfold grows_on. cbn [ia_container]. apply grows_install.
Qed.

Lemma default_profile_step_grows latest_module fallback
    (st : ModulePackageContainer.t * list ModuleProfile.t) profile :
  grows st.1 (default_profile_step latest_module fallback st profile).1.
Proof.
  unfold default_profile_step. cbn [fst].
  destruct (ModulePackage.getProfiles latest_module profile); [|reflexivity].
  destruct fallback; [apply grows_install | reflexivity].
Qed.

Lemma install_stream_spec spec nsvcap name acc entry :
  (install_stream spec nsvcap name acc entry).2 = None
  ∧ grows (ia_container acc) (ia_container (install_stream spec nsvcap name acc entry).1).
Proof.
  unfold install_stream.
  destruct (List.filter _ entry.2) as [|x install_module_list] eqn:Hfilter;
    [split; reflexivity|].
  destruct (_get_latest (x :: install_module_list)) as [latest_module|] eqn:Hlatest;
    [|discriminate].
  destruct (str_truthy (nsvcap_profile nsvcap)).
  - destruct (ModulePackage.getProfiles latest_module _); [split; reflexivity|].
    split; [reflexivity|]. apply install_profiles_grows.
  - split; [reflexivity|]. cbn [fst].
    etransitivity; [|apply install_profiles_grows]. cbn [ia_container].
    apply (fold_left_rel (grows_on fst)). intros; apply default_profile_step_grows.
Qed.

Lemma install_spec_spec acc entry :
  (install_spec acc entry).2 = None
  ∧ grows (ia_container acc) (ia_container (install_spec acc entry).1).
Proof.
  unfold install_spec. split.
  - apply for_loop_no_raise. intros s x. apply for_loop_no_raise.
    intros s' x'. apply install_stream_spec.
  - apply (for_loop_rel (grows_on ia_container)). intros s x.
    apply (for_loop_rel (grows_on ia_container)). intros s' x'.
    apply install_stream_spec.
Qed.

Lemma install_package_container strict install_base_query d : ∀ st,
  _moduleContainer (fold_left (install_package strict install_base_query) d st).1
  = _moduleContainer st.1.
Proof.
  induction d as [|entry d IH]; intros st; [reflexivity|].
  simpl. rewrite IH. unfold install_package.
  destruct (query_filter_name _ _); reflexivity.
Qed.

(** The fallback pass of the loop body of [install]: no profile asked for, no
    default profiles declared and no profile ["default"] on the latest
    version. The marker is recorded; no package is added to [install_dict]
    and no error is reported. *)
Lemma install_stream_fallback spec nsvcap name acc stream module_list latest_module :
  str_truthy (nsvcap_profile nsvcap) = false ->
  _get_latest
    (List.filter (fun x => ModulePackageContainer.isModuleActive (ia_container acc)
                             (ModulePackage.getId x)) module_list)
  = Some latest_module ->
  ModulePackageContainer.getDefaultProfiles (ia_container acc) name stream = [] ->
  ModulePackage.getProfiles latest_module "default" = [] ->
  install_stream spec nsvcap name acc (stream, module_list)
  = ({| ia_container :=
          ModulePackageContainer.install (ia_container acc) latest_module "default";
        ia_error_specs := ia_error_specs acc;
        ia_install_dict := ia_install_dict acc;
        ia_install_set_artefacts :=
          fold_left (fun s module => set_update s (ModulePackage.getArtifacts module))
            (List.filter
               (fun x => ModulePackageContainer.isModuleActive (ia_container acc)
                           (ModulePackage.getId x)) module_list)
            (ia_install_set_artefacts acc) |},
     None).
Proof.
  intros Hprofile Hlatest Hdefaults Hmissing.
  unfold install_stream. cbn [fst snd].
  destruct (List.filter _ module_list) as [|x install_module_list] eqn:Hfilter;
    [discriminate|].
  rewrite Hlatest, Hprofile, Hdefaults, set_of_list_singleton.
  cbn [fold_left]. unfold default_profile_step. rewrite Hmissing. reflexivity.
Qed.

(** C6: a spec without a profile, a (name, stream) without declared default
    profiles and a latest active version without a profile ["default"], all
    as the container has them once the specs are resolved and the sack is
    re-filtered: [install] still records an install marker for ["default"] on
    the module of that version, and the pass that does so adds no package and
    reports no error. *)
Theorem install_default_profile_fallback
    np fm b module_specs strict b1 rs spec nsvcap moduledict name streamdict
    stream module_list latest_module :
  _resolve_specs_enable_update_sack np fm b module_specs = (b1, Ok rs) ->
  (spec, (nsvcap, moduledict)) ∈ module_dicts rs ->
  (name, streamdict) ∈ moduledict ->
  (stream, module_list) ∈ streamdict ->
  str_truthy (nsvcap_profile nsvcap) = false ->
  _get_latest
    (List.filter (fun x => ModulePackageContainer.isModuleActive (_moduleContainer b1)
                             (ModulePackage.getId x)) module_list)
  = Some latest_module ->
  ModulePackageContainer.getDefaultProfiles (_moduleContainer b1) name stream = [] ->
  ModulePackage.getProfiles latest_module "default" = [] ->
  "default" ∈ ModulePackageContainer.getInstalledProfiles
                (_moduleContainer (install np fm b module_specs strict).1)
                (ModulePackage.getName latest_module)
  ∧ ∀ acc, grows (_moduleContainer b1) (ia_container acc) ->
      ia_install_dict (install_stream spec nsvcap name acc (stream, module_list)).1
      = ia_install_dict acc
      ∧ ia_error_specs (install_stream spec nsvcap name acc (stream, module_list)).1
        = ia_error_specs acc
      ∧ ia_container (install_stream spec nsvcap name acc (stream, module_list)).1
        = ModulePackageContainer.install (ia_container acc) latest_module "default".
Proof.
  intros Hresolve Hspec Hname Hstream Hprofile Hlatest Hdefaults Hmissing.
  assert (∀ acc, grows (_moduleContainer b1) (ia_container acc) ->
            install_stream spec nsvcap name acc (stream, module_list)
            = ({| ia_container :=
                    ModulePackageContainer.install (ia_container acc) latest_module
                      "default";
                  ia_error_specs := ia_error_specs acc;
                  ia_install_dict := ia_install_dict acc;
                  ia_install_set_artefacts :=
                    fold_left
                      (fun s module => set_update s (ModulePackage.getArtifacts module))
                      (List.filter
                         (fun x => ModulePackageContainer.isModuleActive
                                     (ia_container acc) (ModulePackage.getId x))
                         module_list)
                      (ia_install_set_artefacts acc) |}, None)) as Hstep.
  { intros acc (Hactive & Hdp & _).
    apply install_stream_fallback; [exact Hprofile | | | exact Hmissing].
    - unfold ModulePackageContainer.isModuleActive. rewrite Hactive. exact Hlatest.
    - unfold ModulePackageContainer.getDefaultProfiles. rewrite Hdp. exact Hdefaults. }
  split; [|intros acc Hacc; rewrite (Hstep acc Hacc); repeat split].
  unfold install. rewrite Hresolve.
  set (acc0 := {| ia_container := _moduleContainer b1;
                  ia_error_specs := error_spec rs;
                  ia_install_dict := [];
                  ia_install_set_artefacts := [] |}).
  pose proof (for_loop_no_raise install_spec (module_dicts rs) acc0
                (fun s x => proj1 (install_spec_spec s x))) as Hnone.
  (* the pass for [spec], then the one for [name], then the one for [stream] *)
  destruct (for_loop_reaches (grows_on ia_container) install_spec (module_dicts rs)
              acc0 (spec, (nsvcap, moduledict)) Hspec
              (fun s x => proj1 (install_spec_spec s x))
              (fun s x => proj2 (install_spec_spec s x)))
    as (acc1 & Hacc1 & Hrest1).
  unfold install_spec at 1 in Hrest1. cbn [fst snd] in Hrest1.
  destruct (for_loop_reaches (grows_on ia_container)
              (fun acc (name_streamdict : string * StreamDict) =>
                 for_loop (install_stream spec nsvcap name_streamdict.1)
                          name_streamdict.2 acc)
              moduledict acc1 (name, streamdict) Hname)
    as (acc2 & Hacc2 & Hrest2).
  { intros s x. apply for_loop_no_raise. intros; apply install_stream_spec. }
  { intros s x. apply (for_loop_rel (grows_on ia_container)).
    intros; apply install_stream_spec. }
  cbn [fst snd] in Hrest2.
  destruct (for_loop_reaches (grows_on ia_container)
              (install_stream spec nsvcap name) streamdict acc2
              (stream, module_list) Hstream)
    as (acc3 & Hacc3 & Hrest3).
  { intros; apply install_stream_spec. }
  { intros; apply install_stream_spec. }
  assert (grows (_moduleContainer b1) (ia_container acc3)) as Hgrows3.
  { etransitivity; [exact Hacc1|]. etransitivity; [exact Hacc2 | exact Hacc3]. }
  rewrite (Hstep acc3 Hgrows3) in Hrest3. unfold grows_on in Hrest3.
  cbn [fst ia_container] in Hrest3.
  assert (grows (ModulePackageContainer.install (ia_container acc3) latest_module
                   "default")
                (ia_container (for_loop install_spec (module_dicts rs) acc0).1))
    as Hfinal.
  { etransitivity; [exact Hrest3|]. etransitivity; [exact Hrest2 | exact Hrest1]. }
  destruct (for_loop install_spec (module_dicts rs) acc0) as [acc [e|]];
    [discriminate|].
  cbn [fst] in Hfinal.
  assert (_moduleContainer
            (fold_left
               (install_package strict
                  (query_nevra_strict (sack (with_container b1 (ia_container acc)))
                     (ia_install_set_artefacts acc)))
               (ia_install_dict acc)
               (with_container b1 (ia_container acc), ia_error_specs acc)).1
          = ia_container acc) as Hcontainer.
  { rewrite install_package_container. reflexivity. }
  destruct Hfinal as (_ & _ & Hmarkers).
  assert ("default" ∈ ModulePackageContainer.getInstalledProfiles (ia_container acc)
                        (ModulePackage.getName latest_module)) as Hmarker.
  { apply Hmarkers, install_records. }
  cbv zeta.
  destruct (no_match_specs rs), (fold_left _ _ _).2; cbn [fst];
    rewrite Hcontainer; exact Hmarker.
Qed.

(** [install] reports at its end: it returns, or raises the aggregate error
    with the two lists, one of them not empty. *)
Lemma install_outcome np fm b module_specs strict :
  (install np fm b module_specs strict).2 = Ok tt
  ∨ ∃ no_match error_specs,
      (install np fm b module_specs strict).2
      = Raise (ModuleMarkingError no_match error_specs)
      ∧ (no_match ≠ [] ∨ error_specs ≠ []).
Proof.
  unfold install.
  destruct (_resolve_specs_enable_update_sack_returns np fm b module_specs)
    as (b1 & rs & ->).
  pose proof (for_loop_no_raise install_spec (module_dicts rs)
                {| ia_container := _moduleContainer b1;
                   ia_error_specs := error_spec rs;
                   ia_install_dict := [];
                   ia_install_set_artefacts := [] |}
                (fun s x => proj1 (install_spec_spec s x))) as Hnone.
  destruct (for_loop install_spec _ _) as [acc [e|]]; [discriminate|].
  cbv zeta.
  destruct (no_match_specs rs) as [|x no_match];
    destruct (fold_left _ _ _).2 as [|y error_specs]; cbn [snd];
    [left; reflexivity | right | right | right];
    eexists _, _; (split; [reflexivity|]); [right | left | left]; discriminate.
Qed.

(** ** Concrete runs *)

(** No version of module ["m"] is active before the call: the versions of
    stream ["s"] become active when the stream is enabled and the sack is
    re-filtered. *)
Lemma install_default_profile_fallback_witness :
  "default" ∈ ModulePackageContainer.getInstalledProfiles
                (_moduleContainer
                   (install name_only activate_enabled (inactive base_one_stream)
                      ["m"] true).1)
                (ModulePackage.getName m_s_2).
Proof.
  eapply proj1.
  eapply (install_default_profile_fallback name_only activate_enabled
            (inactive base_one_stream)
            ["m"] true _ _ "m" _ _ "m" _ "s" [m_s_1; m_s_2] m_s_2).
  - vm_compute. reflexivity.
  - left.
  - left.
  - left.
  - reflexivity.
  - reflexivity.
  - reflexivity.
  - reflexivity.
Defined.

Lemma remove_profiles_not_installed_witness :
  _get_package_name_set_and_remove_profiles (_moduleContainer base_one_stream)
    [m_s_1; m_s_2] nsvcap_m_server true
  = (_moduleContainer base_one_stream, Ok []).
Proof.
  apply (remove_profiles_not_installed (_moduleContainer base_one_stream)
           [m_s_1; m_s_2] nsvcap_m_server true m_s_2 "server").
  - reflexivity.
  - reflexivity.
  - discriminate.
  - refine (bool_decide_unpack _ _). vm_compute. exact I.
Defined.

Lemma disable_idempotent_witness :
  let first := disable name_only keep_sack base_one_stream ["m"] in
  let second := disable name_only keep_sack first.1 ["m"] in
  first.2 = Ok tt
  ∧ second.2 = Ok tt
  ∧ ∀ m, m ∈ [m_s_1; m_s_2] ->
      ModulePackageContainer.getModuleState (_moduleContainer first.1)
        (ModulePackage.getName m) = STATE_DISABLED
      ∧ ModulePackageContainer.getModuleState (_moduleContainer second.1)
          (ModulePackage.getName m) = STATE_DISABLED.
Proof.
  apply (disable_idempotent name_only keep_sack base_one_stream "m"
           [m_s_1; m_s_2] (hd nsvcap_m_server (name_only "m"))).
  vm_compute. reflexivity.
Defined.


Example multi_stream_disabled :
  (_create_module_dict_and_enable
     (_moduleContainer (base_two_streams STATE_DISABLED {[ "m" := "b" ]}))
     [m_a; m_b] true).2
  = Raise (EnableMultipleStreamsException "m").
Proof. vm_compute. reflexivity. Qed.

Example multi_stream_default_not_matched :
  (_create_module_dict_and_enable
     (_moduleContainer (base_two_streams STATE_DEFAULT {[ "m" := "c" ]}))
     [m_a; m_b] true).2
  = Raise (EnableMultipleStreamsException "m").
Proof. vm_compute. reflexivity. Qed.

Example multi_stream_default_wins :
  let r := _create_module_dict_and_enable
             (_moduleContainer (base_two_streams STATE_DEFAULT {[ "m" := "b" ]}))
             [m_a; m_b] true in
  r.2 = Ok [("m", [("b", [m_b])])]
  ∧ ModulePackageContainer.getModuleState r.1 "m" = STATE_ENABLED
  ∧ ModulePackageContainer.getEnabledStream r.1 "m" = "b".
Proof. vm_compute. repeat split; reflexivity. Qed.

Example install_then_remove_round_trip :
  let installed := (install name_only keep_sack
                      (base_two_streams STATE_DEFAULT {[ "m" := "b" ]}) ["m"] true).1 in
  ModulePackageContainer.getInstalledProfiles (_moduleContainer installed) "m"
  = ["default"]
  ∧ ModulePackageContainer.getInstalledProfiles
      (_moduleContainer (remove name_only installed ["m"]).1) "m" = [].
Proof. vm_compute. split; reflexivity. Qed.

(** * Further properties *)

(** ** [_get_modules] *)

(** X1: [_get_modules] commits to the first parse of the spec that matches
    anything: the modules it returns are the non-empty answer of the query
    for the returned parse, and every parse tried before it matched nothing.
    It returns nothing exactly when no parse matches. *)
Theorem _get_modules_first_match np c spec :
  match _get_modules np c spec with
  | Some (modules, nsvcap) =>
      modules ≠ []
      ∧ modules = _get_modules_query c nsvcap
      ∧ ∃ before after,
          np spec = before ++ nsvcap :: after
          ∧ Forall (fun n => _get_modules_query c n = []) before
  | None => Forall (fun n => _get_modules_query c n = []) (np spec)
  end.
Proof.
  unfold _get_modules. induction (np spec) as [|n rest IH]; cbn [_get_modules_loop].
  - constructor.
  - destruct (_get_modules_query c n) as [|m modules] eqn:Hquery.
    + destruct (_get_modules_loop c rest) as [[modules nsvcap]|].
      * destruct IH as (Hne & Heq & before & after & -> & Hbefore).
        split; [exact Hne|]. split; [exact Heq|].
        exists (n :: before), after. split; [reflexivity|].
        constructor; assumption.
      * constructor; assumption.
    + split; [discriminate|]. split; [symmetry; exact Hquery|].
      exists [], rest. split; [reflexivity | constructor].
Qed.

(** ** The grouping of [_create_module_dict_and_enable] *)

(** X2: the first loop of [_create_module_dict_and_enable] groups the modules
    by name and then by stream and loses none: no name and no stream occurs
    twice, the group of a name and a stream is not empty and holds exactly
    the modules of the list with that name and stream, in the order of the
    list, and every module of the list is in the group of its name and
    stream. *)
Theorem group_modules_partition (module_list : list ModulePackage.t) :
  NoDup (dict_keys (group_modules module_list))
  ∧ (∀ n sd, (n, sd) ∈ group_modules module_list ->
       sd ≠ [] ∧ NoDup (dict_keys sd)
       ∧ ∀ s g, (s, g) ∈ sd ->
           g ≠ []
           ∧ g = filter (fun m => ModulePackage.getName m = n
                                  ∧ ModulePackage.getStream m = s) module_list)
  ∧ (∀ m, m ∈ module_list ->
       ∃ sd g, (ModulePackage.getName m, sd) ∈ group_modules module_list
               ∧ (ModulePackage.getStream m, g) ∈ sd ∧ m ∈ g).
Proof.
  destruct (group_modules_wf module_list) as [Hnodup Hwf].
  destruct (group_modules_groups module_list) as [Ha Hb].
  rewrite Forall_forall in Hwf.
  split; [exact Hnodup|]. split; [|exact Hb].
  intros n sd Hsd. destruct (Hwf _ Hsd) as [Hne Hnd].
  split; [exact Hne|]. split; [exact Hnd|]. intros s g. apply Ha, Hsd.
Qed.

(** ** [_create_module_dict_and_enable] and the container *)

Lemma keep_stream_loop_read_only moduleName stream keys :
  ∀ c (streamDict : StreamDict),
    (for_loop (keep_stream_step false moduleName stream) keys (c, streamDict)).1.1 = c.
Proof.
  induction keys as [|key keys IH]; intros c streamDict; [reflexivity|].
  cbn [for_loop]. unfold keep_stream_step at 1. cbn [fst snd].
  destruct (decide (key = stream)); apply IH.
Qed.

Lemma resolve_stream_dict_read_only c moduleName (streamDict : StreamDict) :
  (resolve_stream_dict false c moduleName streamDict).1 = c.
Proof.
  unfold resolve_stream_dict.
  destruct (1 <? length streamDict)%nat.
  - destruct (bool_decide _ && bool_decide _); [reflexivity|].
    destruct (bool_decide _); [reflexivity|].
    pose proof (keep_stream_loop_read_only moduleName (winning_stream c moduleName)
                  (sorted (dict_keys streamDict)) c streamDict) as H.
    destruct (for_loop _ _ _) as [r [e|]]; cbn [fst snd] in H |- *; [exact H|].
    destruct (length r.2 =? 1)%nat; exact H.
  - destruct (length _ =? 1)%nat; reflexivity.
Qed.

Lemma resolve_module_dict_read_only (moduleDict : ModuleDict) c :
  (resolve_module_dict false c moduleDict).1 = c.
Proof.
  induction moduleDict as [|[moduleName streamDict] moduleDict IH]; [reflexivity|].
  cbn [resolve_module_dict].
  pose proof (resolve_stream_dict_read_only c moduleName streamDict) as Hstep.
  destruct (resolve_stream_dict false c moduleName streamDict) as [c1 [sd|e]];
    cbn [fst] in Hstep; subst c1; [|reflexivity].
  destruct (resolve_module_dict false c moduleDict) as [c2 [rest|e]];
    cbn [fst] in IH; subst c2; reflexivity.
Qed.

(** One pass for a name, with and without enabling, at containers that have
    the same for the name: the enabling pass gives what the other one gives,
    unless the container refuses to enable the one stream of the name. *)
Lemma resolve_stream_dict_outcome c c' moduleName (streamDict : StreamDict) :
  stream_dict_wf streamDict ->
  ModulePackageContainer.getModuleState c' moduleName
  = ModulePackageContainer.getModuleState c moduleName ->
  winning_stream c' moduleName = winning_stream c moduleName ->
  (resolve_stream_dict true c' moduleName streamDict).2
  = (resolve_stream_dict false c moduleName streamDict).2
  ∨ ∃ stream group,
      streamDict = [(stream, group)]
      ∧ (resolve_stream_dict true c' moduleName streamDict).2
        = Raise (EnableMultipleStreamsException moduleName)
      ∧ (resolve_stream_dict false c moduleName streamDict).2 = Ok streamDict
      ∧ ModulePackageContainer.enable_conflict c' moduleName stream = true.
Proof.
  intros Hwf Hstate Hwin.
  destruct (resolve_stream_dict_spec true c' moduleName streamDict Hwf)
    as (c1' & r' & Heq' & Hcases').
  destruct (resolve_stream_dict_spec false c moduleName streamDict Hwf)
    as (c1 & r & Heq & Hcases).
  rewrite Heq', Heq. cbn [snd].
  assert (stream_conflict c' moduleName streamDict
          <-> stream_conflict c moduleName streamDict) as Hconf.
  { unfold stream_conflict. rewrite Hstate, Hwin. reflexivity. }
  destruct Hcases' as [(Hlen' & Hbad' & -> & _)
                      | [(Hlen' & Hgood' & _ & _ & group' & Hin' & ->)
                        | (stream' & group' & Hsd' & Hcase')]];
    destruct Hcases as [(Hlen & Hbad & -> & _)
                       | [(Hlen & Hgood & _ & _ & group & Hin & ->)
                         | (stream & group & Hsd & Hcase)]].
  - by left.
  - exfalso. apply Hgood, Hconf, Hbad'.
  - exfalso. subst streamDict. simpl in Hlen'. lia.
  - exfalso. apply Hgood', Hconf, Hbad.
  - left. rewrite Hwin in Hin' |- *.
    destruct Hwf as [_ Hnodup].
    rewrite (dict_lookup_unique _ _ _ _ Hnodup Hin' Hin). reflexivity.
  - exfalso. subst streamDict. simpl in Hlen'. lia.
  - exfalso. subst streamDict. simpl in Hlen. lia.
  - exfalso. subst streamDict. simpl in Hlen. lia.
  - destruct Hcase as [(-> & _)|(He & _)]; [|discriminate].
    destruct Hcase' as [(-> & _)|(_ & -> & _ & Hbad)]; [by left|].
    right. exists stream', group'. by repeat split.
Qed.

(** The loop over the names, with and without enabling. *)
Lemma resolve_module_dict_outcome (moduleDict : ModuleDict) : ∀ c c',
  NoDup (dict_keys moduleDict) ->
  Forall (fun kv => stream_dict_wf kv.2) moduleDict ->
  agree_on (dict_keys moduleDict) c c' ->
  (resolve_module_dict true c' moduleDict).2
  = (resolve_module_dict false c moduleDict).2
  ∨ ∃ moduleName stream group,
      (moduleName, [(stream, group)]) ∈ moduleDict
      ∧ (resolve_module_dict true c' moduleDict).2
        = Raise (EnableMultipleStreamsException moduleName)
      ∧ ModulePackageContainer.enable_conflict c moduleName stream = true.
Proof.
  induction moduleDict as [|[moduleName streamDict] moduleDict IH];
    intros c c' Hnodup Hwf Hagree; [by left|].
  cbn [dict_keys fmap list_fmap fst] in Hnodup, Hagree.
  apply NoDup_cons in Hnodup as [Hname Hnodup].
  apply Forall_cons in Hwf as [Hsd Hwf]. cbn [snd] in Hsd.
  assert (moduleName ∈ moduleName :: moduleDict.*1) as Hhead by left.
  destruct (agree_on_state _ _ _ _ Hagree Hhead) as (Hstate & _ & Hwin & Hconflict).
  pose proof (resolve_stream_dict_read_only c moduleName streamDict) as Hsame.
  pose proof (resolve_stream_dict_agree (moduleDict.*1) true c' moduleName streamDict
                Hname) as Hagree'.
  cbn [resolve_module_dict].
  destruct (resolve_stream_dict_outcome c c' moduleName streamDict Hsd Hstate Hwin)
    as [Hout|(stream & group & -> & Hraise & _ & Hbad)].
  - destruct (resolve_stream_dict true c' moduleName streamDict) as [c1' r'].
    destruct (resolve_stream_dict false c moduleName streamDict) as [c1 r].
    cbn [fst snd] in Hsame, Hout, Hagree'. subst c1 r'.
    destruct r as [sd|e]; [|by left].
    assert (agree_on (dict_keys moduleDict) c c1') as Hrest.
    { eapply agree_on_trans; [|exact Hagree'].
      eapply agree_on_weaken; [|exact Hagree]. intros n Hn. by right. }
    destruct (IH c c1' Hnodup Hwf Hrest)
      as [Heq|(n & s & g & Hin & Hraise & Hbad)].
    + left. destruct (resolve_module_dict true c1' moduleDict) as [c2' [rest'|e']],
               (resolve_module_dict false c moduleDict) as [c2 [rest|e]];
        cbn [snd] in Heq |- *; congruence.
    + right. exists n, s, g. split; [by right|]. split; [|exact Hbad].
      destruct (resolve_module_dict true c1' moduleDict) as [c2' [rest'|e']];
        cbn [snd] in Hraise |- *; [discriminate | exact Hraise].
  - right. exists moduleName, stream, group. split; [left|].
    split; [|rewrite <- Hconflict; exact Hbad].
    destruct (resolve_stream_dict true c' moduleName [(stream, group)]) as [c1' r'].
    cbn [snd] in Hraise. subst r'. reflexivity.
Qed.

Lemma create_without_enable_container
    (c : ModulePackageContainer.t) (module_list : list ModulePackage.t) :
  (_create_module_dict_and_enable c module_list false).1 = c.
Proof. unfold _create_module_dict_and_enable. apply resolve_module_dict_read_only. Qed.

(** X3: without enabling, [_create_module_dict_and_enable] is a read-only
    resolution: it leaves the container as it is, whether it returns or
    raises. The enabling call differs from it in the outcome only where the
    container refuses to enable a stream: a dictionary that the enabling call
    returns is the one the read-only call returns, an exception of the
    read-only call means that the enabling call raises as well, and the two
    outcomes are the same when no module name of the list had a stream
    enabled in this pass. *)
Theorem _create_module_dict_and_enable_read_only
    (c : ModulePackageContainer.t) (module_list : list ModulePackage.t) :
  (_create_module_dict_and_enable c module_list false).1 = c
  ∧ (∀ moduleDict,
       (_create_module_dict_and_enable c module_list true).2 = Ok moduleDict ->
       (_create_module_dict_and_enable c module_list false).2 = Ok moduleDict)
  ∧ (∀ e, (_create_module_dict_and_enable c module_list false).2 = Raise e ->
       ∃ name, (_create_module_dict_and_enable c module_list true).2
               = Raise (EnableMultipleStreamsException name))
  ∧ ((∀ m, m ∈ module_list ->
        ModulePackage.getName m ∉ ModulePackageContainer.pass_enabled c) ->
     (_create_module_dict_and_enable c module_list false).2
     = (_create_module_dict_and_enable c module_list true).2).
Proof.
  unfold _create_module_dict_and_enable.
  destruct (group_modules_wf module_list) as [Hnodup Hwf].
  destruct (group_modules_groups module_list) as [Hgroups _].
  destruct (resolve_module_dict_outcome (group_modules module_list) c c Hnodup Hwf
              (agree_on_refl _ _)) as [Heq|(n & s & g & Hin & Hraise & Hbad)].
  - split; [apply resolve_module_dict_read_only|]. rewrite Heq.
    split; [auto|]. split; [|auto].
    intros e He.
    pose proof (resolve_module_dict_spec false (group_modules module_list) c c
                  Hnodup Hwf (agree_on_refl _ _)) as Hspec.
    rewrite He in Hspec. destruct Hspec as (name & _ & -> & _).
    exists name. exact He.
  - split; [apply resolve_module_dict_read_only|]. rewrite Hraise.
    split; [discriminate|]. split; [intros; by exists n|].
    intros Hfresh. exfalso.
    apply enable_conflict_true in Hbad as (Hpass & _).
    destruct (Hgroups n _ s g Hin) as [Hne Hfilter]; [left|].
    destruct g as [|m g]; [contradiction|].
    assert (m ∈ m :: g) as Hm by left. rewrite Hfilter in Hm.
    apply list_elem_of_filter in Hm as [[Hname _] Hm].
    apply (Hfresh m Hm). rewrite Hname. exact Hpass.
Qed.

(** The pass for one name, enabling: the name comes out enabled on the stream
    of the group that is left, by a call of this pass. *)
Lemma resolve_stream_dict_enables c moduleName (streamDict : StreamDict) c' streamDict' :
  stream_dict_wf streamDict ->
  resolve_stream_dict true c moduleName streamDict = (c', Ok streamDict') ->
  ∃ stream group,
    streamDict' = [(stream, group)]
    ∧ (stream, group) ∈ streamDict
    ∧ ModulePackageContainer.getModuleState c' moduleName = STATE_ENABLED
    ∧ ModulePackageContainer.getEnabledStream c' moduleName = stream
    ∧ moduleName ∈ ModulePackageContainer.pass_enabled c'.
Proof.
  intros Hwf Hres.
  destruct (resolve_stream_dict_spec true c moduleName streamDict Hwf)
    as (c1 & r & Heq & Hcases).
  rewrite Hres in Heq. injection Heq as <- <-.
  destruct Hcases as [(_ & _ & Hr & _)
                     | [(_ & _ & _ & Hen & group & Hin & Hr)
                       | (stream & group & -> & [(Hr & _ & Hen)|(_ & Hr & _)])]];
    try discriminate.
  - injection Hr as ->. exists (winning_stream c moduleName), group.
    split; [reflexivity|]. split; [exact Hin|]. exact (Hen eq_refl).
  - injection Hr as ->. exists stream, group. split; [reflexivity|]. split; [left|].
    destruct (enable_recorded _ _ _ _ (Hen eq_refl)) as (Hs & He & Hp & _).
    by repeat split.
Qed.

Lemma resolve_module_dict_enables (moduleDict : ModuleDict) : ∀ c c' moduleDict',
  NoDup (dict_keys moduleDict) ->
  Forall (fun kv => stream_dict_wf kv.2) moduleDict ->
  resolve_module_dict true c moduleDict = (c', Ok moduleDict') ->
  ∀ n sd', (n, sd') ∈ moduleDict' ->
    ∃ sd stream group,
      (n, sd) ∈ moduleDict
      ∧ sd' = [(stream, group)]
      ∧ (stream, group) ∈ sd
      ∧ ModulePackageContainer.getModuleState c' n = STATE_ENABLED
      ∧ ModulePackageContainer.getEnabledStream c' n = stream
      ∧ n ∈ ModulePackageContainer.pass_enabled c'.
Proof.
  induction moduleDict as [|[moduleName streamDict] moduleDict IH];
    intros c c' moduleDict' Hnodup Hwf Hres n sd' Hin.
  - cbn in Hres. injection Hres as <- <-. by apply elem_of_nil in Hin.
  - cbn [dict_keys fmap list_fmap fst] in Hnodup.
    apply NoDup_cons in Hnodup as [Hname Hnodup].
    apply Forall_cons in Hwf as [Hsd Hwf]. cbn [snd] in Hsd.
    cbn [resolve_module_dict] in Hres.
    destruct (resolve_stream_dict true c moduleName streamDict) as [c1 [sd1|e]]
      eqn:Hstep; [|discriminate].
    pose proof (resolve_module_dict_agree [moduleName] true moduleDict c1) as Hag.
    destruct (resolve_module_dict true c1 moduleDict) as [c2 [rest|e]] eqn:Hrest;
      [|discriminate].
    injection Hres as <- <-. cbn [fst] in Hag.
    apply elem_of_cons in Hin as [[= -> ->]|Hin].
    + destruct (resolve_stream_dict_enables _ _ _ _ _ Hsd Hstep)
        as (stream & group & -> & Hgroup & Hstate & Hstream & Hpass).
      exists streamDict, stream, group.
      split; [left|]. split; [reflexivity|]. split; [exact Hgroup|].
      destruct Hag as [_ Hag].
      { intros x Hx ->%list_elem_of_singleton. exact (Hname Hx). }
      destruct (Hag moduleName) as (Hs & He & Hp); [left|].
      unfold ModulePackageContainer.getModuleState,
        ModulePackageContainer.getEnabledStream in *.
      rewrite Hs, He. split; [exact Hstate|]. split; [exact Hstream|].
      apply Hp, Hpass.
    + destruct (IH c1 c2 rest Hnodup Hwf Hrest n sd' Hin)
        as (sd & stream & group & Hsd' & Heq & Hgroup & Hstate).
      exists sd, stream, group. split; [by right | by split].
Qed.

(** X4: when the enabling call returns, every module name of the list is
    left with exactly one stream group, the modules of the list with that
    name and stream, and the container has the name enabled on that
    stream. *)
Theorem _create_module_dict_and_enable_enables
    (c c' : ModulePackageContainer.t) (module_list : list ModulePackage.t)
    (moduleDict : ModuleDict) :
  _create_module_dict_and_enable c module_list true = (c', Ok moduleDict) ->
  (∀ m, m ∈ module_list -> ModulePackage.getName m ∈ dict_keys moduleDict)
  ∧ ∀ n sd, (n, sd) ∈ moduleDict ->
      ∃ stream group,
        sd = [(stream, group)]
        ∧ group ≠ []
        ∧ group = filter (fun m => ModulePackage.getName m = n
                                   ∧ ModulePackage.getStream m = stream) module_list
        ∧ ModulePackageContainer.getModuleState c' n = STATE_ENABLED
        ∧ ModulePackageContainer.getEnabledStream c' n = stream.
Proof.
  unfold _create_module_dict_and_enable. intros Hres.
  destruct (group_modules_wf module_list) as [Hnodup Hwf].
  destruct (group_modules_groups module_list) as [Hgroups Hcover].
  split.
  - intros m Hm. destruct (Hcover m Hm) as (sd & g & Hsd & _).
    pose proof (resolve_module_dict_spec true (group_modules module_list) c c
                  Hnodup Hwf (agree_on_refl _ _)) as Hspec.
    rewrite Hres in Hspec. cbn [snd] in Hspec. destruct Hspec as [Hall _].
    apply (dict_key_elem _ _ sd) in Hsd as Hkey.
    rewrite (Forall2_dict_keys (resolved_group c) _ _ (fun _ _ H => proj1 H) Hall).
    exact Hkey.
  - intros n sd' Hin.
    destruct (resolve_module_dict_enables _ _ _ _ Hnodup Hwf Hres n sd' Hin)
      as (sd & stream & group & Hsd & -> & Hgroup & Hstate & Hstream & _).
    destruct (Hgroups n sd stream group Hsd Hgroup) as [Hne Heq].
    exists stream, group. repeat split; assumption.
Qed.

(** ** The resolution of a batch of specs *)

Lemma matches_catalog_same np c c' spec :
  ModulePackageContainer.modules c' = ModulePackageContainer.modules c ->
  matches_catalog np c' spec = matches_catalog np c spec.
Proof.
  intros H. unfold matches_catalog.
  rewrite (_get_modules_same_catalog np c c' spec H). reflexivity.
Qed.

(** The loop of [_resolve_specs_enable_update_sack] over specs that are
    distinct and not yet keys of [module_dicts]. *)
Lemma resolve_loop_accounting np c0 specs : ∀ c rs,
  ModulePackageContainer.modules c = ModulePackageContainer.modules c0 ->
  NoDup specs ->
  (∀ x, x ∈ specs -> x ∉ dict_keys (module_dicts rs)) ->
  ∃ c' rs',
    for_loop (resolve_spec np) specs (c, rs) = ((c', rs'), None)
    ∧ no_match_specs rs'
      = no_match_specs rs
        ++ filter (fun spec => matches_catalog np c0 spec = false) specs
    ∧ error_spec rs' ++ dict_keys (module_dicts rs')
      ≡ₚ (error_spec rs ++ dict_keys (module_dicts rs))
         ++ filter (fun spec => matches_catalog np c0 spec = true) specs
    ∧ (∀ k, k ∈ dict_keys (module_dicts rs') ->
         k ∈ dict_keys (module_dicts rs) ∨ k ∈ specs).
Proof.
  induction specs as [|x specs IH]; intros c rs Hmodules Hnodup Hfresh.
  - exists c, rs. split; [reflexivity|]. rewrite !filter_nil, !app_nil_r.
    split; [reflexivity|]. split; [reflexivity|]. intros k Hk. by left.
  - apply NoDup_cons in Hnodup as [Hx Hnodup].
    pose proof (resolve_spec_no_raise np (c, rs) x) as Hnone.
    pose proof (resolve_spec_rel (keeps ModulePackageContainer.modules)
                  (fun _ => True) enable_keeps_modules np (c, rs) x (fun _ => I))
      as Hkeep.
    cbn [for_loop].
    assert (matches_catalog np c0 x = matches_catalog np c x) as Hmatch.
    { symmetry. apply matches_catalog_same. exact Hmodules. }
    unfold resolve_spec in Hnone, Hkeep |- *. unfold matches_catalog at 2 in Hmatch.
    cbn [fst snd] in Hnone, Hkeep |- *.
    destruct (_get_modules np c x) as [[module_list nsvcap]|].
    + destruct (_create_module_dict_and_enable c module_list true) as [c1 [md|e]].
      * cbn [fst snd] in Hkeep. unfold keeps in Hkeep.
        destruct (IH c1
                    {| no_match_specs := no_match_specs rs;
                       error_spec := error_spec rs;
                       module_dicts :=
                         dict_setdefault_update x (nsvcap, md)
                           (fun _ => (nsvcap, md)) (module_dicts rs) |})
          as (c' & rs' & Heq & Hno & Hperm & Hkeys); [congruence | exact Hnodup | |].
        { intros y Hy. cbn [module_dicts]. rewrite dict_setdefault_update_keys.
          rewrite decide_False by (apply Hfresh; left).
          intros [Hin|Hin%list_elem_of_singleton]%elem_of_app;
            [|subst y; contradiction].
          apply (Hfresh y); [by right | exact Hin]. }
        exists c', rs'. split; [exact Heq|]. cbn [no_match_specs error_spec module_dicts]
          in Hno, Hperm, Hkeys.
        rewrite dict_setdefault_update_keys in Hperm, Hkeys.
        rewrite decide_False in Hperm, Hkeys by (apply Hfresh; left).
        rewrite (filter_cons_False _ x) by (rewrite Hmatch; discriminate).
        rewrite (filter_cons_True _ x) by (rewrite Hmatch; reflexivity).
        split; [exact Hno|]. split.
        -- rewrite Hperm. rewrite <- !(assoc app). reflexivity.
        -- intros k Hk.
           destruct (Hkeys k Hk) as [[?|Hk'%list_elem_of_singleton]%elem_of_app|?].
           ++ by left.
           ++ right. subst k. left.
           ++ right. by right.
      * destruct e; try discriminate Hnone.
        cbn [fst snd] in Hkeep. unfold keeps in Hkeep.
        destruct (IH c1
                    {| no_match_specs := no_match_specs rs;
                       error_spec := error_spec rs ++ [x];
                       module_dicts := module_dicts rs |})
          as (c' & rs' & Heq & Hno & Hperm & Hkeys); [congruence | exact Hnodup | |].
        { intros y Hy. apply Hfresh. by right. }
        exists c', rs'. split; [exact Heq|]. cbn [no_match_specs error_spec module_dicts]
          in Hno, Hperm, Hkeys.
        rewrite (filter_cons_False _ x) by (rewrite Hmatch; discriminate).
        rewrite (filter_cons_True _ x) by (rewrite Hmatch; reflexivity).
        split; [exact Hno|]. split.
        -- rewrite Hperm. rewrite <- !(assoc app). apply Permutation_app_head.
           cbn [app]. rewrite (Permutation_middle (dict_keys (module_dicts rs))).
           reflexivity.
        -- intros k Hk. destruct (Hkeys k Hk); [by left | right; by right].
    + destruct (IH c
                  {| no_match_specs := no_match_specs rs ++ [x];
                     error_spec := error_spec rs;
                     module_dicts := module_dicts rs |})
        as (c' & rs' & Heq & Hno & Hperm & Hkeys); [exact Hmodules | exact Hnodup | |].
      { intros y Hy. apply Hfresh. by right. }
      exists c', rs'. split; [exact Heq|]. cbn [no_match_specs error_spec module_dicts]
        in Hno, Hperm, Hkeys.
      rewrite (filter_cons_True _ x) by (rewrite Hmatch; reflexivity).
      rewrite (filter_cons_False _ x) by (rewrite Hmatch; discriminate).
      split; [rewrite Hno, <- (assoc app); reflexivity|]. split; [exact Hperm|].
      intros k Hk. destruct (Hkeys k Hk); [by left | right; by right].
Qed.

(** X5: [_resolve_specs_enable_update_sack] always returns, and it accounts
    for every distinct spec exactly once: [no_match_specs] holds the specs
    that match nothing in the catalog, and each spec that matches something
    is either in [error_spec] or a key of [module_dicts]. *)
Theorem _resolve_specs_enable_update_sack_accounting np fm b module_specs :
  ∃ b' rs,
    _resolve_specs_enable_update_sack np fm b module_specs = (b', Ok rs)
    ∧ no_match_specs rs
      = filter (fun spec => matches_catalog np (_moduleContainer b) spec = false)
               (set_of_list module_specs)
    ∧ error_spec rs ++ dict_keys (module_dicts rs)
      ≡ₚ filter (fun spec => matches_catalog np (_moduleContainer b) spec = true)
                (set_of_list module_specs)
    ∧ no_match_specs rs ++ error_spec rs ++ dict_keys (module_dicts rs)
      ≡ₚ set_of_list module_specs.
Proof.
  destruct (resolve_loop_accounting np (_moduleContainer b) (set_of_list module_specs)
              (_moduleContainer b)
              {| no_match_specs := []; error_spec := []; module_dicts := [] |})
    as (c' & rs' & Heq & Hno & Hperm & _).
  - reflexivity.
  - apply NoDup_remove_dups.
  - intros x _. apply not_elem_of_nil.
  - unfold _resolve_specs_enable_update_sack. rewrite Heq.
    eexists _, rs'. split; [reflexivity|].
    cbn [no_match_specs error_spec module_dicts dict_keys fmap list_fmap app]
      in Hno, Hperm.
    split; [exact Hno|]. split; [exact Hperm|].
    rewrite Hno, Hperm.
    rewrite <- (filter_app_complement
                  (fun spec => matches_catalog np (_moduleContainer b) spec = true)
                  (set_of_list module_specs)) at 3.
    rewrite (comm app). apply Permutation_app_head.
    erewrite (list_filter_iff _
                (fun x => ¬ matches_catalog np (_moduleContainer b) x = true));
      [reflexivity|].
    intros x. destruct (matches_catalog np (_moduleContainer b) x); split; congruence.
Qed.

(** ** [enable] *)

Global Instance enabled_kept_refl : Reflexive enabled_kept.
Proof. intros c n Hp Hs. by repeat split. Qed.

Global Instance enabled_kept_trans : Transitive enabled_kept.
Proof.
  intros c1 c2 c3 H1 H2 n Hp Hs. destruct (H1 n Hp Hs) as (Hp2 & Hs2 & He2).
  destruct (H2 n Hp2 Hs2) as (Hp3 & Hs3 & He3). split; [exact Hp3|].
  split; [exact Hs3 | congruence].
Qed.


Global Instance catalog_and_enabled_kept_refl : Reflexive catalog_and_enabled_kept.
Proof. intros c. split; reflexivity. Qed.

Global Instance catalog_and_enabled_kept_trans : Transitive catalog_and_enabled_kept.
Proof. intros c1 c2 c3 [H1 H1'] [H2 H2']. split; etransitivity; eassumption. Qed.






(** X7: [enable] reports the specs that match nothing and only them: it
    returns normally exactly when every spec matches something in the
    catalog, and otherwise raises the marking error with the unmatched specs
    and an empty list of error specs. *)
Theorem enable_outcome np fm b module_specs :
  (enable np fm b module_specs).2
  = match filter (fun spec => matches_catalog np (_moduleContainer b) spec = false)
                 (set_of_list module_specs) with
    | [] => Ok tt
    | unmatched => Raise (ModuleMarkingError unmatched [])
    end.
Proof.
  destruct (resolve_loop_accounting np (_moduleContainer b) (set_of_list module_specs)
              (_moduleContainer b)
              {| no_match_specs := []; error_spec := []; module_dicts := [] |})
    as (c' & rs' & Heq & Hno & _).
  - reflexivity.
  - apply NoDup_remove_dups.
  - intros x _. apply not_elem_of_nil.
  - unfold enable, _resolve_specs_enable_update_sack. rewrite Heq.
    cbn [no_match_specs app] in Hno. rewrite <- Hno.
    destruct (no_match_specs rs'); reflexivity.
Qed.

(** ** [disable] and [reset] on a batch *)

(** The re-filtering leaves the states and the enabled streams as they
    are. *)
Lemma call_filter_modules_state fm b update_only n :
  ModulePackageContainer.getModuleState
    (_moduleContainer (call_filter_modules fm b update_only)) n
  = ModulePackageContainer.getModuleState (_moduleContainer b) n.
Proof. reflexivity. Qed.

Lemma reset_or_disable_names_spec to_state names : ∀ c,
  to_state = STATE_DISABLED ∨ to_state = STATE_UNKNOWN ->
  ModulePackageContainer.modules (reset_or_disable_names to_state c names)
  = ModulePackageContainer.modules c
  ∧ ∀ n, ModulePackageContainer.getModuleState
           (reset_or_disable_names to_state c names) n
         = if decide (n ∈ names) then to_state
           else ModulePackageContainer.getModuleState c n.
Proof.
  intros c Hstate. revert c.
  induction names as [|name names IH]; intros c.
  - split; [reflexivity|]. intros n. rewrite decide_False by apply not_elem_of_nil.
    reflexivity.
  - assert (reset_or_disable_names to_state c (name :: names)
            = reset_or_disable_names to_state
                (ModulePackageContainer.set_states c <[name := to_state]>) names) as ->.
    { destruct Hstate as [-> | ->]; reflexivity. }
    destruct (IH (ModulePackageContainer.set_states c <[name := to_state]>))
      as [Hmodules Hstates].
    split; [rewrite Hmodules; reflexivity|].
    intros n. rewrite Hstates.
    destruct (decide (n ∈ names)) as [Hin|Hnin].
    + rewrite decide_True by (by right). reflexivity.
    + unfold ModulePackageContainer.getModuleState. simpl.
      destruct (decide (n = name)) as [->|Hne].
      * rewrite decide_True by left. rewrite lookup_insert_eq. reflexivity.
      * rewrite decide_False by (intros [?|?]%elem_of_cons; contradiction).
        rewrite lookup_insert_ne by congruence. reflexivity.
Qed.

(** The loop of [_modules_reset_or_disable]. *)
Lemma reset_or_disable_loop np c0 to_state specs : ∀ c no_match,
  to_state = STATE_DISABLED ∨ to_state = STATE_UNKNOWN ->
  ModulePackageContainer.modules c = ModulePackageContainer.modules c0 ->
  let r := fold_left (reset_or_disable_spec np to_state) specs (c, no_match) in
  ModulePackageContainer.modules r.1 = ModulePackageContainer.modules c0
  ∧ r.2 = no_match ++ filter (fun spec => matches_catalog np c0 spec = false) specs
  ∧ ∀ n, ModulePackageContainer.getModuleState r.1 n
         = if decide (n ∈ matched_names np c0 specs) then to_state
           else ModulePackageContainer.getModuleState c n.
Proof.
  intros c no_match Hstate Hmodules r. subst r. revert c no_match Hmodules.
  induction specs as [|x specs IH]; intros c no_match Hmodules.
  - split; [exact Hmodules|]. split; [rewrite filter_nil, app_nil_r; reflexivity|].
    intros n. rewrite decide_False by apply not_elem_of_nil. reflexivity.
  - assert (reset_or_disable_spec np to_state (c, no_match) x
            = match _get_modules np c0 x with
              | None => (c, no_match ++ [x])
              | Some (module_list, _) =>
                  (reset_or_disable_names to_state c
                     (set_of_list (map ModulePackage.getName module_list)), no_match)
              end) as Hstep.
    { unfold reset_or_disable_spec. cbn [fst snd].
      rewrite (_get_modules_same_catalog np c0 c x Hmodules).
      destruct (_get_modules np c0 x) as [[? ?]|]; reflexivity. }
    assert (matched_names np c0 (x :: specs)
            = match _get_modules np c0 x with
              | Some (module_list, _) => map ModulePackage.getName module_list
              | None => []
              end ++ matched_names np c0 specs) as Hnames by reflexivity.
    cbn [fold_left]. rewrite Hstep, Hnames. clear Hstep Hnames.
    destruct (_get_modules np c0 x) as [[module_list nsvcap]|] eqn:Hget.
    + destruct (reset_or_disable_names_spec to_state
                  (set_of_list (map ModulePackage.getName module_list)) c Hstate)
        as [Hm Hs].
      destruct (IH (reset_or_disable_names to_state c
                      (set_of_list (map ModulePackage.getName module_list)))
                  no_match (eq_trans Hm Hmodules)) as (Hmodules' & Hno & Hstates).
      split; [exact Hmodules'|].
      rewrite filter_cons_False by (unfold matches_catalog; rewrite Hget; discriminate).
      split; [exact Hno|]. intros n. rewrite Hstates, Hs.
      destruct (decide (n ∈ matched_names np c0 specs)) as [Hin|Hnin].
      * rewrite decide_True by (apply elem_of_app; by right). reflexivity.
      * destruct (decide (n ∈ set_of_list (map ModulePackage.getName module_list)))
          as [Hin'|Hnin'].
        -- rewrite decide_True; [reflexivity|]. apply elem_of_app. left.
           unfold set_of_list in Hin'. exact (proj1 (elem_of_remove_dups _ _) Hin').
        -- rewrite decide_False; [reflexivity|].
           intros [Hn|Hn]%elem_of_app; [|contradiction].
           apply Hnin'. unfold set_of_list. exact (proj2 (elem_of_remove_dups _ _) Hn).
    + destruct (IH c (no_match ++ [x]) Hmodules) as (Hmodules' & Hno & Hstates).
      split; [exact Hmodules'|].
      rewrite filter_cons_True by (unfold matches_catalog; rewrite Hget; reflexivity).
      split; [rewrite Hno, <- (assoc app); reflexivity|].
      intros n. rewrite Hstates. cbn [app]. reflexivity.
Qed.

Lemma matched_names_set_of_list np c specs n :
  n ∈ matched_names np c (set_of_list specs) <-> n ∈ matched_names np c specs.
Proof.
  unfold matched_names. rewrite !list_elem_of_bind.
  unfold set_of_list.
  split; intros (spec & Hn & Hspec); exists spec; (split; [exact Hn|]).
  - exact (proj1 (elem_of_remove_dups _ _) Hspec).
  - exact (proj2 (elem_of_remove_dups _ _) Hspec).
Qed.

(** X8: [disable] on a batch: when it is done, whether or not it raises, a
    module name is in state [DISABLED] if some spec of the batch matches a
    module of that name, and is in the state it had otherwise. It raises
    exactly when some spec matches nothing, with these specs. *)
Theorem disable_batch np fm b module_specs :
  (∀ n, ModulePackageContainer.getModuleState
          (_moduleContainer (disable np fm b module_specs).1) n
        = if decide (n ∈ matched_names np (_moduleContainer b) module_specs)
          then STATE_DISABLED
          else ModulePackageContainer.getModuleState (_moduleContainer b) n)
  ∧ (disable np fm b module_specs).2
    = match filter (fun spec => matches_catalog np (_moduleContainer b) spec = false)
                   (set_of_list module_specs) with
      | [] => Ok tt
      | unmatched => Raise (ModuleMarkingError unmatched [])
      end.
Proof.
  destruct (reset_or_disable_loop np (_moduleContainer b) STATE_DISABLED
              (set_of_list module_specs) (_moduleContainer b) []
              (or_introl eq_refl) eq_refl) as (_ & Hno & Hstates).
  cbn [app] in Hno. unfold disable, _modules_reset_or_disable. cbn [fst snd].
  rewrite Hno. split.
  - intros n.
    assert (ModulePackageContainer.getModuleState
              (_moduleContainer
                 (match filter (fun spec => matches_catalog np (_moduleContainer b) spec
                                            = false) (set_of_list module_specs) with
                  | [] => _ | _ => _ end).1) n
            = ModulePackageContainer.getModuleState
                (fold_left (reset_or_disable_spec np STATE_DISABLED)
                   (set_of_list module_specs) (_moduleContainer b, [])).1 n) as ->.
    { destruct (filter _ _); reflexivity. }
    rewrite Hstates.
    destruct (decide (n ∈ matched_names np (_moduleContainer b)
                            (set_of_list module_specs))) as [Hin|Hnin].
    + rewrite decide_True by (apply matched_names_set_of_list, Hin). reflexivity.
    + rewrite decide_False; [reflexivity|].
      intros Hin. apply Hnin, matched_names_set_of_list, Hin.
  - destruct (filter _ _); reflexivity.
Qed.

(** X9: [reset] on a batch: when it is done, a module name is in state
    [UNKNOWN] if some spec of the batch matches a module of that name, and is
    in the state it had otherwise. *)
Theorem reset_batch np fm b module_specs :
  ∀ n, ModulePackageContainer.getModuleState
         (_moduleContainer (reset np fm b module_specs).1) n
       = if decide (n ∈ matched_names np (_moduleContainer b) module_specs)
         then STATE_UNKNOWN
         else ModulePackageContainer.getModuleState (_moduleContainer b) n.
Proof.
  destruct (reset_or_disable_loop np (_moduleContainer b) STATE_UNKNOWN
              (set_of_list module_specs) (_moduleContainer b) []
              (or_intror eq_refl) eq_refl) as (_ & _ & Hstates).
  intros n. unfold reset, _modules_reset_or_disable. cbn [fst snd].
  rewrite call_filter_modules_state. cbn [_moduleContainer with_container].
  rewrite Hstates.
  destruct (decide (n ∈ matched_names np (_moduleContainer b)
                          (set_of_list module_specs))) as [Hin|Hnin].
  - rewrite decide_True by (apply matched_names_set_of_list, Hin). reflexivity.
  - rewrite decide_False; [reflexivity|].
    intros Hin. apply Hnin, matched_names_set_of_list, Hin.
Qed.

(** ** Sets as lists *)

Lemma elem_of_set_add s x y : y ∈ set_add s x <-> y ∈ s ∨ y = x.
Proof.
  unfold set_add. destruct (bool_decide (x ∈ s)) eqn:Hin.
  - apply bool_decide_eq_true in Hin. split; [by left|].
    intros [?|Hy]; [assumption | subst y; exact Hin].
  - rewrite elem_of_app, list_elem_of_singleton. reflexivity.
Qed.

Lemma elem_of_set_update xs : ∀ s y, y ∈ set_update s xs <-> y ∈ s ∨ y ∈ xs.
Proof.
  unfold set_update. induction xs as [|x xs IH]; intros s y; cbn [fold_left].
  - split; [by left|]. intros [?|H]; [assumption | by apply elem_of_nil in H].
  - rewrite IH, elem_of_set_add, elem_of_cons. tauto.
Qed.

Lemma NoDup_set_add s x : NoDup s -> NoDup (set_add s x).
Proof.
  intros Hs. unfold set_add. destruct (bool_decide (x ∈ s)) eqn:Hin; [exact Hs|].
  apply bool_decide_eq_false in Hin. apply NoDup_app. split; [exact Hs|].
  split; [|apply NoDup_singleton].
  intros y Hy Hy'%list_elem_of_singleton. subst y. contradiction.
Qed.

Lemma NoDup_set_update xs : ∀ s, NoDup s -> NoDup (set_update s xs).
Proof.
  unfold set_update. induction xs as [|x xs IH]; intros s Hs; [exact Hs|].
  cbn [fold_left]. apply IH, NoDup_set_add, Hs.
Qed.

(** Adding what is there already changes nothing. *)
Lemma set_update_absorb xs : ∀ s, (∀ x, x ∈ xs -> x ∈ s) -> set_update s xs = s.
Proof.
  unfold set_update. induction xs as [|x xs IH]; intros s Hs; [reflexivity|].
  cbn [fold_left]. unfold set_add at 2.
  rewrite bool_decide_eq_true_2 by (apply Hs; left).
  apply IH. intros y Hy. apply Hs. by right.
Qed.

(** ** [_get_package_name_set_and_remove_profiles] *)

Lemma remove_requested_fold_names remove latest_module installed profiles : ∀ c s,
  (fold_left (remove_requested_profile_step remove latest_module installed)
     profiles (c, s)).2
  = fold_left (upgrade_requested_profile_step installed) profiles s.
Proof.
  induction profiles as [|p profiles IH]; intros c s; [reflexivity|].
  cbn [fold_left]. unfold remove_requested_profile_step at 2,
    upgrade_requested_profile_step at 2.
  destruct (bool_decide _); cbn [fst snd]; apply IH.
Qed.

Lemma remove_installed_fold_names remove latest_module installed : ∀ c s,
  (fold_left (remove_installed_profile_step remove latest_module) installed (c, s)).2
  = fold_left (upgrade_installed_profile_step latest_module) installed s.
Proof.
  induction installed as [|p installed IH]; intros c s; [reflexivity|].
  cbn [fold_left]. unfold remove_installed_profile_step at 2. cbn [fst snd].
  rewrite IH. reflexivity.
Qed.

Lemma remove_requested_fold_read_only latest_module installed profiles : ∀ c s,
  (fold_left (remove_requested_profile_step false latest_module installed)
     profiles (c, s)).1 = c.
Proof.
  induction profiles as [|p profiles IH]; intros c s; [reflexivity|].
  cbn [fold_left]. unfold remove_requested_profile_step at 2.
  destruct (bool_decide _); cbn [fst snd]; apply IH.
Qed.

Lemma remove_installed_fold_read_only latest_module installed : ∀ c s,
  (fold_left (remove_installed_profile_step false latest_module) installed (c, s)).1
  = c.
Proof.
  induction installed as [|p installed IH]; intros c s; [reflexivity|].
  cbn [fold_left]. unfold remove_installed_profile_step at 2. cbn [fst snd].
  apply IH.
Qed.

Lemma elem_of_contents_fold (profiles : list ModuleProfile.t) : ∀ s y,
  y ∈ fold_left (fun s profile => set_update s (ModuleProfile.getContent profile))
        profiles s
  <-> y ∈ s ∨ ∃ profile, profile ∈ profiles ∧ y ∈ ModuleProfile.getContent profile.
Proof.
  induction profiles as [|p profiles IH]; intros s y; cbn [fold_left].
  - split; [by left|]. intros [?|(? & H & _)]; [assumption | by apply elem_of_nil in H].
  - rewrite IH, elem_of_set_update. split.
    + intros [[?|?]|(q & Hq & Hy)].
      * by left.
      * right. exists p. split; [left | assumption].
      * right. exists q. split; [by right | assumption].
    + intros [?|(q & [->|Hq]%elem_of_cons & Hy)].
      * left. by left.
      * left. by right.
      * right. exists q. by split.
Qed.

Lemma NoDup_contents_fold (profiles : list ModuleProfile.t) : ∀ s,
  NoDup s ->
  NoDup (fold_left (fun s profile => set_update s (ModuleProfile.getContent profile))
           profiles s).
Proof.
  induction profiles as [|p profiles IH]; intros s Hs; [exact Hs|].
  cbn [fold_left]. apply IH, NoDup_set_update, Hs.
Qed.

Lemma elem_of_requested_fold installed (profiles : list ModuleProfile.t) : ∀ s y,
  y ∈ fold_left (upgrade_requested_profile_step installed) profiles s
  <-> y ∈ s
      ∨ ∃ profile, profile ∈ profiles
                   ∧ ModuleProfile.getName profile ∈ installed
                   ∧ y ∈ ModuleProfile.getContent profile.
Proof.
  induction profiles as [|p profiles IH]; intros s y; cbn [fold_left].
  - split; [by left|]. intros [?|(? & H & _)]; [assumption | by apply elem_of_nil in H].
  - rewrite IH. unfold upgrade_requested_profile_step.
    destruct (bool_decide (ModuleProfile.getName p ∈ installed)) eqn:Hin.
    + apply bool_decide_eq_true in Hin. rewrite elem_of_set_update. split.
      * intros [[?|?]|(q & Hq & Hy)].
        -- by left.
        -- right. exists p. split; [left | by split].
        -- right. exists q. split; [by right | assumption].
      * intros [?|(q & [->|Hq]%elem_of_cons & Hq' & Hy)].
        -- left. by left.
        -- left. by right.
        -- right. exists q. by split.
    + apply bool_decide_eq_false in Hin. split.
      * intros [?|(q & Hq & Hy)]; [by left|].
        right. exists q. split; [by right | assumption].
      * intros [?|(q & [->|Hq]%elem_of_cons & Hq' & Hy)].
        -- by left.
        -- contradiction.
        -- right. exists q. by split.
Qed.

Lemma NoDup_requested_fold installed (profiles : list ModuleProfile.t) : ∀ s,
  NoDup s -> NoDup (fold_left (upgrade_requested_profile_step installed) profiles s).
Proof.
  induction profiles as [|p profiles IH]; intros s Hs; [exact Hs|].
  cbn [fold_left]. apply IH. unfold upgrade_requested_profile_step.
  destruct (bool_decide _); [apply NoDup_set_update, Hs | exact Hs].
Qed.

Lemma elem_of_installed_fold latest_module (installed : list string) : ∀ s y,
  y ∈ fold_left (upgrade_installed_profile_step latest_module) installed s
  <-> y ∈ s
      ∨ ∃ profile_string profile,
          profile_string ∈ installed
          ∧ profile ∈ ModulePackage.getProfiles latest_module profile_string
          ∧ y ∈ ModuleProfile.getContent profile.
Proof.
  induction installed as [|p installed IH]; intros s y; cbn [fold_left].
  - split; [by left|].
    intros [?|(? & ? & H & _)]; [assumption | by apply elem_of_nil in H].
  - rewrite IH. unfold upgrade_installed_profile_step.
    rewrite elem_of_contents_fold. split.
    + intros [[?|(q & Hq & Hy)]|(ps & q & Hps & Hq & Hy)].
      * by left.
      * right. exists p, q. split; [left | by split].
      * right. exists ps, q. split; [by right | by split].
    + intros [?|(ps & q & [->|Hps]%elem_of_cons & Hq & Hy)].
      * left. by left.
      * left. right. exists q. by split.
      * right. exists ps, q. by split.
Qed.

Lemma NoDup_installed_fold latest_module (installed : list string) : ∀ s,
  NoDup s ->
  NoDup (fold_left (upgrade_installed_profile_step latest_module) installed s).
Proof.
  induction installed as [|p installed IH]; intros s Hs; [exact Hs|].
  cbn [fold_left]. apply IH. apply NoDup_contents_fold, Hs.
Qed.

(** X10: the package names that
    [_get_package_name_set_and_remove_profiles] returns for a non-empty
    module list: without repetition, the content of those profiles of the
    latest module whose name is in the installed profile record of its
    module and, when the spec names a profile, is the name asked for. *)
Theorem package_name_set_spec c module_list nsvcap remove latest_module :
  _get_latest module_list = Some latest_module ->
  ∃ names,
    (_get_package_name_set_and_remove_profiles c module_list nsvcap remove).2
    = Ok names
    ∧ NoDup names
    ∧ ∀ y, y ∈ names
           <-> ∃ profile,
                 profile ∈ ModulePackage.profiles latest_module
                 ∧ ModuleProfile.getName profile
                   ∈ ModulePackageContainer.getInstalledProfiles c
                       (ModulePackage.getName latest_module)
                 ∧ (str_truthy (nsvcap_profile nsvcap) = true ->
                    Some (ModuleProfile.getName profile) = nsvcap_profile nsvcap)
                 ∧ y ∈ ModuleProfile.getContent profile.
Proof.
  intros Hlatest. unfold _get_package_name_set_and_remove_profiles. rewrite Hlatest.
  assert (∀ q, q ∈ set_of_list (ModulePackageContainer.getInstalledProfiles c
                                  (ModulePackage.getName latest_module))
               <-> q ∈ ModulePackageContainer.getInstalledProfiles c
                         (ModulePackage.getName latest_module)) as Hset.
  { intros q. unfold set_of_list. apply elem_of_remove_dups. }
  destruct (set_of_list _) as [|i installed] eqn:Hinstalled.
  { exists []. split; [reflexivity|]. split; [constructor|].
    intros y. split; [intros H; by apply elem_of_nil in H|].
    intros (profile & _ & Hin & _). apply Hset in Hin. by apply elem_of_nil in Hin. }
  destruct (str_truthy (nsvcap_profile nsvcap)) eqn:Htruthy.
  - destruct (nsvcap_profile nsvcap) as [p|] eqn:Hp; [|discriminate].
    cbn [from_option id].
    destruct (ModulePackage.getProfiles latest_module p) as [|q profiles] eqn:Hprofiles.
    { exists []. split; [reflexivity|]. split; [constructor|].
      intros y. split; [intros H; by apply elem_of_nil in H|].
      intros (profile & Hprofile & _ & Hname & _). specialize (Hname eq_refl).
      injection Hname as Hname.
      assert (profile ∈ ModulePackage.getProfiles latest_module p) as Hin.
      { apply list_elem_of_filter. by split. }
      rewrite Hprofiles in Hin. by apply elem_of_nil in Hin. }
    eexists. cbn [snd]. split; [reflexivity|].
    rewrite remove_requested_fold_names.
    split; [apply NoDup_requested_fold; constructor|].
    intros y. rewrite elem_of_requested_fold, <- Hprofiles. split.
    + intros [H|(profile & Hprofile & Hin & Hy)]; [by apply elem_of_nil in H|].
      apply list_elem_of_filter in Hprofile as [Hname Hprofile].
      exists profile. split; [exact Hprofile|]. split; [apply Hset, Hin|].
      split; [intros _; by rewrite Hname | exact Hy].
    + intros (profile & Hprofile & Hin & Hname & Hy). right.
      specialize (Hname eq_refl). injection Hname as Hname.
      exists profile. split; [apply list_elem_of_filter; by split|].
      split; [apply Hset, Hin | exact Hy].
  - eexists. cbn [snd]. split; [reflexivity|].
    rewrite remove_installed_fold_names.
    split; [apply NoDup_installed_fold; constructor|].
    intros y. rewrite elem_of_installed_fold. split.
    + intros [H|(ps & profile & Hps & Hprofile & Hy)]; [by apply elem_of_nil in H|].
      apply list_elem_of_filter in Hprofile as [Hname Hprofile].
      exists profile. split; [exact Hprofile|].
      split; [rewrite Hname; apply Hset, Hps|]. split; [discriminate | exact Hy].
    + intros (profile & Hprofile & Hin & _ & Hy). right.
      exists (ModuleProfile.getName profile), profile.
      split; [apply Hset, Hin|]. split; [|exact Hy].
      apply list_elem_of_filter. by split.
Qed.


Lemma uninstall_keeps_modules c m p :
  ModulePackageContainer.modules (ModulePackageContainer.uninstall c m p)
  = ModulePackageContainer.modules c.
Proof. reflexivity. Qed.




(** ** [remove] and [upgrade] *)

Lemma _get_latest_Some (l : list ModulePackage.t) :
  l ≠ [] -> ∃ m, _get_latest l = Some m.
Proof. destruct l; [contradiction|]. intros _. eexists. reflexivity. Qed.

(** The groups that come out of the resolution are groups of the list. *)
Lemma create_groups enable c module_list c' (moduleDict : ModuleDict) :
  _create_module_dict_and_enable c module_list enable = (c', Ok moduleDict) ->
  ∀ n sd s g, (n, sd) ∈ moduleDict -> (s, g) ∈ sd ->
    g ≠ [] ∧ ∀ m, m ∈ g -> m ∈ module_list.
Proof.
  unfold _create_module_dict_and_enable. intros Hres n sd s g Hsd Hg.
  destruct (group_modules_wf module_list) as [Hnodup Hwf].
  pose proof (resolve_module_dict_spec enable (group_modules module_list) c c
                Hnodup Hwf (agree_on_refl _ _)) as Hspec.
  rewrite Hres in Hspec. cbn [snd] in Hspec. destruct Hspec as [Hall _].
  apply list_elem_of_lookup in Hsd as [i Hi].
  destruct (Forall2_lookup_r _ _ _ _ _ Hall Hi)
    as ([n0 sd0] & Hi0 & _ & s0 & g0 & Heq & Hin & _).
  cbn [fst snd] in Heq, Hin. subst sd.
  apply list_elem_of_singleton in Hg as [= -> ->].
  apply list_elem_of_lookup_2 in Hi0.
  destruct (group_modules_groups module_list) as [Hgroups _].
  destruct (Hgroups n0 sd0 s0 g0 Hi0 Hin) as [Hne Hfilter].
  split; [exact Hne|]. intros m Hm. rewrite Hfilter in Hm.
  apply list_elem_of_filter in Hm as [_ Hm]. exact Hm.
Qed.

Lemma create_raises enable c module_list c' e :
  _create_module_dict_and_enable c module_list enable = (c', Raise e) ->
  ∃ n, e = EnableMultipleStreamsException n.
Proof.
  unfold _create_module_dict_and_enable. intros Hres.
  destruct (group_modules_wf module_list) as [Hnodup Hwf].
  pose proof (resolve_module_dict_spec enable (group_modules module_list) c c
                Hnodup Hwf (agree_on_refl _ _)) as Hspec.
  rewrite Hres in Hspec. cbn [snd] in Hspec.
  destruct Hspec as (n & _ & -> & _). exists n. reflexivity.
Qed.

Lemma package_name_set_keeps_modules c module_list nsvcap remove :
  ModulePackageContainer.modules
    (_get_package_name_set_and_remove_profiles c module_list nsvcap remove).1
  = ModulePackageContainer.modules c.
Proof.
  unfold _get_package_name_set_and_remove_profiles.
  destruct (_get_latest module_list) as [latest_module|]; [|reflexivity].
  destruct (set_of_list _); [reflexivity|].
  destruct (str_truthy _).
  - destruct (ModulePackage.getProfiles _ _); [reflexivity|]. cbn [fst].
    apply (fold_left_rel (on_container (keeps ModulePackageContainer.modules) fst)
             _ _ (c, [])).
    intros st profile. unfold on_container, keeps, remove_requested_profile_step.
    destruct (bool_decide _); [|reflexivity]. destruct remove; reflexivity.
  - cbn [fst].
    apply (fold_left_rel (on_container (keeps ModulePackageContainer.modules) fst)
             _ _ (c, [])).
    intros st profile. unfold on_container, keeps, remove_installed_profile_step.
    destruct remove; reflexivity.
Qed.

Lemma remove_stream_spec nsvcap (st : ModulePackageContainer.t * list string)
    (entry : string * list ModulePackage.t) :
  entry.2 ≠ [] ->
  ModulePackageContainer.modules (remove_stream nsvcap st entry).1.1
  = ModulePackageContainer.modules st.1
  ∧ (remove_stream nsvcap st entry).2 = None.
Proof.
  intros Hne. unfold remove_stream.
  destruct (_get_latest_Some _ Hne) as [latest Hlatest].
  destruct (package_name_set_spec st.1 entry.2 nsvcap true latest Hlatest)
    as (names & Hnames & _).
  pose proof (package_name_set_keeps_modules st.1 entry.2 nsvcap true) as Hmodules.
  destruct (_get_package_name_set_and_remove_profiles st.1 entry.2 nsvcap true)
    as [c r]. cbn [snd] in Hnames. subst r. by split.
Qed.

(** One pass of the loop of [remove]. *)
Lemma remove_spec_spec np c0
    (st : ModulePackageContainer.t * (list string * list string)) spec :
  ModulePackageContainer.modules st.1 = ModulePackageContainer.modules c0 ->
  ModulePackageContainer.modules (remove_spec np st spec).1.1
  = ModulePackageContainer.modules c0
  ∧ (((remove_spec np st spec).2 = None
      ∧ (remove_spec np st spec).1.2.1
        = st.2.1 ++ filter (fun x => matches_catalog np c0 x = false) [spec])
     ∨ ∃ n, (remove_spec np st spec).2 = Some (EnableMultipleStreamsException n)).
Proof.
  intros Hmodules. unfold remove_spec.
  rewrite (_get_modules_same_catalog np c0 st.1 spec Hmodules).
  rewrite filter_cons, filter_nil. unfold matches_catalog.
  destruct (_get_modules np c0 spec) as [[module_list nsvcap]|].
  - rewrite decide_False by discriminate. rewrite app_nil_r.
    pose proof (create_without_enable_container st.1 module_list) as Hsame.
    destruct (_create_module_dict_and_enable st.1 module_list false) as [c [md|e]]
      eqn:Hcreate; cbn [fst] in Hsame; subst c.
    + destruct (for_loop_invariant
                  (fun s : ModulePackageContainer.t * list string =>
                     ModulePackageContainer.modules s.1
                     = ModulePackageContainer.modules c0)
                  (fun s (name_streamdict : string * StreamDict) =>
                     for_loop (remove_stream nsvcap) name_streamdict.2 s)
                  md (st.1, [])) as [Hkeep Hnone]; [exact Hmodules| |].
      { intros s [n sd] Hsd Hs. cbn [snd].
        apply (for_loop_invariant
                 (fun s : ModulePackageContainer.t * list string =>
                    ModulePackageContainer.modules s.1
                    = ModulePackageContainer.modules c0)); [exact Hs|].
        intros s' [stream g] Hg Hs'.
        destruct (create_groups _ _ _ _ _ Hcreate n sd stream g Hsd Hg) as [Hne _].
        destruct (remove_stream_spec nsvcap s' (stream, g) Hne) as [Hm Hn].
        split; [congruence | exact Hn]. }
      destruct (for_loop _ md (st.1, [])) as [[c names] [e|]]; [discriminate|].
      cbn [fst snd] in *. split; [exact Hkeep|]. left. by split.
    + destruct (create_raises _ _ _ _ _ Hcreate) as [n ->].
      cbn [fst snd]. split; [exact Hmodules|]. right. exists n. reflexivity.
  - rewrite decide_True by reflexivity. cbn [fst snd].
    split; [exact Hmodules|]. left. by split.
Qed.

Lemma remove_loop_spec np c0 specs : ∀ st,
  ModulePackageContainer.modules st.1 = ModulePackageContainer.modules c0 ->
  ((for_loop (remove_spec np) specs st).2 = None
   ∧ (for_loop (remove_spec np) specs st).1.2.1
     = st.2.1 ++ filter (fun x => matches_catalog np c0 x = false) specs)
  ∨ ∃ n, (for_loop (remove_spec np) specs st).2
         = Some (EnableMultipleStreamsException n).
Proof.
  induction specs as [|x specs IH]; intros st Hmodules.
  - left. split; [reflexivity|]. rewrite filter_nil, app_nil_r. reflexivity.
  - cbn [for_loop].
    destruct (remove_spec_spec np c0 st x Hmodules) as [Hm [[Hnone Hno]|[n Hraise]]].
    + destruct (remove_spec np st x) as [st' [e|]]; [discriminate|].
      cbn [fst snd] in Hm, Hno.
      destruct (IH st' Hm) as [[Hnone' Hno']|Hraise]; [|by right].
      left. split; [exact Hnone'|]. rewrite Hno', Hno, <- (assoc app).
      f_equal. rewrite (filter_cons _ x). rewrite filter_cons, filter_nil.
      destruct (decide _); reflexivity.
    + destruct (remove_spec np st x) as [st' [e|]]; [|discriminate].
      right. exists n. exact Hraise.
Qed.

(** X12: what [remove] gives back. It returns the specs that match nothing
    in the catalog instead of raising for them; the only exception it lets
    through is the multi-stream conflict of the resolution, and then it asks
    for no removal. When it returns it asks for at most one removal, of
    packages of the sack that are installed. *)
Theorem remove_outcome np b module_specs :
  match (remove np b module_specs).2 with
  | Ok no_match =>
      no_match
      = filter (fun spec => matches_catalog np (_moduleContainer b) spec = false)
               (set_of_list module_specs)
      ∧ (requests (remove np b module_specs).1 = requests b
         ∨ ∃ query,
             query ≠ []
             ∧ Forall (fun p => pkg_installed p = true ∧ p ∈ sack b) query
             ∧ requests (remove np b module_specs).1
               = requests b ++ [RemoveIfUnneeded query])
  | Raise e =>
      (∃ n, e = EnableMultipleStreamsException n)
      ∧ requests (remove np b module_specs).1 = requests b
  end.
Proof.
  unfold remove.
  destruct (remove_loop_spec np (_moduleContainer b) (set_of_list module_specs)
              (_moduleContainer b, ([], [])) eq_refl) as [[Hnone Hno]|[n Hraise]].
  - destruct (for_loop _ _ _) as [[c [no_match remove_package_set]] [e|]];
      [discriminate|].
    cbn [fst snd app] in Hno. subst no_match. cbn [snd]. split; [reflexivity|].
    destruct remove_package_set as [|x rest]; [by left|]. cbv zeta.
    destruct (query_installed_names _ _) as [|p query] eqn:Hquery; [by left|].
    right. exists (p :: query). split; [discriminate|]. split; [|reflexivity].
    rewrite <- Hquery. apply Forall_forall. intros y Hy.
    apply list_elem_of_In, filter_In in Hy as [Hy Hinst].
    apply andb_true_iff in Hinst as [Hinst _].
    split; [exact Hinst | apply list_elem_of_In; exact Hy].
  - destruct (for_loop _ _ _) as [[c [no_match remove_package_set]] [e|]];
      [|discriminate].
    injection Hraise as ->. cbn [snd fst]. split; [by exists n | reflexivity].
Qed.

Lemma package_name_set_read_only c module_list nsvcap :
  (_get_package_name_set_and_remove_profiles c module_list nsvcap false).1 = c.
Proof.
  unfold _get_package_name_set_and_remove_profiles.
  destruct (_get_latest module_list) as [latest_module|]; [|reflexivity].
  destruct (set_of_list _); [reflexivity|].
  destruct (str_truthy _).
  - destruct (ModulePackage.getProfiles _ _); [reflexivity|].
    apply remove_requested_fold_read_only.
  - apply remove_installed_fold_read_only.
Qed.

Lemma contents_fold_absorb (profiles : list ModuleProfile.t) : ∀ t,
  (∀ y profile, profile ∈ profiles -> y ∈ ModuleProfile.getContent profile -> y ∈ t) ->
  fold_left (fun s profile => set_update s (ModuleProfile.getContent profile))
    profiles t = t.
Proof.
  induction profiles as [|p profiles IH]; intros t Ht; [reflexivity|].
  cbn [fold_left]. rewrite set_update_absorb.
  - apply IH. intros y q Hq. apply Ht. by right.
  - intros y Hy. apply (Ht y p); [left | exact Hy].
Qed.

Lemma requested_fold_absorb installed (profiles : list ModuleProfile.t) : ∀ t,
  (∀ y profile, profile ∈ profiles -> ModuleProfile.getName profile ∈ installed ->
     y ∈ ModuleProfile.getContent profile -> y ∈ t) ->
  fold_left (upgrade_requested_profile_step installed) profiles t = t.
Proof.
  induction profiles as [|p profiles IH]; intros t Ht; [reflexivity|].
  cbn [fold_left]. unfold upgrade_requested_profile_step at 2.
  destruct (bool_decide (ModuleProfile.getName p ∈ installed)) eqn:Hin.
  - apply bool_decide_eq_true in Hin. rewrite set_update_absorb.
    + apply IH. intros y q Hq. apply Ht. by right.
    + intros y Hy. apply (Ht y p); [left | exact Hin | exact Hy].
  - apply IH. intros y q Hq. apply Ht. by right.
Qed.

Lemma installed_fold_absorb latest_module (installed : list string) : ∀ t,
  (∀ y profile_string profile,
     profile_string ∈ installed ->
     profile ∈ ModulePackage.getProfiles latest_module profile_string ->
     y ∈ ModuleProfile.getContent profile -> y ∈ t) ->
  fold_left (upgrade_installed_profile_step latest_module) installed t = t.
Proof.
  induction installed as [|p installed IH]; intros t Ht; [reflexivity|].
  cbn [fold_left]. unfold upgrade_installed_profile_step at 2.
  rewrite contents_fold_absorb.
  - apply IH. intros y ps q Hps. apply Ht. by right.
  - intros y q Hq Hy. apply (Ht y p q); [left | exact Hq | exact Hy].
Qed.

(** X13: in [upgrade], the union that is written out after the call of
    [_get_package_name_set_and_remove_profiles] adds nothing: one pass of
    the loop over the stream groups leaves the container as it is and adds
    to [upgrade_package_set] exactly the names that the helper returns. *)
Theorem upgrade_stream_union_once nsvcap
    (st : ModulePackageContainer.t * list string)
    (entry : string * list ModulePackage.t) :
  upgrade_stream nsvcap st entry
  = match (_get_package_name_set_and_remove_profiles st.1 entry.2 nsvcap false).2 with
    | Ok names => ((st.1, set_update st.2 names), None)
    | Raise e => ((st.1, st.2), Some e)
    end.
Proof.
  unfold upgrade_stream.
  pose proof (package_name_set_read_only st.1 entry.2 nsvcap) as Hsame.
  destruct (_get_package_name_set_and_remove_profiles st.1 entry.2 nsvcap false)
    as [c [names|e]] eqn:Hhelper; cbn [fst snd] in Hsame |- *; subst c;
    [|reflexivity].
  unfold _get_package_name_set_and_remove_profiles in Hhelper.
  destruct (_get_latest entry.2) as [latest_module|]; [|discriminate].
  destruct (set_of_list _) as [|i installed] eqn:Hinstalled.
  { injection Hhelper as <-. reflexivity. }
  destruct (str_truthy (nsvcap_profile nsvcap)).
  - destruct (ModulePackage.getProfiles latest_module _) as [|q profiles] eqn:Hprofiles.
    { injection Hhelper as <-. reflexivity. }
    set (ps := q :: profiles) in *. clearbody ps.
    set (installed_profiles_strings := i :: installed) in *.
    clearbody installed_profiles_strings.
    injection Hhelper as _ Hnames. rewrite remove_requested_fold_names in Hnames.
    f_equal. f_equal. apply requested_fold_absorb.
    intros y profile Hprofile Hin Hy. apply elem_of_set_update. right.
    rewrite <- Hnames. apply elem_of_requested_fold. right. exists profile. by split.
  - set (installed_profiles_strings := i :: installed) in *.
    clearbody installed_profiles_strings.
    injection Hhelper as _ Hnames. rewrite remove_installed_fold_names in Hnames.
    f_equal. f_equal. apply installed_fold_absorb.
    intros y ps profile Hps Hprofile Hy. apply elem_of_set_update. right.
    rewrite <- Hnames. apply elem_of_installed_fold. right. exists ps, profile.
    by split.
Qed.

Lemma upgrade_stream_spec nsvcap (st : ModulePackageContainer.t * list string)
    (entry : string * list ModulePackage.t) :
  entry.2 ≠ [] ->
  (upgrade_stream nsvcap st entry).1.1 = st.1
  ∧ (upgrade_stream nsvcap st entry).2 = None.
Proof.
  intros Hne. unfold upgrade_stream.
  destruct (_get_latest_Some _ Hne) as [latest Hlatest].
  destruct (package_name_set_spec st.1 entry.2 nsvcap false latest Hlatest)
    as (names & Hnames & _).
  pose proof (package_name_set_read_only st.1 entry.2 nsvcap) as Hsame.
  destruct (_get_package_name_set_and_remove_profiles st.1 entry.2 nsvcap false)
    as [c r]. cbn [fst snd] in Hnames, Hsame. subst c r. rewrite Hlatest.
  destruct (set_of_list _); [by split|].
  destruct (str_truthy _); [|by split].
  destruct (ModulePackage.getProfiles _ _); by split.
Qed.

(** One pass of the loop of [upgrade]. *)
Lemma upgrade_spec_spec np sack
    (st : ModulePackageContainer.t * (list string * list (list Package))) spec :
  (upgrade_spec np sack st spec).1.1 = st.1
  ∧ (upgrade_selections_ok sack st.2.2 ->
     upgrade_selections_ok sack (upgrade_spec np sack st spec).1.2.2)
  ∧ (((upgrade_spec np sack st spec).2 = None
      ∧ (upgrade_spec np sack st spec).1.2.1
        = st.2.1 ++ filter (fun x => matches_catalog np st.1 x = false) [spec])
     ∨ ∃ n, (upgrade_spec np sack st spec).2
            = Some (EnableMultipleStreamsException n)).
Proof.
  unfold upgrade_spec. rewrite filter_cons, filter_nil. unfold matches_catalog.
  destruct (_get_modules np st.1 spec) as [[module_list nsvcap]|].
  - rewrite decide_False by discriminate. rewrite app_nil_r.
    destruct (List.filter _ module_list) as [|x update_module_list] eqn:Hactive.
    { split; [reflexivity|]. split; [tauto|]. left. by split. }
    pose proof (create_without_enable_container st.1 (x :: update_module_list))
      as Hsame.
    destruct (_create_module_dict_and_enable st.1 (x :: update_module_list) false)
      as [c [md|e]] eqn:Hcreate; cbn [fst] in Hsame; subst c.
    + destruct (for_loop_invariant
                  (fun s : ModulePackageContainer.t * list string => s.1 = st.1)
                  (fun s (name_streamdict : string * StreamDict) =>
                     for_loop (upgrade_stream nsvcap) name_streamdict.2 s)
                  md (st.1, [])) as [Hkeep Hnone]; [reflexivity| |].
      { intros s [n sd] Hsd Hs. cbn [snd].
        apply (for_loop_invariant
                 (fun s : ModulePackageContainer.t * list string => s.1 = st.1));
          [exact Hs|].
        intros s' [stream g] Hg Hs'.
        destruct (create_groups _ _ _ _ _ Hcreate n sd stream g Hsd Hg) as [Hne _].
        destruct (upgrade_stream_spec nsvcap s' (stream, g) Hne) as [Hc Hn].
        split; [congruence | exact Hn]. }
      destruct (for_loop _ md (st.1, [])) as [[c names] [e|]]; [discriminate|].
      cbn [fst snd] in Hkeep. subst c.
      destruct (query_available_names sack names) as [|p query] eqn:Hquery;
        cbn [fst snd].
      * split; [reflexivity|]. split; [tauto|]. left. by split.
      * split; [reflexivity|]. split; [|left; by split].
        intros Hok. apply Forall_app. split; [exact Hok|].
        constructor; [|constructor]. split; [discriminate|].
        rewrite <- Hquery. apply Forall_forall. intros y Hy.
        apply list_elem_of_In, filter_In in Hy as [Hy Hinst].
        apply andb_true_iff in Hinst as [Hinst _].
        apply negb_true_iff in Hinst.
        split; [exact Hinst | apply list_elem_of_In; exact Hy].
    + destruct (create_raises _ _ _ _ _ Hcreate) as [n ->].
      cbn [fst snd]. split; [reflexivity|]. split; [tauto|]. right. by exists n.
  - rewrite decide_True by reflexivity. cbn [fst snd].
    split; [reflexivity|]. split; [tauto|]. left. by split.
Qed.

Lemma upgrade_loop_spec np sack specs : ∀ st,
  (for_loop (upgrade_spec np sack) specs st).1.1 = st.1
  ∧ (upgrade_selections_ok sack st.2.2 ->
     upgrade_selections_ok sack (for_loop (upgrade_spec np sack) specs st).1.2.2)
  ∧ (((for_loop (upgrade_spec np sack) specs st).2 = None
      ∧ (for_loop (upgrade_spec np sack) specs st).1.2.1
        = st.2.1 ++ filter (fun x => matches_catalog np st.1 x = false) specs)
     ∨ ∃ n, (for_loop (upgrade_spec np sack) specs st).2
            = Some (EnableMultipleStreamsException n)).
Proof.
  induction specs as [|x specs IH]; intros st.
  - split; [reflexivity|]. split; [tauto|]. left. split; [reflexivity|].
    rewrite filter_nil, app_nil_r. reflexivity.
  - cbn [for_loop].
    destruct (upgrade_spec_spec np sack st x) as (Hc & Hok & [[Hnone Hno]|[n Hraise]]).
    + destruct (upgrade_spec np sack st x) as [st' [e|]]; [discriminate|].
      cbn [fst snd] in Hc, Hok, Hno.
      destruct (IH st') as (Hc' & Hok' & Hcases). rewrite Hc in Hc', Hcases.
      split; [exact Hc'|]. split; [tauto|].
      destruct Hcases as [[Hnone' Hno']|Hraise]; [|by right].
      left. split; [exact Hnone'|]. rewrite Hno', Hno, <- (assoc app).
      f_equal. rewrite (filter_cons _ x). rewrite filter_cons, filter_nil.
      destruct (decide _); reflexivity.
    + destruct (upgrade_spec np sack st x) as [st' [e|]]; [|discriminate].
      cbn [fst snd] in Hc, Hok |- *. split; [exact Hc|]. split; [exact Hok|].
      right. exists n. exact Hraise.
Qed.

(** X14: [upgrade] changes nothing in the base: no stream is enabled and no
    profile is uninstalled. It returns the specs that match nothing in the
    catalog; the only exception it lets through is the multi-stream conflict
    of the resolution. Every selection it hands to the goal is a non-empty
    set of packages of the sack that are not installed. *)
Theorem upgrade_outcome np b module_specs :
  (upgrade np b module_specs).1.1 = b
  ∧ upgrade_selections_ok (sack b) (upgrade np b module_specs).1.2
  ∧ match (upgrade np b module_specs).2 with
    | Ok no_match =>
        no_match
        = filter (fun spec => matches_catalog np (_moduleContainer b) spec = false)
                 (set_of_list module_specs)
    | Raise e => ∃ n, e = EnableMultipleStreamsException n
    end.
Proof.
  unfold upgrade.
  destruct (upgrade_loop_spec np (sack b) (set_of_list module_specs)
              (_moduleContainer b, ([], []))) as (Hc & Hok & Hcases).
  specialize (Hok (List.Forall_nil _)).
  destruct (for_loop _ _ _) as [[c [no_match upgrades]] [e|]];
    cbn [fst snd] in Hc, Hok, Hcases |- *; subst c.
  - split; [destruct b; reflexivity|]. split; [exact Hok|].
    destruct Hcases as [[Hnone _]|[n Hraise]]; [discriminate|].
    injection Hraise as ->. by exists n.
  - split; [destruct b; reflexivity|]. split; [exact Hok|].
    destruct Hcases as [[_ Hno]|[n Hraise]]; [exact Hno | discriminate].
Qed.

(** ** [install]: what is selected and what is reported *)

Global Instance install_acc_le_refl : Reflexive install_acc_le.
Proof. intros a. split; [reflexivity | auto]. Qed.

Global Instance install_acc_le_trans : Transitive install_acc_le.
Proof.
  intros a1 a2 a3 (Hg & He) (Hg' & He').
  split; [etransitivity; eassumption | auto].
Qed.

Lemma artefacts_fold_elem (modules : list ModulePackage.t) : ∀ s x,
  x ∈ fold_left (fun s module => set_update s (ModulePackage.getArtifacts module))
        modules s ->
  x ∈ s ∨ ∃ m, m ∈ modules ∧ x ∈ ModulePackage.getArtifacts m.
Proof.
  induction modules as [|m modules IH]; intros s x Hx; [by left|].
  cbn [fold_left] in Hx. destruct (IH _ _ Hx) as [Hx'|(m' & Hm' & Hx')].
  - apply elem_of_set_update in Hx' as [?|?]; [by left|].
    right. exists m. split; [left | assumption].
  - right. exists m'. split; [by right | assumption].
Qed.

(** [install_profiles] leaves the error specs and adds artefacts of the
    modules of its list only. *)
Lemma install_profiles_spec spec latest_module install_module_list profiles acc :
  ia_error_specs (install_profiles spec latest_module install_module_list profiles acc)
  = ia_error_specs acc
  ∧ ∀ x, x ∈ ia_install_set_artefacts
               (install_profiles spec latest_module install_module_list profiles acc) ->
         x ∈ ia_install_set_artefacts acc
         ∨ ∃ m, m ∈ install_module_list ∧ x ∈ ModulePackage.getArtifacts m.
Proof.
  unfold install_profiles. cbn [ia_error_specs ia_install_set_artefacts].
  set (step := fun (acc : InstallAcc) (profile : ModuleProfile.t) => _).
  assert (∀ profiles acc,
            ia_error_specs (fold_left step profiles acc) = ia_error_specs acc
            ∧ ia_install_set_artefacts (fold_left step profiles acc)
              = ia_install_set_artefacts acc) as Hfold.
  { clear. induction profiles as [|p profiles IH]; intros acc; [by split|].
    cbn [fold_left]. destruct (IH (step acc p)) as [-> ->]. by split. }
  destruct (Hfold profiles acc) as [-> ->]. split; [reflexivity|].
  intros x Hx. apply artefacts_fold_elem, Hx.
Qed.

Lemma install_profiles_le spec latest_module install_module_list profiles acc :
  install_acc_le acc
    (install_profiles spec latest_module install_module_list profiles acc).
Proof.
  split; [apply install_profiles_grows|].
  destruct (install_profiles_spec spec latest_module install_module_list profiles acc)
    as [-> _]. auto.
Qed.

Lemma append_error_spec_le acc spec : install_acc_le acc (append_error_spec acc spec).
Proof.
  split; [reflexivity|]. intros x Hx. cbn. apply elem_of_app. by left.
Qed.

Lemma install_stream_le spec nsvcap name acc entry :
  install_acc_le acc (install_stream spec nsvcap name acc entry).1.
Proof.
  unfold install_stream.
  destruct (List.filter _ entry.2) as [|x install_module_list] eqn:Hfilter;
    [apply append_error_spec_le|].
  destruct (_get_latest (x :: install_module_list)) as [latest_module|];
    [|reflexivity].
  destruct (str_truthy (nsvcap_profile nsvcap)).
  - destruct (ModulePackage.getProfiles latest_module _);
      [apply append_error_spec_le|].
    cbn [fst]. apply install_profiles_le.
  - cbn [fst].
    set (r := fold_left _ _ (ia_container acc, [])).
    assert (grows (ia_container acc) r.1) as Hgrows.
    { apply (fold_left_rel (grows_on fst) _ _ (ia_container acc, [])).
      intros; apply default_profile_step_grows. }
    transitivity (with_ia_container acc r.1).
    + split; [exact Hgrows | auto].
    + apply install_profiles_le.
Qed.

Lemma install_spec_le acc entry : install_acc_le acc (install_spec acc entry).1.
Proof.
  unfold install_spec.
  apply (for_loop_rel install_acc_le). intros s x.
  apply (for_loop_rel install_acc_le). intros s' x'. apply install_stream_le.
Qed.

(** The artefacts that a pass of the loop body of [install] adds belong to
    versions of its stream group that are active. *)
Lemma install_stream_artefacts spec nsvcap name acc entry x :
  x ∈ ia_install_set_artefacts (install_stream spec nsvcap name acc entry).1 ->
  x ∈ ia_install_set_artefacts acc
  ∨ ∃ m, m ∈ entry.2
         ∧ ModulePackageContainer.isModuleActive (ia_container acc)
             (ModulePackage.getId m) = true
         ∧ x ∈ ModulePackage.getArtifacts m.
Proof.
  unfold install_stream.
  assert (∀ m,
            m ∈ List.filter
                  (fun x => ModulePackageContainer.isModuleActive (ia_container acc)
                              (ModulePackage.getId x)) entry.2 ->
            m ∈ entry.2
            ∧ ModulePackageContainer.isModuleActive (ia_container acc)
                (ModulePackage.getId m) = true) as Hactive.
  { intros m Hm. apply list_elem_of_In, filter_In in Hm as [Hm Ha].
    split; [apply list_elem_of_In, Hm | exact Ha]. }
  destruct (List.filter _ entry.2) as [|y install_module_list] eqn:Hfilter;
    [by left|].
  destruct (_get_latest (y :: install_module_list)) as [latest_module|]; [|by left].
  destruct (str_truthy (nsvcap_profile nsvcap)).
  - destruct (ModulePackage.getProfiles latest_module _); [by left|].
    cbn [fst]. intros Hx.
    apply install_profiles_spec in Hx as [?|(m & Hm & Hx)]; [by left|].
    right. exists m. destruct (Hactive m Hm). by repeat split.
  - cbn [fst]. intros Hx.
    apply install_profiles_spec in Hx as [?|(m & Hm & Hx)]; [by left|].
    right. exists m. destruct (Hactive m Hm). by repeat split.
Qed.

Lemma install_package_fold strict install_base_query d : ∀ st,
  (∀ s, s ∈ st.2 ->
        s ∈ (fold_left (install_package strict install_base_query) d st).2)
  ∧ ∃ new,
      requests (fold_left (install_package strict install_base_query) d st).1
      = requests st.1 ++ new
      ∧ Forall (fun r => ∃ query name,
                  r = GoalInstall query (negb strict)
                  ∧ query ≠ []
                  ∧ query = query_filter_name install_base_query name) new.
Proof.
  induction d as [|entry d IH]; intros st.
  - split; [auto|]. exists []. split; [rewrite app_nil_r; reflexivity | constructor].
  - cbn [fold_left]. destruct (IH (install_package strict install_base_query st entry))
      as (Herr & new & Hreq & Hnew).
    assert (install_package strict install_base_query st entry
            = match query_filter_name install_base_query entry.1 with
              | [] => (st.1, st.2 ++ entry.2)
              | query =>
                  (add_request (add_group_member st.1 entry.1)
                     (GoalInstall query (negb strict)), st.2)
              end) as Hstep by reflexivity.
    destruct (query_filter_name install_base_query entry.1) as [|p query] eqn:Hquery;
      rewrite Hstep in Herr, Hreq |- *; clear Hstep.
    + split.
      * intros s Hs. apply Herr. cbn [snd]. apply elem_of_app. by left.
      * exists new. split; [exact Hreq | exact Hnew].
    + split; [exact Herr|].
      exists (GoalInstall (p :: query) (negb strict) :: new).
      split.
      * rewrite Hreq. cbn [fst requests add_request add_group_member].
        rewrite <- (assoc app). reflexivity.
      * constructor; [|exact Hnew]. exists (p :: query), entry.1.
        split; [reflexivity|]. split; [discriminate | by symmetry].
Qed.


Lemma _get_modules_in_catalog np c spec module_list nsvcap :
  _get_modules np c spec = Some (module_list, nsvcap) ->
  ∀ m, m ∈ module_list -> m ∈ ModulePackageContainer.modules c.
Proof.
  unfold _get_modules. induction (np spec) as [|n rest IH]; [discriminate|].
  cbn [_get_modules_loop].
  destruct (_get_modules_query c n) as [|x modules] eqn:Hquery; [exact IH|].
  intros [= <- <-] m Hm. rewrite <- Hquery in Hm.
  unfold _get_modules_query, ModulePackageContainer.query in Hm.
  apply list_elem_of_In, filter_In in Hm as [Hm _]. apply list_elem_of_In, Hm.
Qed.

Lemma dict_set_elem {V} k (v : V) d k' v' :
  (k', v') ∈ dict_setdefault_update k v (fun _ => v) d ->
  (k', v') = (k, v) ∨ (k', v') ∈ d.
Proof.
  induction d as [|[k0 v0] d IH]; cbn [dict_setdefault_update].
  - intros ->%list_elem_of_singleton. by left.
  - destruct (decide (k0 = k)) as [->|Hne].
    + intros [->|Hin]%elem_of_cons; [by left | right; by right].
    + intros [->|Hin]%elem_of_cons; [right; left|].
      destruct (IH Hin) as [?|?]; [by left | right; by right].
Qed.

(** The stream groups that the resolution hands on hold versions of the
    catalog that the spec of their entry matches. *)
Lemma resolve_loop_matched np c0 all specs : ∀ st,
  (∀ x, x ∈ specs -> x ∈ all) ->
  ModulePackageContainer.modules st.1 = ModulePackageContainer.modules c0 ->
  (∀ spec nsvcap md n sd s g m,
     (spec, (nsvcap, md)) ∈ module_dicts st.2 ->
     (n, sd) ∈ md -> (s, g) ∈ sd -> m ∈ g -> matched_module np c0 all m) ->
  ∀ spec nsvcap md n sd s g m,
    (spec, (nsvcap, md)) ∈ module_dicts (for_loop (resolve_spec np) specs st).1.2 ->
    (n, sd) ∈ md -> (s, g) ∈ sd -> m ∈ g -> matched_module np c0 all m.
Proof.
  induction specs as [|x specs IH]; intros st Hall Hmodules Hinv; [exact Hinv|].
  cbn [for_loop].
  pose proof (resolve_spec_no_raise np st x) as Hnone.
  pose proof (resolve_spec_rel (keeps ModulePackageContainer.modules)
                (fun _ => True) enable_keeps_modules np st x (fun _ => I)) as Hkeep.
  assert (∀ spec nsvcap md n sd s g m,
            (spec, (nsvcap, md)) ∈ module_dicts (resolve_spec np st x).1.2 ->
            (n, sd) ∈ md -> (s, g) ∈ sd -> m ∈ g -> matched_module np c0 all m)
    as Hstep.
  { unfold resolve_spec.
    rewrite (_get_modules_same_catalog np c0 st.1 x Hmodules).
    destruct (_get_modules np c0 x) as [[module_list nsvcap0]|] eqn:Hget;
      [|exact Hinv].
    destruct (_create_module_dict_and_enable st.1 module_list true)
      as [c1 [md0|e]] eqn:Hcreate.
    - cbn [fst snd module_dicts]. intros spec nsvcap md n sd s g m Hentry Hsd Hg Hm.
      apply dict_set_elem in Hentry as [[= -> -> ->]|Hentry];
        [|exact (Hinv _ _ _ _ _ _ _ _ Hentry Hsd Hg Hm)].
      destruct (create_groups _ _ _ _ _ Hcreate n sd s g Hsd Hg) as [_ Hsub].
      split.
      + exact (_get_modules_in_catalog np c0 x module_list nsvcap0 Hget m (Hsub m Hm)).
      + exists x, module_list, nsvcap0. split; [apply Hall; left|].
        split; [exact Hget | exact (Hsub m Hm)].
    - destruct e; exact Hinv. }
  destruct (resolve_spec np st x) as [st' [e|]]; [discriminate|].
  cbn [fst snd] in Hkeep, Hstep. unfold keeps in Hkeep.
  apply (IH st'); [intros y Hy; apply Hall; by right | congruence | exact Hstep].
Qed.

(** The state of [install] after its first loop: the container has grown
    from the one that the resolution left, and every artefact that was
    collected belongs to a version that one of the specs matches and that is
    active after the resolution. *)
Lemma install_first_loop np fm b module_specs b1 rs :
  _resolve_specs_enable_update_sack np fm b module_specs = (b1, Ok rs) ->
  ∃ acc,
    for_loop install_spec (module_dicts rs)
      {| ia_container := _moduleContainer b1;
         ia_error_specs := error_spec rs;
         ia_install_dict := [];
         ia_install_set_artefacts := [] |} = (acc, None)
    ∧ grows (_moduleContainer b1) (ia_container acc)
    ∧ (∀ x, x ∈ ia_install_set_artefacts acc ->
         ∃ m, matched_module np (_moduleContainer b) module_specs m
              ∧ ModulePackageContainer.isModuleActive (_moduleContainer b1)
                  (ModulePackage.getId m) = true
              ∧ x ∈ ModulePackage.getArtifacts m).
Proof.
  intros Hres.
  assert (∀ spec nsvcap md n sd s g m,
            (spec, (nsvcap, md)) ∈ module_dicts rs ->
            (n, sd) ∈ md -> (s, g) ∈ sd -> m ∈ g ->
            matched_module np (_moduleContainer b) module_specs m) as Hmatched.
  { pose proof (resolve_loop_matched np (_moduleContainer b) module_specs
                  (set_of_list module_specs)
                  (_moduleContainer b,
                   {| no_match_specs := []; error_spec := []; module_dicts := [] |}))
      as H.
    unfold _resolve_specs_enable_update_sack in Hres.
    destruct (for_loop _ _ _) as [[c rs'] [e|]]; [discriminate|].
    injection Hres as _ <-. apply H; [|reflexivity|].
    - intros x Hx. unfold set_of_list in Hx.
      exact (proj1 (elem_of_remove_dups _ _) Hx).
    - intros spec nsvcap md n sd s g m Hin. by apply elem_of_nil in Hin. }
  set (acc0 := {| ia_container := _moduleContainer b1;
                  ia_error_specs := error_spec rs;
                  ia_install_dict := [];
                  ia_install_set_artefacts := [] |}).
  set (J := fun acc : InstallAcc =>
              grows (_moduleContainer b1) (ia_container acc)
              ∧ ∀ x, x ∈ ia_install_set_artefacts acc ->
                  ∃ m, matched_module np (_moduleContainer b) module_specs m
                       ∧ ModulePackageContainer.isModuleActive (_moduleContainer b1)
                           (ModulePackage.getId m) = true
                       ∧ x ∈ ModulePackage.getArtifacts m).
  destruct (for_loop_invariant J install_spec (module_dicts rs) acc0)
    as [[Hgrows Hart] Hnone].
  { split; [reflexivity|]. intros x Hx. by apply elem_of_nil in Hx. }
  { intros acc [spec [nsvcap md]] Hentry Hacc. unfold install_spec. cbn [fst snd].
    apply (for_loop_invariant J); [exact Hacc|].
    intros acc1 [n sd] Hsd Hacc1. cbn [fst snd].
    apply (for_loop_invariant J); [exact Hacc1|].
    intros acc2 [s g] Hg [Hgrows2 Hart2].
    destruct (install_stream_spec spec nsvcap n acc2 (s, g)) as [Hnone Hgrows3].
    split; [|exact Hnone]. split; [etransitivity; eassumption|].
    intros x Hx.
    apply install_stream_artefacts in Hx as [Hx|(m & Hm & Hactive & Hx)];
      [exact (Hart2 x Hx)|].
    exists m. split; [exact (Hmatched _ _ _ _ _ _ _ _ Hentry Hsd Hg Hm)|].
    split; [|exact Hx]. destruct Hgrows2 as (Hact & _).
    unfold ModulePackageContainer.isModuleActive in *. rewrite <- Hact. exact Hactive. }
  destruct (for_loop install_spec (module_dicts rs) acc0) as [acc [e|]];
    [discriminate|].
  exists acc. split; [reflexivity|]. split; [exact Hgrows | exact Hart].
Qed.


(** X16: [install] never takes an install marker away. *)
Theorem install_keeps_markers np fm b module_specs strict n p :
  p ∈ ModulePackageContainer.getInstalledProfiles (_moduleContainer b) n ->
  p ∈ ModulePackageContainer.getInstalledProfiles
        (_moduleContainer (install np fm b module_specs strict).1) n.
Proof.
  intros Hp.
  destruct (_resolve_specs_enable_update_sack_returns np fm b module_specs)
    as (b1 & rs & Hres).
  destruct (_resolve_specs_enable_update_sack_keeps np fm b module_specs)
    as [_ Hsame].
  destruct (install_first_loop np fm b module_specs b1 rs Hres)
    as (acc & Hloop & (_ & _ & Hmarkers) & _).
  rewrite Hres in Hsame. cbn [fst] in Hsame.
  unfold install. rewrite Hres, Hloop. cbv zeta.
  assert (_moduleContainer
            (fold_left
               (install_package strict
                  (query_nevra_strict (sack (with_container b1 (ia_container acc)))
                     (ia_install_set_artefacts acc)))
               (ia_install_dict acc)
               (with_container b1 (ia_container acc), ia_error_specs acc)).1
          = ia_container acc) as Hcontainer.
  { rewrite install_package_container. reflexivity. }
  assert (p ∈ ModulePackageContainer.getInstalledProfiles (ia_container acc) n)
    as Hfinal.
  { apply Hmarkers. unfold ModulePackageContainer.getInstalledProfiles in *.
    rewrite Hsame. exact Hp. }
  destruct (no_match_specs rs), (fold_left _ _ _).2; cbn [fst];
    rewrite Hcontainer; exact Hfinal.
Qed.

(** X17: a spec that names a profile which the latest version of a resolved
    stream group does not have, among the versions that are active once the
    specs are resolved and the sack is re-filtered, is reported: [install]
    raises the marking error with the spec among its error specs. *)
Theorem install_profile_not_matched
    np fm b module_specs strict b1 rs spec nsvcap moduledict name streamdict
    stream module_list latest_module p :
  _resolve_specs_enable_update_sack np fm b module_specs = (b1, Ok rs) ->
  (spec, (nsvcap, moduledict)) ∈ module_dicts rs ->
  (name, streamdict) ∈ moduledict ->
  (stream, module_list) ∈ streamdict ->
  nsvcap_profile nsvcap = Some p ->
  p ≠ "" ->
  _get_latest
    (List.filter (fun x => ModulePackageContainer.isModuleActive (_moduleContainer b1)
                             (ModulePackage.getId x)) module_list)
  = Some latest_module ->
  ModulePackage.getProfiles latest_module p = [] ->
  ∃ no_match error_specs,
    (install np fm b module_specs strict).2
    = Raise (ModuleMarkingError no_match error_specs)
    ∧ spec ∈ error_specs.
Proof.
  intros Hres Hspec Hname Hstream Hprofile Hne Hlatest Hmissing.
  unfold install. rewrite Hres.
  set (acc0 := {| ia_container := _moduleContainer b1;
                  ia_error_specs := error_spec rs;
                  ia_install_dict := [];
                  ia_install_set_artefacts := [] |}).
  pose proof (for_loop_no_raise install_spec (module_dicts rs) acc0
                (fun s x => proj1 (install_spec_spec s x))) as Hnone.
  destruct (for_loop_reaches install_acc_le install_spec (module_dicts rs)
              acc0 (spec, (nsvcap, moduledict)) Hspec
              (fun s x => proj1 (install_spec_spec s x)) install_spec_le)
    as (acc1 & Hacc1 & Hrest1).
  unfold install_spec at 1 in Hrest1. cbn [fst snd] in Hrest1.
  destruct (for_loop_reaches install_acc_le
              (fun acc (name_streamdict : string * StreamDict) =>
                 for_loop (install_stream spec nsvcap name_streamdict.1)
                          name_streamdict.2 acc)
              moduledict acc1 (name, streamdict) Hname)
    as (acc2 & Hacc2 & Hrest2).
  { intros s x. apply for_loop_no_raise. intros; apply install_stream_spec. }
  { intros s x. apply (for_loop_rel install_acc_le). intros; apply install_stream_le. }
  cbn [fst snd] in Hrest2.
  destruct (for_loop_reaches install_acc_le
              (install_stream spec nsvcap name) streamdict acc2
              (stream, module_list) Hstream)
    as (acc3 & Hacc3 & Hrest3).
  { intros; apply install_stream_spec. }
  { intros; apply install_stream_le. }
  assert (grows (_moduleContainer b1) (ia_container acc3)) as (Hactive & _).
  { etransitivity; [apply Hacc1|]. etransitivity; [apply Hacc2 | apply Hacc3]. }
  assert (spec ∈ ia_error_specs
                   (install_stream spec nsvcap name acc3 (stream, module_list)).1)
    as Hreported.
  { unfold install_stream. cbn [fst snd].
    unfold ModulePackageContainer.isModuleActive in Hlatest |- *. rewrite Hactive.
    destruct (List.filter _ module_list) as [|x l] eqn:Hfilter; [discriminate|].
    rewrite Hlatest, Hprofile, (str_truthy_Some p Hne). cbn [from_option id].
    rewrite Hmissing. cbn. apply elem_of_app. right. left. }
  assert (spec ∈ ia_error_specs (for_loop install_spec (module_dicts rs) acc0).1)
    as Hfinal.
  { apply Hrest1, Hrest2, Hrest3, Hreported. }
  destruct (for_loop install_spec (module_dicts rs) acc0) as [acc [e|]];
    [discriminate|].
  cbn [fst] in Hfinal. cbv zeta.
  destruct (install_package_fold strict
              (query_nevra_strict (sack (with_container b1 (ia_container acc)))
                 (ia_install_set_artefacts acc))
              (ia_install_dict acc)
              (with_container b1 (ia_container acc), ia_error_specs acc))
    as (Herr & _).
  specialize (Herr spec Hfinal).
  destruct (fold_left _ _ _).2 as [|e errors] eqn:Herrors;
    [by apply elem_of_nil in Herr|].
  destruct (no_match_specs rs); eexists _, _; (split; [reflexivity | exact Herr]).
Qed.

(** ** [_get_latest]: which of several greatest versions *)

Lemma latest_fold_first (rest : list ModulePackage.t) (first : ModulePackage.t) :
  ∃ before after,
    first :: rest
    = before
      ++ fold_left
           (fun latest module =>
              if ModulePackage.getVersion latest <? ModulePackage.getVersion module
              then module else latest)
           rest first
      :: after
    ∧ Forall (fun m => ModulePackage.getVersion m
                       < ModulePackage.getVersion
                           (fold_left
                              (fun latest module =>
                                 if ModulePackage.getVersion latest
                                    <? ModulePackage.getVersion module
                                 then module else latest)
                              rest first))
             before
    ∧ Forall (fun m => ModulePackage.getVersion m
                       ≤ ModulePackage.getVersion
                           (fold_left
                              (fun latest module =>
                                 if ModulePackage.getVersion latest
                                    <? ModulePackage.getVersion module
                                 then module else latest)
                              rest first))
             after.
Proof.
  revert first. induction rest as [|m rest IH]; intros first.
  - exists [], []. cbn. repeat split; constructor.
  - cbn [fold_left].
    destruct (Z.ltb_spec (ModulePackage.getVersion first) (ModulePackage.getVersion m))
      as [Hlt | Hge].
    + destruct (IH m) as (before & after & Heq & Hbefore & Hafter).
      destruct (latest_fold_spec rest m) as (_ & Hle & _). cbv zeta in Hle.
      exists (first :: before), after. split; [|split].
      * cbn [app]. f_equal. exact Heq.
      * constructor; [lia | exact Hbefore].
      * exact Hafter.
    + destruct (IH first) as (before & after & Heq & Hbefore & Hafter).
      destruct before as [|x before]; cbn [app] in Heq.
      * injection Heq as Hfirst Hrest.
        exists [], (m :: after). split; [|split].
        -- cbn [app]. rewrite <- Hfirst. f_equal. f_equal. exact Hrest.
        -- constructor.
        -- constructor; [rewrite <- Hfirst; lia | exact Hafter].
      * injection Heq as Hfirst Hrest. subst x.
        exists (first :: m :: before), after. split; [|split].
        -- cbn [app]. f_equal. f_equal. exact Hrest.
        -- apply Forall_cons in Hbefore as [Hx Hbefore].
           constructor; [exact Hx|]. constructor; [lia | exact Hbefore].
        -- exact Hafter.
Qed.

(** X18: among several versions with the greatest version number
    [_get_latest] returns the one that comes first in the list: everything
    before the returned element has a strictly smaller version, everything
    after it a smaller or equal one. It returns nothing only for the empty
    list. *)
Theorem _get_latest_first_greatest (module_list : list ModulePackage.t) :
  match _get_latest module_list with
  | None => module_list = []
  | Some latest_module =>
      ∃ before after,
        module_list = before ++ latest_module :: after
        ∧ Forall (fun m => ModulePackage.getVersion m
                           < ModulePackage.getVersion latest_module) before
        ∧ Forall (fun m => ModulePackage.getVersion m
                           ≤ ModulePackage.getVersion latest_module) after
  end.
Proof.
  destruct module_list as [|first rest]; [reflexivity|].
  unfold _get_latest. apply latest_fold_first.
Qed.

(** ** [get_modules_dir] *)

Lemma lstrip_slash_relative (s : string) :
  startswith_slash (lstrip_slash s) = false.
Proof.
  induction s as [|c s IH]; [reflexivity|]. cbn [lstrip_slash].
  destruct (Ascii.eqb c "/") eqn:Hc; [exact IH|]. cbn [startswith_slash]. exact Hc.
Qed.

Lemma prefix_append (a b : string) : String.prefix a (String.append a b) = true.
Proof.
  induction a as [|c a IH]; simpl; [by destruct b|].
  destruct (Ascii.ascii_dec c c); [exact IH | congruence].
Qed.

(** X19: the modules directory lies under the install root whatever
    [modulesdir] is, also when it is an absolute path: the returned path
    starts with the install root, and slashes at the front of [modulesdir]
    make no difference. *)
Theorem get_modules_dir_under_installroot (installroot modulesdir : string) :
  String.prefix installroot (get_modules_dir installroot modulesdir) = true
  ∧ get_modules_dir installroot (String "/" modulesdir)
    = get_modules_dir installroot modulesdir
  ∧ get_modules_dir installroot modulesdir
    = String.append installroot
        (if String.eqb installroot "" || endswith_slash installroot
         then lstrip_slash modulesdir
         else String "/" (lstrip_slash modulesdir)).
Proof.
  unfold get_modules_dir, os_path_join. rewrite !lstrip_slash_relative.
  split; [|split].
  - destruct (String.eqb installroot "" || endswith_slash installroot);
      apply prefix_append.
  - reflexivity.
  - destruct (String.eqb installroot "" || endswith_slash installroot); reflexivity.
Qed.

(** ** Concrete runs of the further properties *)

Lemma _create_module_dict_and_enable_enables_witness :
  (∀ m, m ∈ [m_s_1; m_s_2] ->
     ModulePackage.getName m ∈ dict_keys [("m", [("s", [m_s_1; m_s_2])])])
  ∧ ∀ n sd, (n, sd) ∈ [("m", [("s", [m_s_1; m_s_2])])] ->
      ∃ stream group,
        sd = [(stream, group)]
        ∧ group ≠ []
        ∧ group = filter (fun m => ModulePackage.getName m = n
                                   ∧ ModulePackage.getStream m = stream)
                         [m_s_1; m_s_2]
        ∧ ModulePackageContainer.getModuleState
            (_create_module_dict_and_enable (_moduleContainer base_one_stream)
               [m_s_1; m_s_2] true).1 n = STATE_ENABLED
        ∧ ModulePackageContainer.getEnabledStream
            (_create_module_dict_and_enable (_moduleContainer base_one_stream)
               [m_s_1; m_s_2] true).1 n = "s".
Proof.
  pose proof (_create_module_dict_and_enable_enables
                (_moduleContainer base_one_stream)
                (_create_module_dict_and_enable (_moduleContainer base_one_stream)
                   [m_s_1; m_s_2] true).1
                [m_s_1; m_s_2] [("m", [("s", [m_s_1; m_s_2])])]) as H.
  destruct H as [Hnames Hgroups]; [vm_compute; reflexivity|].
  split; [exact Hnames|]. intros n sd Hsd.
  destruct (Hgroups n sd Hsd) as (stream & group & Heq & Hne & Hgroup & Hstate & Hstream).
  apply list_elem_of_singleton in Hsd. injection Hsd as -> ->.
  injection Heq as <- <-.
  exists "s", [m_s_1; m_s_2]. repeat split; assumption.
Defined.


(** What [enable] does on that batch: it returns, module ["m"] is enabled on
    stream ["a"] and module ["t"], which comes after ["m"] in the pass for
    spec ["b"], is not enabled. *)
Example enable_batch_conflict :
  let r := enable by_stream keep_sack base_m_t ["a"; "b"] in
  r.2 = Ok tt
  ∧ ModulePackageContainer.getModuleState (_moduleContainer r.1) "m" = STATE_ENABLED
  ∧ ModulePackageContainer.getEnabledStream (_moduleContainer r.1) "m" = "a"
  ∧ ModulePackageContainer.getModuleState (_moduleContainer r.1) "t" = STATE_DEFAULT
  ∧ match (_resolve_specs_enable_update_sack by_stream keep_sack base_m_t
             ["a"; "b"]).2 with
    | Ok rs => error_spec rs = ["b"]
    | Raise _ => False
    end.
Proof. vm_compute. repeat split; reflexivity. Qed.

(** Two streams of one module in one batch: the first is enabled, the second
    is refused by the container and its spec becomes an error spec, which
    [install] reports and [enable] does not ([install] reports spec ["a"]
    as well: the sack has no package for its profile). *)
Example enable_two_streams_one_batch :
  let b := base_two_streams STATE_DEFAULT ∅ in
  let r := _resolve_specs_enable_update_sack stream_of_m keep_sack b ["a"; "b"] in
  ModulePackageContainer.getModuleState (_moduleContainer r.1) "m" = STATE_ENABLED
  ∧ ModulePackageContainer.getEnabledStream (_moduleContainer r.1) "m" = "a"
  ∧ match r.2 with
    | Ok rs => error_spec rs = ["b"] ∧ no_match_specs rs = []
    | Raise _ => False
    end
  ∧ (enable stream_of_m keep_sack b ["a"; "b"]).2 = Ok tt
  ∧ (install stream_of_m keep_sack b ["a"; "b"] true).2
    = Raise (ModuleMarkingError [] ["b"; "a"]).
Proof. vm_compute. repeat split; reflexivity. Qed.

Lemma package_name_set_spec_witness :
  ∃ names,
    (_get_package_name_set_and_remove_profiles (_moduleContainer base_one_stream)
       [m_s_1; m_s_2] nsvcap_m false).2
    = Ok names
    ∧ NoDup names
    ∧ ∀ y, y ∈ names
           <-> ∃ profile,
                 profile ∈ ModulePackage.profiles m_s_2
                 ∧ ModuleProfile.getName profile
                   ∈ ModulePackageContainer.getInstalledProfiles
                       (_moduleContainer base_one_stream) (ModulePackage.getName m_s_2)
                 ∧ (str_truthy (nsvcap_profile nsvcap_m) = true ->
                    Some (ModuleProfile.getName profile) = nsvcap_profile nsvcap_m)
                 ∧ y ∈ ModuleProfile.getContent profile.
Proof.
  apply (package_name_set_spec (_moduleContainer base_one_stream) [m_s_1; m_s_2]
           nsvcap_m false m_s_2).
  reflexivity.
Defined.


Lemma install_keeps_markers_witness :
  "minimal" ∈ ModulePackageContainer.getInstalledProfiles
                (_moduleContainer
                   (install name_only keep_sack base_one_stream ["m"] true).1) "m".
Proof.
  apply (install_keeps_markers name_only keep_sack base_one_stream ["m"] true
           "m" "minimal").
  refine (bool_decide_unpack _ _). vm_compute. exact I.
Defined.

Lemma install_profile_not_matched_witness :
  ∃ no_match error_specs,
    (install (name_with_profile "gui") activate_enabled (inactive base_one_stream)
       ["m"] true).2
    = Raise (ModuleMarkingError no_match error_specs)
    ∧ "m" ∈ error_specs.
Proof.
  eapply (install_profile_not_matched (name_with_profile "gui") activate_enabled
            (inactive base_one_stream) ["m"] true _ _ "m" _ _ "m" _ "s"
            [m_s_1; m_s_2] m_s_2 "gui").
  - vm_compute. reflexivity.
  - left.
  - left.
  - left.
  - reflexivity.
  - discriminate.
  - reflexivity.
  - reflexivity.
Defined.

